(** * Billboard admin console: embedding of the services and their properties

    The development follows the JavaScript sources of the admin console:
    - [services/mqtt-broker.js]    : [MqttBroker] and [TokenManager];
    - [config/mqtt.js]             : broker, topic and option constants;
    - [services/device-control.js] : [DeviceControlService];
    - [update-service.js]          : [UpdateService];
    - [services/github.js]         : [GitHubService] (manifests, file names,
                                     batches of uploads);
    - [github-upload-service.js]   : [GitHubUploadService] ([makeApiRequest],
                                     authentication);
    - [services/github-config.js]  : [GitHubConfigManager].

    JavaScript strings are sequences of UTF-16 code units, numbers that
    matter only through comparisons are rationals, objects parsed from JSON
    are association lists.  Functions of the browser platform that the
    sources call ([btoa], [atob], [String.prototype.trim], ...) are written
    out after their standards; [JSON.parse], the [Date] constructor,
    [ToString] of non-string values and the order in which
    [Array.prototype.sort] leaves an array under a comparator that is not
    consistent are taken as an interface. *)

From Stdlib Require Import QArith Qminmax Qround Lqa.
From Stdlib Require Import ZArith NArith List String Ascii Bool Lia ZifyBool ZifyNat
  DecimalString
  Permutation.
From stdpp Require Import base option list gmap.
Import ListNotations.

Close Scope Q_scope.
Local Open Scope N_scope.

(** ** JavaScript values *)

Module JS.

(** A string is the list of its UTF-16 code units. *)
Definition jsstr := list N.

(** UTF-16 code units of a UTF-8 byte sequence. *)
Fixpoint utf16 (bs : list N) : jsstr :=
  match bs with
  | [] => []
  | b0 :: r =>
      if b0 <? 128 then b0 :: utf16 r
      else
        match r with
        | [] => [65533]
        | b1 :: r1 =>
            if b0 <? 224 then (b0 - 192) * 64 + (b1 - 128) :: utf16 r1
            else
              match r1 with
              | [] => [65533]
              | b2 :: r2 =>
                  if b0 <? 240 then
                    (b0 - 224) * 4096 + (b1 - 128) * 64 + (b2 - 128)
                      :: utf16 r2
                  else
                    match r2 with
                    | [] => [65533]
                    | b3 :: r3 =>
                        let cp := (b0 - 240) * 262144 + (b1 - 128) * 4096
                                  + (b2 - 128) * 64 + (b3 - 128) - 65536 in
                        55296 + cp / 1024 :: 56320 + cp mod 1024 :: utf16 r3
                    end
              end
        end
  end.

(** A string literal of the sources (the files are UTF-8). *)
Definition js (s : string) : jsstr :=
  utf16 (List.map N_of_ascii (list_ascii_of_string s)).
Global Arguments js : simpl never.

(** [s.charCodeAt(i)]; [None] stands for [NaN] (index out of range). *)
Definition charCodeAt (s : jsstr) (i : nat) : option N := nth_error s i.

(** [String.fromCharCode(n)] keeps the low 16 bits of [n]. *)
Definition fromCharCode (n : N) : N := n mod 65536.

(** [a ^ b] on char codes; a [NaN] operand converts to [0]. *)
Definition xor_codes (a : N) (b : option N) : N :=
  N.lxor a (match b with Some k => k | None => 0 end).

(** [hay.includes(needle)]. *)
Fixpoint starts_with (needle hay : jsstr) : bool :=
  match needle, hay with
  | [], _ => true
  | _ :: _, [] => false
  | a :: n', b :: h' => (a =? b) && starts_with n' h'
  end.

Fixpoint includes (hay needle : jsstr) : bool :=
  starts_with needle hay ||
  match hay with
  | [] => false
  | _ :: h' => includes h' needle
  end.

(** White space and line terminators removed by [String.prototype.trim]. *)
Definition is_trim_space (c : N) : bool :=
  ((9 <=? c) && (c <=? 13)) || (c =? 32) || (c =? 160) || (c =? 5760)
  || ((8192 <=? c) && (c <=? 8202)) || (c =? 8232) || (c =? 8233)
  || (c =? 8239) || (c =? 8287) || (c =? 12288) || (c =? 65279).

Fixpoint trim_start (s : jsstr) : jsstr :=
  match s with
  | [] => []
  | c :: r => if is_trim_space c then trim_start r else s
  end.

Definition trim (s : jsstr) : jsstr := rev (trim_start (rev (trim_start s))).

(** Values that [JSON.parse] produces.  An object keeps its properties in
    insertion order; the first binding of a key is the one in force. *)
#[warnings="-register-all"]
Inductive json : Type :=
| JNull
| JBool (b : bool)
| JNum (q : Q)
| JStr (s : jsstr)
| JArr (items : list json)
| JObj (props : list (jsstr * json)).

(** A JavaScript value as a property read yields it: [None] is
    [undefined]. *)
Definition value := option json.

Definition jsstr_eqb (a b : jsstr) : bool := bool_decide (a = b).

Fixpoint lookup_prop (k : jsstr) (props : list (jsstr * json)) : value :=
  match props with
  | [] => None
  | (k', v) :: r => if jsstr_eqb k k' then Some v else lookup_prop k r
  end.

(** [obj[k] = v]: replace the binding in place, or append a new one. *)
Fixpoint set_prop (k : jsstr) (v : json) (props : list (jsstr * json))
  : list (jsstr * json) :=
  match props with
  | [] => [(k, v)]
  | (k', v') :: r =>
      if jsstr_eqb k k' then (k, v) :: r else (k', v') :: set_prop k v r
  end.

(** [ToBoolean]. *)
Definition truthy (v : value) : bool :=
  match v with
  | None | Some JNull => false
  | Some (JBool b) => b
  | Some (JNum q) => negb (Qeq_bool q 0)
  | Some (JStr s) => negb (jsstr_eqb s [])
  | Some (JArr _) | Some (JObj _) => true
  end.

(** [Array.isArray(v)]. *)
Definition isArray (v : value) : bool :=
  match v with Some (JArr _) => true | _ => false end.

(** [typeof v === "object" && v !== null]. *)
Definition isObject (v : value) : bool :=
  match v with Some (JArr _) | Some (JObj _) => true | _ => false end.

(** [v.k] for a property name [k] that is neither an index nor a
    built-in member: [None] is the [TypeError] of reading a property of
    [null]; strings, numbers, booleans and arrays have no such property. *)
Definition get_member (v : json) (k : jsstr) : option value :=
  match v with
  | JNull => None
  | JObj props => Some (lookup_prop k props)
  | _ => Some None
  end.

(** The same read where it cannot throw. *)
Definition lookup_member (v : json) (k : jsstr) : value :=
  match get_member v k with Some r => r | None => None end.

(** What the sources use of the platform without fixing it:
    - [JSON_parse s]: the value of [JSON.parse(s)], [None] for a
      [SyntaxError];
    - [Date_time v]: the time value in milliseconds of [new Date(v)],
      [None] for an invalid date;
    - [ToString v]: the string conversion of a value that is not a
      string. *)
Class Platform := {
  JSON_parse : jsstr -> option json;
  Date_time : value -> option Z;
  ToString : value -> jsstr
}.

(** Conversion of an argument to a string ([atob(v)], template
    literals). *)
Definition to_string `{Platform} (v : value) : jsstr :=
  match v with
  | Some (JStr s) => s
  | _ => ToString v
  end.

(** What the sources use to write values out: [JSON_stringify v] is the
    text of [JSON.stringify(v)] and [Date_toISOString t] the text of
    [new Date(t).toISOString()]. *)
Class Printer := {
  JSON_stringify : json -> jsstr;
  Date_toISOString : Z -> jsstr
}.

End JS.

(** ** Numbers *)

Module Numbers.
Import JS.

(** Numbers as the sources compute with them, beside [Platform]: a
    number is a rational or [NaN] ([None]);
    - [ToNumber v] is the numeric conversion of a value that is not a
      number;
    - [Number_text x] is the text of [x] in a template literal;
    - [toFixed x d] is the text of [x.toFixed(d)]. *)
Class Numbers := {
  ToNumber : value -> option Q;
  Number_text : option Q -> jsstr;
  toFixed : option Q -> nat -> jsstr
}.

Definition to_number `{Numbers} (v : value) : option Q :=
  match v with
  | Some (JNum q) => Some q
  | _ => ToNumber v
  end.

(** [Math.round(x)]: the integer nearest to [x], a tie going up. *)
Definition Math_round (x : option Q) : option Q :=
  option_map (fun q => inject_Z (Qfloor (q + (1 # 2))%Q)) x.

End Numbers.

(** ** Base64 as the browser implements it ([btoa], [atob]) *)

Module Base64.
Import JS.

(** The character of a 6-bit value. *)
Definition sextet_char (s : N) : N :=
  if s <? 26 then 65 + s
  else if s <? 52 then 71 + s
  else if s <? 62 then s - 4
  else if s =? 62 then 43
  else 47.

(** The 6-bit value of a character of the alphabet. *)
Definition char_sextet (c : N) : option N :=
  if (65 <=? c) && (c <=? 90) then Some (c - 65)
  else if (97 <=? c) && (c <=? 122) then Some (c - 71)
  else if (48 <=? c) && (c <=? 57) then Some (c + 4)
  else if c =? 43 then Some 62
  else if c =? 47 then Some 63
  else None.

Definition pad_char : N := 61.

(** Bytes to 6-bit groups, three bytes at a time. *)
Fixpoint sextets (bs : list N) : list N :=
  match bs with
  | [] => []
  | [a] => [a / 4; (a mod 4) * 16]
  | [a; b] => [a / 4; (a mod 4) * 16 + b / 16; (b mod 16) * 4]
  | a :: b :: c :: rest =>
      a / 4 :: (a mod 4) * 16 + b / 16 :: (b mod 16) * 4 + c / 64
        :: c mod 64 :: sextets rest
  end.

Definition pad_count (n : nat) : nat :=
  match (n mod 3)%nat with
  | O => 0
  | 1%nat => 2
  | _ => 1
  end.

Definition encode (bs : list N) : jsstr :=
  List.map sextet_char (sextets bs) ++ repeat pad_char (pad_count (length bs)).

(** [btoa(s)] throws [InvalidCharacterError] ([None]) when a code unit of
    [s] is above 255. *)
Definition btoa (s : jsstr) : option jsstr :=
  if forallb (fun c => c <=? 255) s then Some (encode s) else None.

Definition is_ascii_whitespace (c : N) : bool :=
  (c =? 9) || (c =? 10) || (c =? 12) || (c =? 13) || (c =? 32).

Definition is_pad_tail (r : jsstr) : bool :=
  match r with
  | [] => true
  | [y] => y =? pad_char
  | _ => false
  end.

(** Remove one or two [=] at the end of the data. *)
Fixpoint strip_padding (d : jsstr) : jsstr :=
  match d with
  | [] => []
  | x :: r =>
      if (x =? pad_char) && is_pad_tail r then [] else x :: strip_padding r
  end.

Fixpoint all_sextets (d : jsstr) : option (list N) :=
  match d with
  | [] => Some []
  | c :: r =>
      match char_sextet c, all_sextets r with
      | Some s, Some ss => Some (s :: ss)
      | _, _ => None
      end
  end.

(** 6-bit groups to bytes; the bits left over at the end are dropped. *)
Fixpoint decode_sextets (ss : list N) : list N :=
  match ss with
  | a :: b :: c :: d :: rest =>
      a * 4 + b / 16 :: (b mod 16) * 16 + c / 4 :: (c mod 4) * 64 + d
        :: decode_sextets rest
  | [a; b; c] => [a * 4 + b / 16; (b mod 16) * 16 + c / 4]
  | [a; b] => [a * 4 + b / 16]
  | _ => []
  end.

(** [atob(s)], the forgiving-base64 decoding: white space is removed, the
    padding is removed when the length is a multiple of four, a length of
    one modulo four or a foreign character throws ([None]). *)
Definition atob (s : jsstr) : option jsstr :=
  let d := List.filter (fun c => negb (is_ascii_whitespace c)) s in
  let d := if (length d mod 4 =? 0)%nat then strip_padding d else d in
  if (length d mod 4 =? 1)%nat then None
  else option_map decode_sextets (all_sextets d).

End Base64.

(** ** [TokenManager] (second part of services/mqtt-broker.js) *)

Module TokenManager.
Import JS Base64.

(** The shared loop of [obfuscateToken] and [deobfuscateToken], for [i]
    from the given index on:
    [result += String.fromCharCode(c ^ key.charCodeAt(i % key.length))]
    with [c = s.charCodeAt(i)]. *)
Fixpoint xor_loop (key : jsstr) (i : nat) (s : jsstr) : jsstr :=
  match s with
  | [] => []
  | c :: r =>
      fromCharCode (xor_codes c (charCodeAt key (i mod length key)%nat))
        :: xor_loop key (S i) r
  end.

(** The constructor sets [machineId] to [Math.abs(hash).toString(16)], a
    string of the digits [0]-[9] and [a]-[f]. *)
Definition is_hex_digit (c : N) : bool :=
  ((48 <=? c) && (c <=? 57)) || ((97 <=? c) && (c <=? 102)).

Definition hex_string (s : jsstr) : Prop :=
  Forall (fun c => is_hex_digit c = true) s.

(** [obfuscateToken(token)] with [this.machineId = key]; [None] when
    [btoa] throws. *)
Definition obfuscateToken (key token : jsstr) : option jsstr :=
  btoa (xor_loop key 0 token).

(** [deobfuscateToken(obfuscatedToken)]; [None] is the [null] returned
    from the [catch] block. *)
Definition deobfuscateToken (key obfuscated : jsstr) : option jsstr :=
  match atob obfuscated with
  | Some encoded => Some (xor_loop key 0 encoded)
  | None => None
  end.

Definition storageKey : jsstr := js "github-auth-data".

(** [localStorage]: item texts by key. *)
Abbreviation storage := (gmap jsstr jsstr).

(** The object [getStoredToken] returns. *)
Record token_data := {
  token : jsstr;
  userLogin : value;
  storedAt : value
}.

(** [clearToken()]: [localStorage.removeItem(this.storageKey)]. *)
Definition clearToken (ls : storage) : storage := delete storageKey ls.

(** [new Date() > new Date(expiresAt)], with [now] the time value of
    [new Date()]; a comparison with an invalid date is false. *)
Definition expired `{Platform} (now : Z) (expiresAt : value) : bool :=
  match Date_time expiresAt with
  | Some t => (t <? now)%Z
  | None => false
  end.

(** [getStoredToken()] with [this.machineId = machineId] at time [now]:
    the value returned ([None] for [null]) and [localStorage] afterwards.
    Every exception raised in the [try] block ends in the [catch] block,
    which clears the record. *)
Definition getStoredToken `{Platform} (machineId : jsstr) (now : Z)
    (ls : storage) : option token_data * storage :=
  match ls !! storageKey with
  | None => (None, ls)
  | Some storedData =>
      if jsstr_eqb storedData [] then (None, ls)
      else
        match JSON_parse storedData with
        | None => (None, clearToken ls)
        | Some authData =>
            match get_member authData (js "machineId") with
            | None => (None, clearToken ls)
            | Some (Some (JStr m)) =>
                if negb (jsstr_eqb m machineId) then (None, clearToken ls)
                else if expired now (lookup_member authData (js "expiresAt"))
                then (None, clearToken ls)
                else
                  match deobfuscateToken machineId
                          (to_string (lookup_member authData (js "token")))
                  with
                  | None | Some [] => (None, clearToken ls)
                  | Some tok =>
                      (Some {| token := tok;
                               userLogin :=
                                 lookup_member authData (js "userLogin");
                               storedAt :=
                                 lookup_member authData (js "storedAt") |},
                       ls)
                  end
            | Some _ => (None, clearToken ls)
            end
        end
  end.

(** [30 * 24 * 60 * 60 * 1000]: thirty days in milliseconds. *)
Definition thirty_days : Z := 30 * 24 * 60 * 60 * 1000.

(** The object [authData] that [storeToken] writes, [stored] being the
    obfuscated token. *)
Definition auth_record `{Printer} (machineId : jsstr) (now : Z)
    (stored : jsstr) (userLogin : json) : json :=
  JObj [(js "token", JStr stored);
        (js "userLogin", userLogin);
        (js "machineId", JStr machineId);
        (js "storedAt", JStr (Date_toISOString now));
        (js "expiresAt", JStr (Date_toISOString (now + thirty_days)))].

(** [localStorage.setItem(key, text)]: the browser takes the item, or
    it throws ([None]), a [QuotaExceededError] when the storage is full;
    [accepted] tells which. *)
Definition setItem (accepted : bool) (key text : jsstr) (ls : storage)
  : option storage :=
  if accepted then Some (<[key := text]> ls) else None.

(** [storeToken(token, userLogin = null)] at time [now]: the value
    returned and [localStorage] afterwards.  [obfuscateToken] and
    [localStorage.setItem] throw into the [catch] block, which returns
    [false]. *)
Definition storeToken `{Printer} (machineId : jsstr) (now : Z)
    (token : jsstr) (userLogin : value) (accepted : bool) (ls : storage)
  : bool * storage :=
  match obfuscateToken machineId token with
  | None => (false, ls)
  | Some stored =>
      match setItem accepted storageKey
              (JSON_stringify
                 (auth_record machineId now stored
                    (default JNull userLogin))) ls with
      | Some ls' => (true, ls')
      | None => (false, ls)
      end
  end.

(** [hasValidToken()]. *)
Definition hasValidToken `{Platform} (machineId : jsstr) (now : Z)
    (ls : storage) : bool * storage :=
  let '(r, ls') := getStoredToken machineId now ls in
  (bool_decide (is_Some r), ls').

(** The object [getTokenInfo] returns. *)
Record token_info := {
  hasToken : bool;
  info_userLogin : value;
  info_storedAt : value;
  info_expiresAt : value;
  isExpired : bool;
  isForThisMachine : bool
}.

(** [getTokenInfo()]; it reads [localStorage] and leaves it alone.  A
    record that parses to [null] throws into the [catch] block. *)
Definition getTokenInfo `{Platform} (machineId : jsstr) (now : Z)
    (ls : storage) : option token_info :=
  match ls !! storageKey with
  | None => None
  | Some storedData =>
      if jsstr_eqb storedData [] then None
      else
        match JSON_parse storedData with
        | None | Some JNull => None
        | Some authData =>
            Some {| hasToken := true;
                    info_userLogin := lookup_member authData (js "userLogin");
                    info_storedAt := lookup_member authData (js "storedAt");
                    info_expiresAt := lookup_member authData (js "expiresAt");
                    isExpired :=
                      expired now (lookup_member authData (js "expiresAt"));
                    isForThisMachine :=
                      match lookup_member authData (js "machineId") with
                      | Some (JStr m) => jsstr_eqb m machineId
                      | _ => false
                      end |}
        end
  end.

End TokenManager.

(** ** Constants of config/mqtt.js *)

Module MqttConfig.
Import JS.

Module MQTT_BROKERS.
Definition command_url : jsstr := js "wss://broker.hivemq.com:8884/mqtt".
Definition iot_url : jsstr := js "wss://era-mqtt-broker:8883/mqtt".
End MQTT_BROKERS.

Module MQTT_TOPICS.
Definition commands : jsstr := js "its/billboard/commands".
Definition updateStatus : jsstr := js "its/billboard/update/status".
Definition resetStatus : jsstr := js "its/billboard/reset/status".
Definition bannerUpdate : jsstr := js "its/billboard/banner/update".
Definition bannerDelete : jsstr := js "its/billboard/banner/delete".
Definition bannerSync : jsstr := js "its/billboard/banner/sync".
Definition manifestRefresh : jsstr := js "its/billboard/manifest/refresh".
Definition status : jsstr := js "its/billboard/status".
End MQTT_TOPICS.

Module MQTT_OPTIONS.
Definition connectTimeout : Z := 4000%Z.
Definition reconnectPeriod : Q := 1000%Q.
Definition clean : bool := true.
Definition qos : N := 1.
End MQTT_OPTIONS.

(** What a call reads from its surroundings: [Date.now()] and the
    [clientId] of [MQTT_OPTIONS], a random string fixed when the module
    is loaded. *)
Record env := { now : Z; clientId : jsstr }.

End MqttConfig.

(** ** [MqttBroker] (first part of services/mqtt-broker.js) *)

Module MqttBroker.
Import JS MqttConfig.

(** The client object of the MQTT library as the service uses it: its
    [connected] flag and the [reconnectPeriod] it was created with. *)
Record mqtt_client := {
  client_connected : bool;
  client_reconnectPeriod : Q
}.

Record broker := {
  client : option mqtt_client;
  connected : bool;
  connectionStatus : jsstr;
  reconnectAttempts : nat;
  maxReconnectAttempts : nat;
  isReconnecting : bool
}.

(** The object handed to the status callbacks. *)
Record status_data := {
  sd_status : jsstr;
  sd_connected : bool;
  sd_reconnectAttempts : nat;
  sd_error : option jsstr;
  sd_timestamp : Z
}.

(** What an operation does to the outside, in order. *)
Inductive action :=
| AConnect (url : jsstr) (reconnectPeriod : Q) (will_topic : jsstr)
| APublish (topic : jsstr) (message : json) (qos : N)
| ASubscribe (topic : jsstr) (qos : N)
| AEnd
| ANotifyStatus (d : status_data)
| ANotifyMessage (topic : jsstr) (data : json)
| ALogReconnect (attempt max : nat) (backoffDelay : Q).

(** [constructor()]. *)
Definition new_broker : broker :=
  {| client := None; connected := false;
     connectionStatus := js "disconnected";
     reconnectAttempts := 0; maxReconnectAttempts := 10;
     isReconnecting := false |}.

(** A method: the broker before, the value returned, the broker after
    and the actions performed. *)
Definition Act (A : Type) : Type := broker -> A * broker * list action.

#[global] Instance act_ret : MRet Act := fun A x b => (x, b, []).
#[global] Instance act_bind : MBind Act := fun A B f m b =>
  let '(x, b1, t1) := m b in
  let '(y, b2, t2) := f x b1 in
  (y, b2, t1 ++ t2).

Definition get : Act broker := fun b => (b, b, []).
Definition modify (f : broker -> broker) : Act unit := fun b => (tt, f b, []).
Definition tell (a : action) : Act unit := fun b => (tt, b, [a]).

Definition set_client (c : option mqtt_client) (b : broker) : broker :=
  {| client := c; connected := connected b;
     connectionStatus := connectionStatus b;
     reconnectAttempts := reconnectAttempts b;
     maxReconnectAttempts := maxReconnectAttempts b;
     isReconnecting := isReconnecting b |}.
Definition set_connected (v : bool) (b : broker) : broker :=
  {| client := client b; connected := v;
     connectionStatus := connectionStatus b;
     reconnectAttempts := reconnectAttempts b;
     maxReconnectAttempts := maxReconnectAttempts b;
     isReconnecting := isReconnecting b |}.
Definition set_connectionStatus (v : jsstr) (b : broker) : broker :=
  {| client := client b; connected := connected b;
     connectionStatus := v;
     reconnectAttempts := reconnectAttempts b;
     maxReconnectAttempts := maxReconnectAttempts b;
     isReconnecting := isReconnecting b |}.
Definition set_reconnectAttempts (v : nat) (b : broker) : broker :=
  {| client := client b; connected := connected b;
     connectionStatus := connectionStatus b;
     reconnectAttempts := v;
     maxReconnectAttempts := maxReconnectAttempts b;
     isReconnecting := isReconnecting b |}.
Definition set_isReconnecting (v : bool) (b : broker) : broker :=
  {| client := client b; connected := connected b;
     connectionStatus := connectionStatus b;
     reconnectAttempts := reconnectAttempts b;
     maxReconnectAttempts := maxReconnectAttempts b;
     isReconnecting := v |}.

(** [Math.pow(x, n)] for a natural exponent. *)
Fixpoint Math_pow (x : Q) (n : nat) : Q :=
  match n with
  | O => 1%Q
  | S k => (x * Math_pow x k)%Q
  end.

(** [Math.min(1000 * Math.pow(1.5, n), 30000)].  Below the cap, that is
    for [n <= 8], the power and the product are representable exactly in
    double precision; from [n = 9] on the product is above the cap and the
    minimum is the cap.  The rational value is the value of the
    expression. *)
Definition backoff (n : nat) : Q :=
  Qmin (1000 * Math_pow (3 # 2) n)%Q 30000%Q.

(** [updateStatus(status, error = null)]. *)
Definition updateStatus (e : env) (status : jsstr) (error : option jsstr)
  : Act unit :=
  modify (set_connectionStatus status);;
  b ← get;
  tell (ANotifyStatus {| sd_status := status;
                         sd_connected := connected b;
                         sd_reconnectAttempts := reconnectAttempts b;
                         sd_error := error;
                         sd_timestamp := now e |}).

(** The object [{ clientId, status, timestamp }]. *)
Definition status_message (e : env) (status : jsstr) : json :=
  JObj [(js "clientId", JStr (clientId e));
        (js "status", JStr status);
        (js "timestamp", JNum (inject_Z (now e)))].

(** [publishStatus(status)] up to the call of [client.publish]; the
    callers do not wait for its result. *)
Definition publishStatus (e : env) (status : jsstr) : Act unit :=
  b ← get;
  if negb (connected b) || negb (bool_decide (is_Some (client b)))
  then mret tt
  else tell (APublish MQTT_TOPICS.status (status_message e status) 1).

(** [subscribeToDefaultTopics()]. *)
Definition subscribeToDefaultTopics : Act unit :=
  b ← get;
  match client b with
  | Some c =>
      if negb (client_connected c) then mret tt
      else
        tell (ASubscribe MQTT_TOPICS.updateStatus 1);;
        tell (ASubscribe MQTT_TOPICS.resetStatus 1);;
        tell (ASubscribe MQTT_TOPICS.status 1)
  | None => mret tt
  end.

(** [disconnect()]. *)
Definition disconnect (e : env) : Act unit :=
  b ← get;
  match client b with
  | Some _ =>
      publishStatus e (js "offline");;
      tell AEnd;;
      modify (set_client None);;
      modify (set_connected false);;
      updateStatus e (js "disconnected") None
  | None => mret tt
  end.

(** [connect()] up to the promise it returns.  [failure] is the message
    of the exception that [mqtt.connect] throws, if it throws.  The value
    is [false] when [connect] rethrows from its [catch] block. *)
Definition connect (e : env) (failure : option jsstr) : Act bool :=
  updateStatus e (js "connecting") None;;
  match failure with
  | Some msg => updateStatus e (js "error") (Some msg);; mret false
  | None =>
      b ← get;
      let period := backoff (reconnectAttempts b) in
      tell (AConnect MQTT_BROKERS.command_url period MQTT_TOPICS.status);;
      modify (set_client (Some {| client_connected := false;
                                  client_reconnectPeriod := period |}));;
      mret true
  end.

(** The handlers that [connect] and [setupEventHandlers] register. *)
Definition on_connect (e : env) : Act unit :=
  modify (set_connected true);;
  modify (set_reconnectAttempts 0);;
  modify (set_isReconnecting false);;
  updateStatus e (js "connected") None;;
  publishStatus e (js "online");;
  subscribeToDefaultTopics.

Definition on_disconnect (e : env) : Act unit :=
  modify (set_connected false);;
  updateStatus e (js "disconnected") None.

Definition on_reconnect (e : env) : Act unit :=
  b0 ← get;
  modify (set_reconnectAttempts (S (reconnectAttempts b0)));;
  modify (set_isReconnecting true);;
  b ← get;
  let backoffDelay := backoff (reconnectAttempts b - 1)%nat in
  tell (ALogReconnect (reconnectAttempts b) (maxReconnectAttempts b)
          backoffDelay);;
  if (maxReconnectAttempts b <=? reconnectAttempts b)%nat then
    disconnect e;;
    updateStatus e (js "error") (Some (js "Max reconnection attempts reached"))
  else updateStatus e (js "reconnecting") None.

Definition on_error (e : env) (message : jsstr) : Act unit :=
  updateStatus e (js "error") (Some message).

(** [data] is the parsed message, [None] when [JSON.parse] throws. *)
Definition on_message (topic : jsstr) (data : option json) : Act unit :=
  match data with
  | Some d => tell (ANotifyMessage topic d)
  | None => mret tt
  end.

Definition on_close (e : env) : Act unit :=
  modify (set_connected false);;
  updateStatus e (js "disconnected") None.

(** The library keeps the [connected] flag of its client: set before
    ["connect"] is emitted, cleared before ["close"]. *)
Definition lib_set_connected (v : bool) : Act unit :=
  b ← get;
  match client b with
  | Some c =>
      modify (set_client (Some {| client_connected := v;
                                  client_reconnectPeriod :=
                                    client_reconnectPeriod c |}))
  | None => mret tt
  end.

(** Everything that can happen to a broker: the calls of its methods and
    the events of its clients.  [connect()] replaces [this.client] and
    leaves the handlers of the earlier clients in place, so that their
    events still reach the broker; [latest] tells whether ["connect"] or
    ["close"] comes from [this.client], whose [connected] flag the
    library has then changed, or from an earlier client.  On ["connect"]
    and ["error"] both the handler of [setupEventHandlers] and the one of
    the promise of [connect] run. *)
Inductive op :=
| CallConnect (failure : option jsstr)
| CallDisconnect
| CallPublishStatus (status : jsstr)
| CallSubscribeToDefaultTopics
| EvConnect (latest : bool)
| EvDisconnect
| EvReconnect
| EvError (message : jsstr)
| EvMessage (topic : jsstr) (data : option json)
| EvClose (latest : bool).

Definition step (e : env) (o : op) : Act unit :=
  match o with
  | CallConnect failure => connect e failure;; mret tt
  | CallDisconnect => disconnect e
  | CallPublishStatus s => publishStatus e s
  | CallSubscribeToDefaultTopics => subscribeToDefaultTopics
  | EvConnect latest =>
      (if latest then lib_set_connected true else mret tt);;
      on_connect e;; on_connect e
  | EvDisconnect => on_disconnect e
  | EvReconnect => on_reconnect e
  | EvError m => on_error e m;; on_error e m
  | EvMessage t d => on_message t d
  | EvClose latest =>
      (if latest then lib_set_connected false else mret tt);; on_close e
  end.

(** A history: operations with the surroundings of each. *)
Fixpoint run (ops : list (env * op)) : Act unit :=
  match ops with
  | [] => mret tt
  | (e, o) :: rest => step e o;; run rest
  end.

(** [publish(topic, message, qos = 1)]: the promise rejects when there is
    no client or when the library reports [ack = Some error]. *)
Definition publish (topic : jsstr) (message : json) (ack : option jsstr)
  : Act (option jsstr) :=
  b ← get;
  match client b with
  | None => mret (Some (js "MQTT client not available"))
  | Some _ => tell (APublish topic message 1);; mret ack
  end.

End MqttBroker.

(** ** Results of asynchronous methods *)

Inductive outcome (A : Type) : Type :=
| Resolved (a : A)
| Rejected (message : JS.jsstr).
Arguments Resolved {A} a.
Arguments Rejected {A} message.

(** ** [DeviceControlService] (services/device-control.js) *)

Module DeviceControlService.
Import JS MqttConfig.

Record service := {
  updateInProgress : bool;
  currentUpdateVersion : value;
  updateStartTime : option Z
}.

(** [constructor(mqttBroker)]. *)
Definition new_service : service :=
  {| updateInProgress := false; currentUpdateVersion := None;
     updateStartTime := None |}.

(** A property whose value is [undefined] does not reach the payload:
    [JSON.stringify] leaves it out. *)
Definition prop (k : jsstr) (v : value) : list (jsstr * json) :=
  match v with Some j => [(k, j)] | None => [] end.

Definition update_message (e : env) (version : value) : json :=
  JObj ([(js "action", JStr (js "force_update"))]
        ++ prop (js "version") version
        ++ [(js "timestamp", JNum (inject_Z (now e)));
            (js "source", JStr (js "admin_web"))]).

Definition reset_message (e : env) (reason : json) : json :=
  JObj [(js "action", JStr (js "reset_app"));
        (js "reason", reason);
        (js "timestamp", JNum (inject_Z (now e)));
        (js "source", JStr (js "admin_web"))].

(** [this.mqtt.publish(topic, message)] on the broker the service holds;
    publishing does not change the broker. *)
Definition mqtt_publish (b : MqttBroker.broker) (topic : jsstr)
    (message : json) (ack : option jsstr)
  : option jsstr * list MqttBroker.action :=
  let '(r, _, t) := MqttBroker.publish topic message ack b in (r, t).

(** [triggerUpdate(version)]; [mqtt] is [this.mqtt] ([None] for a missing
    broker) and [ack] the answer of the library to the publication. *)
Definition triggerUpdate (e : env) (mqtt : option MqttBroker.broker)
    (ack : option jsstr) (version : value) (s : service)
  : outcome bool * service * list MqttBroker.action :=
  match mqtt with
  | None => (Rejected (js "MQTT not connected"), s, [])
  | Some b =>
      if negb (MqttBroker.connected b)
      then (Rejected (js "MQTT not connected"), s, [])
      else if updateInProgress s
      then (Rejected (js "Update already in progress"), s, [])
      else
        let s1 := {| updateInProgress := true;
                     currentUpdateVersion := version;
                     updateStartTime := Some (now e) |} in
        match mqtt_publish b MQTT_TOPICS.commands (update_message e version)
                ack with
        | (None, t) => (Resolved true, s1, t)
        | (Some err, t) =>
            (Rejected err,
             {| updateInProgress := false;
                currentUpdateVersion := currentUpdateVersion s1;
                updateStartTime := updateStartTime s1 |}, t)
        end
  end.

(** [triggerReset(reason = "manual")]. *)
Definition triggerReset (e : env) (mqtt : option MqttBroker.broker)
    (ack : option jsstr) (reason : value) (s : service)
  : outcome bool * service * list MqttBroker.action :=
  match mqtt with
  | None => (Rejected (js "MQTT not connected"), s, [])
  | Some b =>
      if negb (MqttBroker.connected b)
      then (Rejected (js "MQTT not connected"), s, [])
      else
        let reason := match reason with
                      | Some r => r
                      | None => JStr (js "manual")
                      end in
        match mqtt_publish b MQTT_TOPICS.commands (reset_message e reason)
                ack with
        | (None, t) => (Resolved true, s, t)
        | (Some err, t) => (Rejected err, s, t)
        end
  end.

(** [this.updateInProgress = false; this.currentUpdateVersion = null]. *)
Definition cleared (s : service) : service :=
  {| updateInProgress := false; currentUpdateVersion := None;
     updateStartTime := updateStartTime s |}.

(** [handleUpdateStatus(status)]; [None] is the [TypeError] of reading
    [status.status] when [status] is [null].  The [switch] compares with
    [===]: only a string selects a case. *)
Definition handleUpdateStatus (status : json) (s : service)
  : option service :=
  if negb (updateInProgress s) then Some s
  else
    match get_member status (js "status") with
    | None => None
    | Some (Some (JStr t)) =>
        if jsstr_eqb t (js "downloading") then Some s
        else if jsstr_eqb t (js "update_success") then Some s
        else if jsstr_eqb t (js "error") then Some (cleared s)
        else Some s
    | Some _ => Some s
    end.

(** [handleResetStatus(status)]. *)
Definition handleResetStatus (status : json) (s : service)
  : option service :=
  match get_member status (js "status") with
  | None => None
  | Some (Some (JStr t)) =>
      if jsstr_eqb t (js "reset_success") then Some (cleared s) else Some s
  | Some _ => Some s
  end.

(** [cancel()]. *)
Definition cancel (s : service) : service := cleared s.

(** The object [getUpdateStatus()] returns. *)
Record update_status := {
  inProgress : bool;
  version : value;
  startTime : option Z;
  elapsed : Z
}.

(** [getUpdateStatus()]; a start time of [0] is falsy like [null]. *)
Definition getUpdateStatus (e : env) (s : service) : update_status :=
  {| inProgress := updateInProgress s;
     version := currentUpdateVersion s;
     startTime := updateStartTime s;
     elapsed := match updateStartTime s with
                | Some t => if (t =? 0)%Z then 0%Z else (now e - t)%Z
                | None => 0%Z
                end |}.

(** What happens to a service: the calls of the admin page and the
    status messages of the device. *)
Inductive call :=
| Update (e : env) (mqtt : option MqttBroker.broker) (ack : option jsstr)
    (version : value)
| Reset (e : env) (mqtt : option MqttBroker.broker) (ack : option jsstr)
    (reason : value)
| UpdateStatus (status : json)
| ResetStatus (status : json)
| Cancel.

(** A call on a service: the service afterwards (the one before when a
    handler throws) and what was published. *)
Definition apply_call (c : call) (s : service)
  : service * list MqttBroker.action :=
  match c with
  | Update e mqtt ack version =>
      let '(_, s', t) := triggerUpdate e mqtt ack version s in (s', t)
  | Reset e mqtt ack reason =>
      let '(_, s', t) := triggerReset e mqtt ack reason s in (s', t)
  | UpdateStatus status => (default s (handleUpdateStatus status s), [])
  | ResetStatus status => (default s (handleResetStatus status s), [])
  | Cancel => (cancel s, [])
  end.

Fixpoint apply_calls (cs : list call) (s : service)
  : service * list MqttBroker.action :=
  match cs with
  | [] => (s, [])
  | c :: r =>
      let '(s1, t1) := apply_call c s in
      let '(s2, t2) := apply_calls r s1 in
      (s2, t1 ++ t2)
  end.

End DeviceControlService.

(** ** [UpdateService] (update-service.js) *)

Module UpdateService.
Import JS.

Record service := {
  currentUpdateVersion : value;
  updateInProgress : bool;
  updateStartTime : option Z
}.

(** [constructor()]. *)
Definition new_service : service :=
  {| currentUpdateVersion := None; updateInProgress := false;
     updateStartTime := None |}.

(** What [triggerUpdate] sends out: the events given to [_emit] and the
    command published through [window.MqttClient]. *)
Inductive emitted :=
| EmitError (message code : jsstr)
| EmitStatusChange (status : jsstr) (version : value) (message : jsstr)
| Publish (topic : jsstr) (message : json).

(** The surroundings of a call: [Date.now()], [window.MqttClient] ([None]
    when missing, else its [connected] flag) and, when the publication
    fails, the [message] of the error ([[]] when it has none). *)
Record surroundings := {
  now : Z;
  MqttClient : option bool;
  publish_failure : option jsstr
}.

Definition set_in_progress (v : bool) (s : service) : service :=
  {| currentUpdateVersion := currentUpdateVersion s;
     updateInProgress := v;
     updateStartTime := updateStartTime s |}.

(** [!version || version.trim() === ""]; [None] when [version.trim] is
    not a function, which throws a [TypeError]. *)
Definition invalid_version (version : value) : option bool :=
  if negb (truthy version) then Some true
  else match version with
       | Some (JStr v) => Some (jsstr_eqb (trim v) [])
       | _ => None
       end.

(** The [catch] block of [triggerUpdate]. *)
Definition trigger_failed (error_message : jsstr) (s : service)
    (sent : list emitted) : outcome bool * service * list emitted :=
  (Resolved false, set_in_progress false s,
   sent ++ [EmitError (if jsstr_eqb error_message []
                       then js "Không thể bắt đầu cập nhật"
                       else error_message)
              (js "TRIGGER_FAILED")]).

(** [triggerUpdate(version)]. *)
Definition triggerUpdate (w : surroundings) (version : value) (s : service)
  : outcome bool * service * list emitted :=
  match invalid_version version with
  | None => (Rejected (js "version.trim is not a function"), s, [])
  | Some true =>
      (Resolved false, s,
       [EmitError (js "Vui lòng nhập phiên bản muốn cập nhật")
          (js "INVALID_VERSION")])
  | Some false =>
      if updateInProgress s then
        (Resolved false, s,
         [EmitError (js "Đang cập nhật, vui lòng chờ...")
            (js "UPDATE_IN_PROGRESS")])
      else
        let s1 := {| currentUpdateVersion := version;
                     updateInProgress := true;
                     updateStartTime := Some (now w) |} in
        let started := [EmitStatusChange (js "initializing") version
                          (js "Bắt đầu cập nhật...")] in
        match MqttClient w with
        | Some true =>
            let command :=
              JObj ([(js "action", JStr (js "force_update"))]
                    ++ DeviceControlService.prop (js "version") version
                    ++ [(js "timestamp", JNum (inject_Z (now w)));
                        (js "source", JStr (js "admin_web"))]) in
            let sent := started ++ [Publish (js "its/billboard/commands")
                                      command] in
            match publish_failure w with
            | Some msg => trigger_failed msg s1 sent
            | None =>
                (Resolved true, s1,
                 sent ++ [EmitStatusChange (js "downloading") version
                            (js "Đang tải bản cập nhật...")])
            end
        | _ =>
            trigger_failed
              (js "MQTT not connected - Cannot send update command")
              s1 started
        end
  end.

Import Numbers.

(** The events that the handlers give to [_emit], beside those of
    [triggerUpdate]: ["error"] with a message taken from the device,
    ["progressChange"] and ["success"]. *)
Inductive notice :=
| Sent (e : emitted)
| DeviceError (message : json) (code : jsstr)
| ProgressChange (percent : option Q) (bytesPerSecond transferred total : value)
| Success (version : value) (duration : jsstr).

(** [Math.round(status.percent || 0)]. *)
Definition percent `{Numbers} (status : json) : option Q :=
  let p := lookup_member status (js "percent") in
  Math_round (if truthy p then to_number p else Some 0%Q).

(** [handleUpdateStatus(status)]: the service afterwards and the events
    emitted; [None] is the [TypeError] of reading [status.status] of
    [null].  The object of the second ["progressChange"] has the property
    [percent] only. *)
Definition handleUpdateStatus `{Numbers} (status : json) (s : service)
  : option (service * list notice) :=
  if negb (updateInProgress s) then Some (s, [])
  else
    match get_member status (js "status") with
    | None => None
    | Some (Some (JStr t)) =>
        if jsstr_eqb t (js "downloading") then
          Some (s,
                [ProgressChange (percent status)
                   (lookup_member status (js "bytesPerSecond"))
                   (lookup_member status (js "transferred"))
                   (lookup_member status (js "total"));
                 Sent (EmitStatusChange (js "downloading")
                         (currentUpdateVersion s)
                         (js "Đang tải: " ++ Number_text (percent status)
                            ++ js "%"))])
        else if jsstr_eqb t (js "update_success") then
          Some (s,
                [Sent (EmitStatusChange (js "verifying")
                         (currentUpdateVersion s)
                         (js "Cập nhật thành công, đang khởi động lại..."));
                 ProgressChange (Some 100%Q) None None None])
        else if jsstr_eqb t (js "error") then
          Some (set_in_progress false s,
                [DeviceError
                   (let e := lookup_member status (js "error") in
                    if truthy e then default JNull e
                    else JStr (js "Lỗi trong quá trình cập nhật"))
                   (js "UPDATE_ERROR")])
        else if jsstr_eqb t (js "no_updates") then
          Some (set_in_progress false s,
                [DeviceError (JStr (js "Phiên bản này hiện không sẵn có"))
                   (js "NO_UPDATE")])
        else Some (s, [])
    | Some _ => Some (s, [])
    end.

(** [this.updateInProgress = false; this.currentUpdateVersion = null]. *)
Definition cleared (s : service) : service :=
  {| currentUpdateVersion := None; updateInProgress := false;
     updateStartTime := updateStartTime s |}.

(** [((Date.now() - this.updateStartTime) / 1000).toFixed(1)]; a start
    time of [null] counts as [0]. *)
Definition duration `{Numbers} (now : Z) (s : service) : jsstr :=
  toFixed (Some (Qmake (now - default 0 (updateStartTime s))%Z 1000)) 1.

(** [this.currentUpdateVersion] in a template literal; the field holds
    [null] ([None]) or the version given to [triggerUpdate]. *)
Definition version_text `{Platform} (s : service) : jsstr :=
  match currentUpdateVersion s with
  | None => js "null"
  | v => to_string v
  end.

(** [handleResetStatus(status)] at time [now]. *)
Definition handleResetStatus `{Platform} `{Numbers} (now : Z) (status : json)
    (s : service) : option (service * list notice) :=
  if negb (updateInProgress s) then Some (s, [])
  else
    match get_member status (js "status") with
    | None => None
    | Some (Some (JStr t)) =>
        if jsstr_eqb t (js "reset_success") then
          Some (cleared s,
                [Sent (EmitStatusChange (js "completed")
                         (currentUpdateVersion s)
                         (js "Cập nhật hoàn thành! (v"
                            ++ version_text s
                            ++ js ") - Thời gian: " ++ duration now s
                            ++ js "s"));
                 Success (currentUpdateVersion s) (duration now s)])
        else Some (s, [])
    | Some _ => Some (s, [])
    end.

(** [cancel()]. *)
Definition cancel (s : service) : service := cleared s.

(** The object [getStatus()] returns. *)
Record status_report := {
  inProgress : bool;
  currentVersion : value;
  startTime : option Z
}.

Definition getStatus (s : service) : status_report :=
  {| inProgress := updateInProgress s;
     currentVersion := currentUpdateVersion s;
     startTime := updateStartTime s |}.

(** What happens to the service: the calls of the page and the status
    messages of the device. *)
Inductive call :=
| Trigger (w : surroundings) (version : value)
| UpdateStatus (status : json)
| ResetStatus (now : Z) (status : json)
| Cancel.

(** A call on a service: the service afterwards (the one before when the
    call throws) and the events emitted. *)
Definition apply_call `{Platform} `{Numbers} (c : call) (s : service)
  : service * list notice :=
  match c with
  | Trigger w version =>
      let '(_, s', t) := triggerUpdate w version s in (s', List.map Sent t)
  | UpdateStatus status => default (s, []) (handleUpdateStatus status s)
  | ResetStatus now status => default (s, []) (handleResetStatus now status s)
  | Cancel => (cancel s, [])
  end.

Fixpoint apply_calls `{Platform} `{Numbers} (cs : list call) (s : service)
  : service * list notice :=
  match cs with
  | [] => (s, [])
  | c :: r =>
      let '(s1, t1) := apply_call c s in
      let '(s2, t2) := apply_calls r s1 in
      (s2, t1 ++ t2)
  end.

End UpdateService.

(** ** [GitHubService]: the manifest (services/github.js) *)

Module GitHubService.
Import JS Base64.

(** [Date.now()] and [new Date().toISOString()] at the time of a call. *)
Record clock := { now : Z; iso : jsstr }.

(** The text of an integer in a template literal. *)
Definition number_text (z : Z) : jsstr :=
  js (NilZero.string_of_int (Z.to_int z)).

(** [`1.0.${Date.now()}`]. *)
Definition fresh_version (c : clock) : json :=
  JStr (js "1.0." ++ number_text (now c)).

Definition default_settings : json :=
  JObj [(js "logoMode", JStr (js "loop"));
        (js "logoLoopDuration", JNum 30%Q);
        (js "schedules", JArr [])].

Definition default_metadata : list (jsstr * json) :=
  [(js "author", JStr (js "Admin Web Interface"));
   (js "description", JStr (js "Billboard logo manifest"));
   (js "apiVersion", JStr (js "v1"))].

(** [createDefaultManifest()]. *)
Definition createDefaultManifest (c : clock) : json :=
  JObj [(js "version", fresh_version c);
        (js "lastUpdated", JStr (iso c));
        (js "logos", JArr []);
        (js "settings", default_settings);
        (js "metadata", JObj default_metadata)].

(** [{ ...v }]: the own properties of an object, the indexed elements of
    an array or of a string, nothing for the other values. *)
Definition spread (v : json) : list (jsstr * json) :=
  match v with
  | JObj props => props
  | JArr items =>
      imap (fun i x => (number_text (Z.of_nat i), x)) items
  | JStr s =>
      imap (fun i c => (number_text (Z.of_nat i), JStr [c])) s
  | _ => []
  end.

(** [if (!obj[k]) obj[k] = v]. *)
Definition fill_in (k : jsstr) (v : json) (props : list (jsstr * json))
  : list (jsstr * json) :=
  if negb (truthy (lookup_prop k props)) then set_prop k v props else props.

(** [validateAndFixManifest(manifest)]. *)
Definition validateAndFixManifest (c : clock) (manifest : json) : json :=
  let fixedManifest := spread manifest in
  let fixedManifest := fill_in (js "version") (fresh_version c) fixedManifest in
  let fixedManifest := fill_in (js "lastUpdated") (JStr (iso c)) fixedManifest in
  let fixedManifest :=
    if negb (truthy (lookup_prop (js "logos") fixedManifest))
       || negb (isArray (lookup_prop (js "logos") fixedManifest))
    then set_prop (js "logos") (JArr []) fixedManifest
    else fixedManifest in
  let fixedManifest := fill_in (js "settings") default_settings fixedManifest in
  let fixedManifest :=
    fill_in (js "metadata") (JObj default_metadata) fixedManifest in
  JObj fixedManifest.

(** [getCurrentManifest()], given what [getFileInfo("manifest.json")]
    resolved with ([null] when the file is missing or the request
    failed).  [atob] and [JSON.parse] throw into the [catch] block. *)
Definition getCurrentManifest `{Platform} (c : clock) (fileInfo : json)
  : json :=
  if truthy (Some fileInfo) then
    match atob (to_string (lookup_member fileInfo (js "content"))) with
    | None => createDefaultManifest c
    | Some content =>
        match JSON_parse content with
        | None => createDefaultManifest c
        | Some manifest => validateAndFixManifest c manifest
        end
    end
  else createDefaultManifest c.

(** [target.k = v] in strict mode: [None] is the [TypeError] of
    assigning to a property of [null], [undefined] or a primitive.  A
    named property of an array does not show in its JSON text; the array
    is kept as it is. *)
Definition assign_member (target : value) (k : jsstr) (v : json)
  : option value :=
  match target with
  | Some (JObj props) => Some (Some (JObj (set_prop k v props)))
  | Some (JArr items) => Some (Some (JArr items))
  | _ => None
  end.

(** *** Adding a logo

    [addLogoToManifest] takes whatever document the caller holds.  The
    values are those of [JSON.parse] and of object literals: trees, in
    which no object stands at two places.  [None] is a [TypeError]. *)

(** [a === b].  An object or an array is equal to itself only, and the
    operands compared here stand at two places of such trees. *)
Definition strict_equal (a b : value) : bool :=
  match a, b with
  | None, None => true
  | Some JNull, Some JNull => true
  | Some (JBool x), Some (JBool y) => Bool.eqb x y
  | Some (JNum x), Some (JNum y) => Qeq_bool x y
  | Some (JStr s), Some (JStr t) => jsstr_eqb s t
  | _, _ => false
  end.

(** The callback [(logo) => logo.id !== logoMetadata.id]. *)
Definition other_id (logoMetadata logo : json) : option bool :=
  match get_member logo (js "id"), get_member logoMetadata (js "id") with
  | Some a, Some b => Some (negb (strict_equal a b))
  | _, _ => None
  end.

(** [l.filter(f)] for a callback that may throw; it is called once for
    each element, in order. *)
Fixpoint Array_filter (f : json -> option bool) (l : list json)
  : option (list json) :=
  match l with
  | [] => Some []
  | x :: r =>
      match f x with
      | None => None
      | Some keep =>
          match Array_filter f r with
          | None => None
          | Some kept => Some (if keep then x :: kept else kept)
          end
      end
  end.

Definition is_null (v : json) : bool :=
  match v with JNull => true | _ => false end.

(** [a.priority] when it is a number. *)
Definition priority (a : json) : option Q :=
  match lookup_member a (js "priority") with
  | Some (JNum q) => Some q
  | _ => None
  end.

(** An entry whose [priority] is a number. *)
Definition numeric (a : json) : bool :=
  match priority a with Some _ => true | None => false end.

(** The comparator [(a, b) => a.priority - b.priority] on two numbers:
    the sign of the difference. *)
Definition by_priority (a b : json) : comparison :=
  match priority a, priority b with
  | Some x, Some y => (x ?= y)%Q
  | _, _ => Eq
  end.

(** [x] goes in front of the first element that does not come before
    it, so that equal priorities keep their order. *)
Fixpoint insert_sorted (x : json) (l : list json) : list json :=
  match l with
  | [] => [x]
  | y :: r =>
      match by_priority x y with
      | Gt => y :: insert_sorted x r
      | _ => x :: l
      end
  end.

(** When the comparator is not consistent, [Array.prototype.sort] leaves
    the order to the engine: [sort_order l] is the array after the call,
    which holds the elements it held before. *)
Class Engine := {
  sort_order : list json -> list json;
  sort_order_perm : forall l, Permutation (sort_order l) l
}.

(** [l.sort((a, b) => a.priority - b.priority)].  An array of one element
    is left alone.  From two elements on the comparator reads [priority]
    of each, which throws on [null].  When every priority is a number the
    comparator is consistent and the sort, which is stable, gives the
    order of an insertion sort.  Otherwise the subtraction converts the
    priorities ([undefined] to [NaN], [null] to [0], a string to the
    number it spells) and the order is the engine's. *)
Definition sort `{Engine} (l : list json) : option (list json) :=
  match l with
  | [] | [_] => Some l
  | _ :: _ :: _ =>
      if existsb is_null l then None
      else if forallb numeric l then Some (foldr insert_sorted [] l)
      else Some (sort_order l)
  end.

(** [addLogoToManifest(manifest, logoMetadata)].  [logos.filter] is not a
    function when [logos] is truthy and no array; the assignment to
    [metadata.lastModifiedBy] throws when [metadata] is a truthy
    primitive (the body of a class is strict code).  The copy
    [{ ...manifest }] is shallow: the assignment also reaches the
    [metadata] object of the manifest passed in, which the value returned
    does not show. *)
Definition addLogoToManifest `{Engine} (c : clock)
    (manifest logoMetadata : json) : option json :=
  let updatedManifest := spread manifest in
  let updatedManifest := fill_in (js "logos") (JArr []) updatedManifest in
  match lookup_prop (js "logos") updatedManifest with
  | Some (JArr logos) =>
      match Array_filter (other_id logoMetadata) logos with
      | None => None
      | Some kept =>
          match sort (kept ++ [logoMetadata]) with
          | None => None
          | Some sorted =>
              let updatedManifest :=
                set_prop (js "logos") (JArr sorted) updatedManifest in
              let updatedManifest :=
                set_prop (js "version") (fresh_version c) updatedManifest in
              let updatedManifest :=
                set_prop (js "lastUpdated") (JStr (iso c)) updatedManifest in
              let updatedManifest :=
                fill_in (js "metadata") (JObj default_metadata)
                  updatedManifest in
              match assign_member
                      (lookup_prop (js "metadata") updatedManifest)
                      (js "lastModifiedBy")
                      (JStr (js "Admin Web Interface")) with
              | Some (Some metadata) =>
                  Some (JObj (set_prop (js "metadata") metadata
                                updatedManifest))
              | _ => None
              end
          end
      end
  | _ => None
  end.

(** [String.prototype.toLowerCase], which follows the Unicode case
    mappings, is taken as given. *)
Class Casing := { toLowerCase : jsstr -> jsstr }.

Definition dot : N := 46.
Definition slash : N := 47.
Definition dash : N := 45.

(** The rest of a match of [/\.[^/.]+$/] after its dot: one character or
    more, none of them a slash or a dot, up to the end of the string. *)
Definition extension_tail (r : jsstr) : bool :=
  negb (bool_decide (r = []))
  && forallb (fun c => negb ((c =? slash) || (c =? dot))) r.

(** [s.replace(/\.[^/.]+$/, "")]: the text from the first dot on that is
    followed by an extension tail is removed. *)
Fixpoint strip_extension (s : jsstr) : jsstr :=
  match s with
  | [] => []
  | c :: r =>
      if (c =? dot) && extension_tail r then [] else c :: strip_extension r
  end.

Definition is_digit (c : N) : bool := (48 <=? c) && (c <=? 57).
Definition is_lower (c : N) : bool := (97 <=? c) && (c <=? 122).
Definition is_upper (c : N) : bool := (65 <=? c) && (c <=? 90).

(** [s.replace(/[^a-z0-9]/g, "-")] and [s.replace(/[^a-zA-Z0-9]/g, "-")],
    one code unit at a time. *)
Definition dash_unless (keep : N -> bool) (s : jsstr) : jsstr :=
  List.map (fun c => if keep c then c else dash) s.

Definition lower_alnum (c : N) : bool := is_lower c || is_digit c.
Definition alnum (c : N) : bool := is_lower c || is_upper c || is_digit c.

Definition starts_with_dash (s : jsstr) : bool :=
  match s with c :: _ => c =? dash | [] => false end.

(** [s.replace(/-+/g, "-")]: a dash followed by a dash is dropped, which
    leaves one dash for each run. *)
Fixpoint squeeze (s : jsstr) : jsstr :=
  match s with
  | [] => []
  | c :: r =>
      if (c =? dash) && starts_with_dash r then squeeze r else c :: squeeze r
  end.

Definition drop_leading_dash (s : jsstr) : jsstr :=
  match s with
  | c :: r => if c =? dash then r else s
  | [] => []
  end.

Fixpoint drop_trailing_dash (s : jsstr) : jsstr :=
  match s with
  | [] => []
  | [c] => if c =? dash then [] else [c]
  | c :: r => c :: drop_trailing_dash r
  end.

(** [s.replace(/^-|-$/g, "")]: a dash at the start is removed, then a
    dash at the end of what follows it. *)
Definition trim_dashes (s : jsstr) : jsstr :=
  drop_trailing_dash (drop_leading_dash s).

(** [generateLogoId(filename)]. *)
Definition generateLogoId `{Casing} (filename : jsstr) : jsstr :=
  trim_dashes
    (squeeze
       (dash_unless lower_alnum (strip_extension (toLowerCase filename)))).

(** [s.split(sep)] for a separator of one code unit. *)
Fixpoint split (sep : N) (s : jsstr) : list jsstr :=
  match s with
  | [] => [[]]
  | c :: r =>
      if c =? sep then [] :: split sep r
      else match split sep r with
           | h :: t => (c :: h) :: t
           | [] => [[c]]
           end
  end.

(** [parts.pop()] of an array that is not empty. *)
Definition pop (parts : list jsstr) : jsstr := List.last parts [].

(** [generateUniqueFilename(originalName)] at the time of the clock. *)
Definition generateUniqueFilename `{Casing} (c : clock)
    (originalName : jsstr) : jsstr :=
  let ext := pop (split dot originalName) in
  let nameWithoutExt := strip_extension originalName in
  let cleanName := toLowerCase (dash_unless alnum nameWithoutExt) in
  cleanName ++ js "-" ++ number_text (now c) ++ js "." ++ ext.

(** *** Batches of uploads *)

(** An entry of the [errors] array of a batch. *)
Record upload_error := { file : jsstr; error : jsstr }.

(** A call [onProgress(current, total, message)]. *)
Inductive progress := Progress (current total : nat) (message : jsstr).

(** The files of a batch: the [name] of each and what
    [uploadLogo(file)] does with it. *)
Definition batch := list (jsstr * outcome json).

(** The loop of [uploadLogoBatch] from index [i] on, with the arrays
    [results] and [errors] as they stand; the progress messages are
    those of a callback that returns. *)
Fixpoint batch_loop (i total : nat) (files : batch) (results : list json)
    (errors : list upload_error)
  : list json * list upload_error * list progress :=
  match files with
  | [] => (results, errors, [])
  | (name, r) :: rest =>
      let '(results, errors) :=
        match r with
        | Resolved l => (results ++ [l], errors)
        | Rejected m => (results, errors ++ [{| file := name; error := m |}])
        end in
      let '(rs, es, ps) := batch_loop (S i) total rest results errors in
      (rs, es,
       Progress i total (js "Uploading " ++ name ++ js "...") :: ps)
  end.

(** [uploadLogoBatch(files, onProgress = null)]; [onProgress] tells
    whether a callback is given. *)
Definition uploadLogoBatch (files : batch) (onProgress : bool)
  : list json * list upload_error * list progress :=
  let '(rs, es, ps) := batch_loop 0 (length files) files [] [] in
  (rs, es,
   if onProgress
   then ps ++ [Progress (length files) (length files)
                 (js "Upload batch completed")]
   else []).





End GitHubService.

(** ** [GitHubUploadService.makeApiRequest] (github-upload-service.js) *)

Module GitHubUploadService.
Import JS.

Record request_options := {
  method : option jsstr;
  headers : option (list (jsstr * jsstr));
  body : option jsstr
}.

(** The default [options = {}]. *)
Definition no_options : request_options :=
  {| method := None; headers := None; body := None |}.

(** [defaultOptions]: the spread of [options] comes last, so headers
    given in [options] replace the merged ones. *)
Definition defaultOptions (token : jsstr) (options : request_options)
  : request_options :=
  {| method := method options;
     headers :=
       Some (match headers options with
             | Some h => h
             | None =>
                 [(js "Authorization", js "token " ++ token);
                  (js "Accept", js "application/vnd.github.v3+json");
                  (js "Content-Type", js "application/json")]
             end);
     body := body options |}.

(** A response: [json_body] is what [response.json()] resolves with,
    [None] when it rejects. *)
Record response := {
  status : Z;
  statusText : jsstr;
  json_body : option json
}.

(** [response.ok]. *)
Definition ok (r : response) : bool :=
  ((200 <=? status r) && (status r <=? 299))%Z.

(** What [fetch] does: it rejects with an error, or resolves. *)
Inductive fetched :=
| NetworkError (message : jsstr)
| Response (r : response).

Inductive effect :=
| Fetch (url : jsstr) (options : request_options)
| Delay (ms : Z).

(** [errorData.message?.includes("rate limit")] with
    [errorData = await response.json().catch(() => ({}))]; [None] when the
    expression throws a [TypeError]. *)
Definition mentions_rate_limit (r : response) : option bool :=
  let errorData := match json_body r with Some j => j | None => JObj [] end in
  match get_member errorData (js "message") with
  | None => None
  | Some None | Some (Some JNull) => Some false
  | Some (Some (JStr m)) => Some (includes m (js "rate limit"))
  | Some (Some (JArr items)) =>
      Some (existsb (fun x => match x with
                              | JStr m => jsstr_eqb m (js "rate limit")
                              | _ => false
                              end) items)
  | Some (Some _) => None
  end.

(** The message of a [TypeError] is the engine's own; no engine words it
    with ["Authentication failed"], the one text the [catch] block looks
    for. *)
Definition TypeError_message : jsstr := js "TypeError".

(** How the [try] block of one attempt ends. *)
Inductive try_end :=
| TryReturn (r : response)
| TryContinue
| TryThrow (message : jsstr)
| TryDone.

Definition status_text (z : Z) : jsstr :=
  js (NilZero.string_of_int (Z.to_int z)).

Definition try_block (attempt retries : nat) (f : fetched)
  : try_end * list effect :=
  match f with
  | NetworkError m => (TryThrow m, [])
  | Response r =>
      if ok r then (TryReturn r, [])
      else if (status r =? 401)%Z
      then (TryThrow (js "Authentication failed - Invalid token"), [])
      else if (status r =? 403)%Z then
        match mentions_rate_limit r with
        | Some true => (TryContinue, [Delay (5000 * Z.of_nat attempt)])
        | Some false =>
            (TryThrow (js "Access denied - Check token permissions"), [])
        | None => (TryThrow (js "TypeError"), [])
        end
      else if (status r =? 404)%Z
      then (TryThrow (js "Repository or resource not found"), [])
      else if (attempt =? retries)%nat
      then (TryThrow (js "Request failed: " ++ status_text (status r)
                        ++ js " " ++ statusText r), [])
      else (TryDone, [Delay (2000 * Z.of_nat attempt)])
  end.

(** The [for] loop with [remaining] iterations to go; [attempt] runs from
    [1] to [retries].  [net k] is the answer to the fetch of attempt [k].
    Leaving the loop ends the function without a value:
    [Resolved None]. *)
Fixpoint attempts (net : nat -> fetched) (url : jsstr)
    (options : request_options) (retries remaining : nat)
  : outcome (option response) * list effect :=
  match remaining with
  | O => (Resolved None, [])
  | S k =>
      let attempt := (retries - k)%nat in
      let '(e, t) := try_block attempt retries (net attempt) in
      let t := Fetch url options :: t in
      match e with
      | TryReturn r => (Resolved (Some r), t)
      | TryContinue | TryDone =>
          let '(res, t') := attempts net url options retries k in
          (res, t ++ t')
      | TryThrow m =>
          if (attempt =? retries)%nat
             || includes m (js "Authentication failed")
          then (Rejected m, t)
          else
            let '(res, t') := attempts net url options retries k in
            (res, t ++ Delay (2000 * Z.of_nat attempt) :: t')
      end
  end.

(** [makeApiRequest(url, options = {}, retries = 3)]. *)
Definition makeApiRequest (token : jsstr) (net : nat -> fetched)
    (url : jsstr) (options : option request_options) (retries : option nat)
  : outcome (option response) * list effect :=
  let options := default no_options options in
  let retries := default 3%nat retries in
  attempts net url (defaultOptions token options) retries retries.

Definition fetch_count (t : list effect) : nat :=
  length (List.filter (fun e => match e with Fetch _ _ => true | _ => false end) t).

(** *** Authentication and the choice of the repository *)

(** The object that [testRepositoryAccess] resolves with. *)
Record access := {
  success : bool;
  access_status : option Z;
  access_error : value
}.

(** [testRepositoryAccess()], given the answer to its request.  Reading
    [errorData.message] of a [null] body throws into the [catch]
    block. *)
Definition testRepositoryAccess (f : fetched) : access :=
  match f with
  | NetworkError m =>
      {| success := false; access_status := None;
         access_error := Some (JStr m) |}
  | Response r =>
      if ok r
      then {| success := true; access_status := Some (status r);
              access_error := None |}
      else
        let errorData := default (JObj []) (json_body r) in
        match get_member errorData (js "message") with
        | None =>
            {| success := false; access_status := None;
               access_error := Some (JStr TypeError_message) |}
        | Some m =>
            {| success := false; access_status := Some (status r);
               access_error :=
                 Some (if truthy m then default JNull m
                       else JStr (statusText r)) |}
        end
  end.

(** [createRepository()], given the answer to its request; the result of
    [enableGitHubPages] is not looked at. *)
Definition createRepository (f : fetched) : bool :=
  match f with
  | NetworkError _ => false
  | Response r => ok r
  end.

(** The fields of the service that authentication touches, with
    [this.config.repository.owner] and [this.config.api.cdnEndpoint]. *)
Record session := {
  token : value;
  isAuthenticated : bool;
  authenticatedUser : value;
  owner : value;
  cdnEndpoint : value
}.

Definition set_owner (v : value) (s : session) : session :=
  {| token := token s; isAuthenticated := isAuthenticated s;
     authenticatedUser := authenticatedUser s; owner := v;
     cdnEndpoint := cdnEndpoint s |}.

Definition set_cdnEndpoint (v : value) (s : session) : session :=
  {| token := token s; isAuthenticated := isAuthenticated s;
     authenticatedUser := authenticatedUser s; owner := owner s;
     cdnEndpoint := v |}.

Definition set_authenticatedUser (v : value) (s : session) : session :=
  {| token := token s; isAuthenticated := isAuthenticated s;
     authenticatedUser := v; owner := owner s;
     cdnEndpoint := cdnEndpoint s |}.

(** [a !== b] where [a] was parsed from a response: numbers, strings,
    booleans, [null] and [undefined] are compared by value, an object or
    an array is identical to no other value. *)
Definition differs (a b : value) : bool :=
  match a, b with
  | None, None | Some JNull, Some JNull => false
  | Some (JBool x), Some (JBool y) => negb (Bool.eqb x y)
  | Some (JNum x), Some (JNum y) => negb (Qeq_bool x y)
  | Some (JStr x), Some (JStr y) => negb (jsstr_eqb x y)
  | _, _ => true
  end.

(** [this.authenticatedUser.login] where the user is truthy. *)
Definition login (s : session) : value :=
  match authenticatedUser s with
  | Some u => lookup_member u (js "login")
  | None => None
  end.

(** [handleRepositoryFallback()], given the answers to the requests of
    [testRepositoryAccess] and [createRepository]; [repo] is
    [this.config.repository.repo]. *)
Definition handleRepositoryFallback `{Platform} (repo : jsstr)
    (user_access create : fetched) (s : session) : outcome bool * session :=
  let refused (s : session) :=
    Rejected (js "Cannot access repository " ++ to_string (owner s)
              ++ js "/" ++ repo ++ js ". Token for user '"
              ++ to_string (login s)
              ++ js "' does not have write access.") in
  if truthy (authenticatedUser s) && differs (login s) (owner s) then
    let originalOwner := owner s in
    let s1 := set_owner (login s) s in
    let userRepoAccess := testRepositoryAccess user_access in
    if success userRepoAccess then
      (Resolved true,
       set_cdnEndpoint
         (Some (JStr (js "https://" ++ to_string (login s)
                      ++ js ".github.io/" ++ repo))) s1)
    else if match access_status userRepoAccess with
            | Some st => (st =? 404)%Z
            | None => false
            end
            && createRepository create
    then (Resolved true, s1)
    else
      let s2 := set_owner originalOwner s1 in
      (refused s2, s2)
  else (refused s, s).

(** [testAuthentication()]: [net] answers the attempts of
    [makeApiRequest], [access] the first [testRepositoryAccess]; every
    exception ends in the [catch] block, which returns [false]. *)
Definition testAuthentication `{Platform} (endpoint repo : jsstr)
    (net : nat -> fetched) (access user_access create : fetched)
    (s : session) : bool * session :=
  if negb (truthy (token s)) then (false, s)
  else
    match (makeApiRequest (to_string (token s)) net (endpoint ++ js "/user")
             None None).1 with
    | Resolved (Some response) =>
        if ok response then
          match json_body response with
          | None => (false, s)
          | Some userData =>
              let s1 := set_authenticatedUser (Some userData) s in
              match get_member userData (js "login") with
              | None => (false, s1)
              | Some _ =>
                  if success (testRepositoryAccess access) then (true, s1)
                  else
                    match handleRepositoryFallback repo user_access create s1
                    with
                    | (Resolved b, s2) => (b, s2)
                    | (Rejected _, s2) => (false, s2)
                    end
              end
          end
        else (false, s)
    | Resolved None => (false, s)
    | Rejected _ => (false, s)
    end.

(** [initialize(token)], with listeners that return: what it returns
    and the session afterwards. *)
Definition initialize `{Platform} (endpoint repo : jsstr) (new_token : value)
    (net : nat -> fetched) (access user_access create : fetched)
    (s : session) : bool * session :=
  let s0 := {| token := new_token; isAuthenticated := isAuthenticated s;
               authenticatedUser := authenticatedUser s; owner := owner s;
               cdnEndpoint := cdnEndpoint s |} in
  let '(authTest, s1) :=
    testAuthentication endpoint repo net access user_access create s0 in
  if authTest
  then (true,
        {| token := token s1; isAuthenticated := true;
           authenticatedUser := authenticatedUser s1; owner := owner s1;
           cdnEndpoint := cdnEndpoint s1 |})
  else (false, s1).

End GitHubUploadService.

(** ** [GitHubConfigManager] (services/github-config.js) *)

Module GitHubConfigManager.
Import JS.

(** [this.config], as far as the methods that choose the repository go:
    the [primary] repository, the [fallbacks] array, the [api] object
    and the [active] repository.  A repository is an object with the
    properties [owner], [repo], [branch] and [uploadPath]. *)
Record config := {
  primary : json;
  fallbacks : list json;
  api : json;
  active : json
}.

Definition set_active (a : json) (c : config) : config :=
  {| primary := primary c; fallbacks := fallbacks c; api := api c;
     active := a |}.

(** [v || fallback]. *)
Definition or_else (v : value) (fallback : json) : json :=
  match v with
  | Some j => if truthy v then j else fallback
  | None => fallback
  end.

(** A property of an object literal; a value of [undefined] leaves no
    trace in the JSON view of the object. *)
Definition field (k : jsstr) (v : value) : list (jsstr * json) :=
  match v with Some j => [(k, j)] | None => [] end.

(** [validateConfiguration()]: [Rejected] with the message of the error
    it throws.  [this.config.primary?.owner] reads through [null]. *)
Definition required (c : config) : list (jsstr * value) :=
  [(js "primary.owner", lookup_member (primary c) (js "owner"));
   (js "primary.repo", lookup_member (primary c) (js "repo"));
   (js "primary.branch", lookup_member (primary c) (js "branch"));
   (js "primary.uploadPath", lookup_member (primary c) (js "uploadPath"));
   (js "api.endpoint", lookup_member (api c) (js "endpoint"))].

Fixpoint first_missing (entries : list (jsstr * value)) : option jsstr :=
  match entries with
  | [] => None
  | (path, v) :: rest => if truthy v then first_missing rest else Some path
  end.

Definition validateConfiguration (c : config) : outcome unit :=
  match first_missing (required c) with
  | Some path =>
      Rejected (js "[GitHubConfig] Missing required configuration: " ++ path)
  | None => Resolved tt
  end.

(** [switchRepository(repoConfig)]: what it returns or throws, and the
    configuration afterwards. *)
Definition switchRepository (repoConfig : json) (c : config)
  : outcome bool * config :=
  match get_member repoConfig (js "owner") with
  | None => (Rejected (js "TypeError"), c)
  | Some owner =>
      let repo := lookup_member repoConfig (js "repo") in
      if negb (truthy owner) || negb (truthy repo)
      then (Rejected (js "[GitHubConfig] Invalid repository configuration"),
            c)
      else
        (Resolved true,
         set_active
           (JObj (field (js "owner") owner ++ field (js "repo") repo
                  ++ [(js "branch",
                       or_else (lookup_member repoConfig (js "branch"))
                         (JStr (js "main")));
                      (js "uploadPath",
                       or_else (lookup_member repoConfig (js "uploadPath"))
                         (JStr (js "logos/")))]))
           c)
  end.

(** [switchToFallback(index = 0)]. *)
Definition switchToFallback (index : nat) (c : config)
  : outcome bool * config :=
  match nth_error (fallbacks c) index with
  | Some f =>
      if truthy (Some f) then switchRepository f c else (Resolved false, c)
  | None => (Resolved false, c)
  end.

(** [switchToUserRepository(userLogin)]. *)
Definition switchToUserRepository (userLogin : value) (c : config)
  : outcome bool * config :=
  if negb (truthy userLogin)
  then (Rejected (js "[GitHubConfig] User login required"), c)
  else
    match get_member (primary c) (js "repo") with
    | None => (Rejected (js "TypeError"), c)
    | Some repo =>
        switchRepository
          (JObj (field (js "owner") userLogin ++ field (js "repo") repo
                 ++ field (js "branch") (lookup_member (primary c) (js "branch"))
                 ++ field (js "uploadPath")
                      (lookup_member (primary c) (js "uploadPath"))))
          c
    end.

(** [resetToPrimary()]. *)
Definition resetToPrimary (c : config) : outcome bool * config :=
  (Resolved true, set_active (JObj (GitHubService.spread (primary c))) c).

(** The calls that choose the repository. *)
Inductive call :=
| SwitchRepository (repoConfig : json)
| SwitchToFallback (index : nat)
| SwitchToUserRepository (userLogin : value)
| ResetToPrimary.

Definition apply_call (k : call) (c : config) : outcome bool * config :=
  match k with
  | SwitchRepository r => switchRepository r c
  | SwitchToFallback i => switchToFallback i c
  | SwitchToUserRepository u => switchToUserRepository u c
  | ResetToPrimary => resetToPrimary c
  end.

Definition apply_calls (ks : list call) (c : config) : config :=
  fold_left (fun c k => (apply_call k c).2) ks c.

End GitHubConfigManager.

(** ** Inputs used in the examples *)

Module Examples.
Import JS.

(** A string between double quotes, as it stands in a JSON text. *)
Definition quoted (s : string) : jsstr := [34] ++ js s ++ [34].

(** The answer of the GitHub API to a client that exceeded its rate
    limit. *)
Definition rate_limited : GitHubUploadService.response :=
  {| GitHubUploadService.status := 403;
     GitHubUploadService.statusText := js "Forbidden";
     GitHubUploadService.json_body :=
       Some (JObj [(js "message",
                    JStr (js "API rate limit exceeded for user ID 1."))]) |}.

Definition always_rate_limited (attempt : nat) : GitHubUploadService.fetched :=
  GitHubUploadService.Response rate_limited.

Definition user_url : jsstr := js "https://api.github.com/user".

(** A platform that knows the documents of the examples.  On them it
    answers like a browser: [JSON.parse] of the texts below gives the
    objects below, [new Date(n)] of an integer has time value [n],
    [new Date(undefined)] is invalid.  The examples reach no other
    case. *)
Definition record_text : jsstr :=
  js "{" ++ quoted "token" ++ js ":" ++ quoted "UARS" ++ js ","
     ++ quoted "machineId" ++ js ":" ++ quoted "1f" ++ js "}".

Definition record : json :=
  JObj [(js "token", JStr (js "UARS")); (js "machineId", JStr (js "1f"))].

Definition dated_record_text : jsstr :=
  js "{" ++ quoted "token" ++ js ":" ++ quoted "UARS" ++ js ","
     ++ quoted "machineId" ++ js ":" ++ quoted "1f" ++ js ","
     ++ quoted "expiresAt" ++ js ":1000}".

Definition dated_record : json :=
  JObj [(js "token", JStr (js "UARS")); (js "machineId", JStr (js "1f"));
        (js "expiresAt", JNum 1000%Q)].

Definition manifest_text : jsstr :=
  js "{" ++ quoted "settings" ++ js ":" ++ quoted "loop" ++ js "}".

Definition manifest_document : json :=
  JObj [(js "settings", JStr (js "loop"))].

Definition documents : list (jsstr * json) :=
  [(record_text, record); (dated_record_text, dated_record);
   (manifest_text, manifest_document)].

#[local] Instance sample_platform : Platform := {|
  JSON_parse s := lookup_prop s documents;
  Date_time v :=
    match v with
    | Some (JNum q) =>
        if (Qden q =? 1)%positive then Some (Qnum q) else None
    | _ => None
    end;
  ToString v :=
    match v with
    | None => js "undefined"
    | Some JNull => js "null"
    | Some (JBool true) => js "true"
    | Some (JBool false) => js "false"
    | Some (JStr s) => s
    | Some _ => js "[object Object]"
    end
|}.

(** What [getFileInfo] resolves with for a manifest file holding
    [manifest_text]: an object whose [content] is the text in
    base64. *)
Definition manifest_file : json :=
  JObj [(js "name", JStr (js "manifest.json"));
        (js "content", JStr (Base64.encode manifest_text))].

Definition mid_november : GitHubService.clock :=
  {| GitHubService.now := 1700000000000;
     GitHubService.iso := js "2023-11-14T22:13:20.000Z" |}.

(** A manifest with two logos, and an upload that replaces the first. *)
Definition acme : json :=
  JObj [(js "id", JStr (js "acme")); (js "name", JStr (js "Acme"));
        (js "priority", JNum 2%Q)].

Definition globex : json :=
  JObj [(js "id", JStr (js "globex")); (js "name", JStr (js "Globex"));
        (js "priority", JNum 1%Q)].

Definition acme_new : json :=
  JObj [(js "id", JStr (js "acme")); (js "name", JStr (js "Acme 2024"));
        (js "priority", JNum 1%Q)].

Definition two_logos : list (jsstr * json) :=
  [(js "version", JStr (js "1.0.1"));
   (js "logos", JArr [acme; globex]);
   (js "settings", GitHubService.default_settings)].

(** A stored document whose [metadata] is a string. *)
Definition labelled : json :=
  JObj [(js "logos", JArr []); (js "metadata", JStr (js "v1"))].

(** An engine that leaves the arrays it need not order as they are; the
    logos of the examples have numbers for priorities. *)
#[local] Instance as_given : GitHubService.Engine := {|
  GitHubService.sort_order l := l;
  GitHubService.sort_order_perm l := Permutation_refl l
|}.

(** A service with an update under way. *)
Definition updating : UpdateService.service :=
  {| UpdateService.currentUpdateVersion := Some (JStr (js "2.0.0"));
     UpdateService.updateInProgress := true;
     UpdateService.updateStartTime := Some 1700000000000%Z |}.

Definition online : UpdateService.surroundings :=
  {| UpdateService.now := 1700000005000;
     UpdateService.MqttClient := Some true;
     UpdateService.publish_failure := None |}.

(** Surroundings of the MQTT examples. *)
Definition mqtt_env : MqttConfig.env :=
  {| MqttConfig.now := 1700000000000;
     MqttConfig.clientId := js "billboard_admin_1a2b3c4d_1700000000000" |}.

(** A broker is created and connected; its client reports two
    reconnection attempts, after which [connect] is called again. *)
Definition reconnect_history : list (MqttConfig.env * MqttBroker.op) :=
  [(mqtt_env, MqttBroker.CallConnect None);
   (mqtt_env, MqttBroker.EvReconnect);
   (mqtt_env, MqttBroker.EvReconnect);
   (mqtt_env, MqttBroker.CallConnect None)].

End Examples.

(** ** Vocabulary of the properties *)

Module Spec.
Import JS.

Section StoredRecords.
Import TokenManager.

(** The conditions under which [getStoredToken] hands out [td]. *)
Definition valid_record `{Platform} (machineId : jsstr) (now : Z)
    (ls : TokenManager.storage)
    (td : token_data) : Prop :=
  exists storedData authData,
    ls !! storageKey = Some storedData /\ storedData <> []
    /\ JSON_parse storedData = Some authData
    /\ get_member authData (js "machineId") = Some (Some (JStr machineId))
    /\ (forall t, Date_time (lookup_member authData (js "expiresAt")) = Some t
                  -> (now <= t)%Z)
    /\ deobfuscateToken machineId
         (to_string (lookup_member authData (js "token"))) = Some (token td)
    /\ token td <> []
    /\ userLogin td = lookup_member authData (js "userLogin")
    /\ storedAt td = lookup_member authData (js "storedAt").

End StoredRecords.

Section Versions.

(** The falsy values: [undefined], [null], [false], zero and the empty
    string. *)
Definition falsy (v : value) : Prop :=
  v = None \/ v = Some JNull \/ v = Some (JBool false)
  \/ (exists q, v = Some (JNum q) /\ (q == 0)%Q)
  \/ v = Some (JStr []).

(** A string of white space only. *)
Definition blank (v : value) : Prop :=
  exists s, v = Some (JStr s) /\ Forall (fun c => is_trim_space c = true) s.

End Versions.

Section Brokers.
Import MqttBroker.

(** The five status strings. *)
Definition status_strings : list jsstr :=
  [js "disconnected"; js "connecting"; js "connected"; js "reconnecting";
   js "error"].

(** The statuses passed to [updateStatus] all belong to the five. *)
Definition notifies_valid (t : list action) : Prop :=
  Forall (fun a => match a with
                   | ANotifyStatus d => In (sd_status d) status_strings
                   | _ => True
                   end) t.

(** The status after a trace: the one of the last [updateStatus], the
    status before when there was none. *)
Definition last_status (t : list action) (before : jsstr) : jsstr :=
  fold_left (fun acc a => match a with
                          | ANotifyStatus d => sd_status d
                          | _ => acc
                          end) t before.

(** A method that touches [connectionStatus] through [updateStatus]
    only, with one of the five strings. *)
Definition status_safe {A} (m : Act A) : Prop :=
  forall b, notifies_valid (m b).2
            /\ connectionStatus (m b).1.2 = last_status (m b).2 (connectionStatus b).

(** The reconnect periods given to [mqtt.connect] in a trace. *)
Definition connect_periods (t : list action) : list Q :=
  omap (fun a => match a with
                 | AConnect _ p _ => Some p
                 | _ => None
                 end) t.

(** The delays that the ["reconnect"] handler announces in a trace. *)
Definition announced_delays (t : list action) : list Q :=
  omap (fun a => match a with
                 | ALogReconnect _ _ d => Some d
                 | _ => None
                 end) t.

(** A method that leaves the reconnect period of the client alone: a
    client that is there afterwards was there before, with the same
    period. *)
Definition keeps_period {A} (m : Act A) : Prop :=
  forall b c', client (m b).1.2 = Some c' ->
    exists c, client b = Some c
              /\ client_reconnectPeriod c' = client_reconnectPeriod c.

(** The broker lets a command through: [this.mqtt.connected] holds and the
    broker has a client. *)
Definition may_publish (b : broker) : bool :=
  connected b && bool_decide (is_Some (client b)).

End Brokers.

End Spec.

(** ** Inputs of the further examples *)

Module Samples.
Import JS.

(** A printer for the objects of the examples: flat objects whose values
    are [null] or strings without quotes, backslashes or control
    characters, for which [JSON.stringify] writes just this text. *)
Definition print_atom (v : json) : jsstr :=
  match v with
  | JStr s => [34] ++ s ++ [34]
  | _ => js "null"
  end.

Fixpoint print_props (props : list (jsstr * json)) : jsstr :=
  match props with
  | [] => []
  | [(k, v)] => [34] ++ k ++ [34] ++ js ":" ++ print_atom v
  | (k, v) :: rest =>
      [34] ++ k ++ [34] ++ js ":" ++ print_atom v ++ js "," ++ print_props rest
  end.

Definition print_flat (v : json) : jsstr :=
  match v with
  | JObj props => js "{" ++ print_props props ++ js "}"
  | _ => print_atom v
  end.

(** 14 November 2023, 22:13:20 UTC, and thirty days later. *)
Definition stored_at : Z := 1700000000000.
Definition expires_at : Z := 1702592000000.

Definition iso_dates : list (Z * jsstr) :=
  [(stored_at, js "2023-11-14T22:13:20.000Z");
   (expires_at, js "2023-12-14T22:13:20.000Z")].

#[local] Instance printer : Printer := {|
  JSON_stringify := print_flat;
  Date_toISOString t :=
    match List.find (fun d => (fst d =? t)%Z) iso_dates with
    | Some d => snd d
    | None => []
    end
|}.

(** The record that [storeToken] writes for the token ["abc"] of the user
    ["octocat"] on the machine ["1f"]. *)
Definition octocat_record : json :=
  TokenManager.auth_record (js "1f") stored_at (js "UARS")
    (JStr (js "octocat")).

(** A platform that reads the record back: [JSON.parse] of its text, and
    the time values of the two dates. *)
#[local] Instance reader : Platform := {|
  JSON_parse s :=
    if jsstr_eqb s (print_flat octocat_record) then Some octocat_record
    else None;
  Date_time v :=
    match v with
    | Some (JStr s) =>
        option_map fst (List.find (fun d => jsstr_eqb (snd d) s) iso_dates)
    | _ => None
    end;
  ToString v := js "undefined"
|}.

End Samples.

(** ** Predicates of the further properties *)

Module Laws.
Import JS.

Section Brokers.
Import MqttConfig MqttBroker.

(** [connected] and the counters agree with [connectionStatus]: the
    status ["connected"] goes with [connected = true], no reconnect
    attempt pending and [isReconnecting = false]; the status
    ["disconnected"] goes with [connected = false]. *)
Definition agrees (status : jsstr) (conn : bool) (attempts : nat) : bool :=
  (if jsstr_eqb status (js "connected")
   then conn && (attempts =? 0)%nat else true)
  && (if jsstr_eqb status (js "disconnected") then negb conn else true).

Definition coherent (b : broker) : bool :=
  agrees (connectionStatus b) (connected b) (reconnectAttempts b)
  && (if jsstr_eqb (connectionStatus b) (js "connected")
      then negb (isReconnecting b) else true).

(** The same for what a status callback is told. *)
Definition coherent_notice (a : action) : bool :=
  match a with
  | ANotifyStatus d =>
      agrees (sd_status d) (sd_connected d) (sd_reconnectAttempts d)
  | _ => true
  end.

(** The actions that reach the MQTT library. *)
Definition network (a : action) : bool :=
  match a with
  | AConnect _ _ _ | APublish _ _ _ | ASubscribe _ _ | AEnd => true
  | _ => false
  end.

(** The one operation that creates a client: a [connect()] in which
    [mqtt.connect] does not throw. *)
Definition creates_client (o : op) : bool :=
  match o with CallConnect None => true | _ => false end.

(** Consecutive ["reconnect"] events. *)
Definition reconnects (es : list env) : list (env * op) :=
  List.map (fun e => (e, EvReconnect)) es.

Definition is_end (a : action) : bool :=
  match a with AEnd => true | _ => false end.

(** A trace in which nothing reaches the library. *)
Definition quiet (t : list action) : bool :=
  forallb (fun a => negb (network a)) t.

End Brokers.

Section Devices.
Import MqttBroker DeviceControlService.




End Devices.

Section Updates.
Import UpdateService.

(** A version that passes the check of [triggerUpdate]. *)
Definition valid_version (version : value) : bool :=
  match invalid_version version with Some false => true | _ => false end.

(** An update in progress has a checked version and a start time. *)
Definition well_started (s : service) : bool :=
  if updateInProgress s
  then valid_version (currentUpdateVersion s)
       && bool_decide (is_Some (updateStartTime s))
  else true.

(** A ["success"] event names a checked version. *)
Definition success_named (n : notice) : bool :=
  match n with
  | Success version _ => valid_version version
  | _ => true
  end.

Definition is_success (n : notice) : bool :=
  match n with Success _ _ => true | _ => false end.

Definition is_command (n : notice) : bool :=
  match n with Sent (Publish _ _) => true | _ => false end.

Definition count (f : notice -> bool) (t : list notice) : nat :=
  length (List.filter f t).

End Updates.

Section Requests.
Import GitHubUploadService.

(** An answer after which [makeApiRequest] goes on to the next attempt,
    when there is one: a response that is not [ok] and not a 401, or a
    failure of [fetch] whose message does not contain
    ["Authentication failed"]. *)
Definition retried (f : fetched) : bool :=
  match f with
  | NetworkError m => negb (includes m (js "Authentication failed"))
  | Response r => negb (ok r) && negb (status r =? 401)%Z
  end.

(** The time spent in [delay], in milliseconds. *)
Definition waited (t : list effect) : Z :=
  fold_right (fun e acc => match e with Delay ms => (ms + acc)%Z | _ => acc end)
    0%Z t.

Definition delay_count (t : list effect) : nat :=
  length (List.filter (fun e => match e with Delay _ => true | _ => false end) t).

End Requests.

Section Files.
Import GitHubService.

(** A slug: lower-case letters, digits and single dashes between
    them. *)
Definition allowed (c : N) : bool := lower_alnum c || (c =? dash).

Fixpoint no_double_dash (s : jsstr) : bool :=
  match s with
  | c :: r =>
      negb ((c =? dash) && starts_with_dash r) && no_double_dash r
  | [] => true
  end.

Definition slug (s : jsstr) : bool :=
  forallb allowed s
  && no_double_dash s
  && negb (starts_with_dash s)
  && negb (List.last s 0 =? dash).

Definition has_dot (s : jsstr) : bool := existsb (fun c => c =? dot) s.

End Files.

Section Manifests.
Import GitHubService.

(** The [id] of an entry as the callback of [filter] reads it, and two
    entries that it takes for the same logo. *)
Definition id_of (x : json) : value := lookup_member x (js "id").

Definition same_id (x y : json) : bool := strict_equal (id_of x) (id_of y).

(** Entries with pairwise distinct [id]s. *)
Fixpoint distinct_ids (l : list json) : bool :=
  match l with
  | [] => true
  | x :: r => forallb (fun y => negb (same_id x y)) r && distinct_ids r
  end.

(** The entries that [addLogoToManifest] starts from: those of the
    array [logos], none when there is no such array. *)
Definition entries (manifest : json) : list json :=
  match lookup_prop (js "logos") (spread manifest) with
  | Some (JArr l) => l
  | _ => []
  end.

(** The documents that [addLogoToManifest] takes: [logos] is falsy or an
    array, with no [null] among its entries and the new logo unless it
    is empty, and [metadata] is falsy or an object. *)
Definition well_formed (manifest logoMetadata : json) : bool :=
  let props := spread manifest in
  match lookup_prop (js "logos") props with
  | Some (JArr []) => true
  | Some (JArr l) => negb (existsb is_null (logoMetadata :: l))
  | logos => negb (truthy logos)
  end
  && (negb (truthy (lookup_prop (js "metadata") props))
      || isObject (lookup_prop (js "metadata") props)).

(** [x] does not come after [y] in the order of the comparator. *)
Definition not_after (x y : json) : bool :=
  match by_priority x y with Gt => false | _ => true end.

(** Entries in ascending order of priority. *)
Fixpoint ascending (l : list json) : bool :=
  match l with
  | [] => true
  | x :: r => forallb (not_after x) r && ascending r
  end.

(** The uploads of a batch that succeeded and those that failed, in the
    order of the files. *)
Definition succeeded (files : batch) : list json :=
  omap (fun f => match f.2 with Resolved l => Some l | Rejected _ => None end)
    files.

Definition failures (files : batch) : list upload_error :=
  omap (fun f => match f.2 with
                 | Resolved _ => None
                 | Rejected m => Some {| file := f.1; error := m |}
                 end) files.


End Manifests.

Section Repositories.
Import GitHubConfigManager.

(** A repository that can be used: [owner], [repo], [branch] and
    [uploadPath] are truthy. *)
Definition usable (r : json) : bool :=
  truthy (lookup_member r (js "owner"))
  && truthy (lookup_member r (js "repo"))
  && truthy (lookup_member r (js "branch"))
  && truthy (lookup_member r (js "uploadPath")).

Definition switched (o : outcome bool) : bool :=
  match o with Resolved true => true | _ => false end.

End Repositories.

End Laws.

Module DeviceSamples.
Import JS MqttBroker.


End DeviceSamples.

Module RequestSamples.
Import JS GitHubUploadService.

Definition server_error : response :=
  {| status := 500; statusText := js "Internal Server Error";
     json_body := None |}.

Definition user_found : response :=
  {| status := 200; statusText := js "OK";
     json_body := Some (JObj [(js "login", JStr (js "octocat"))]) |}.

Definition unauthorized : response :=
  {| status := 401; statusText := js "Unauthorized";
     json_body := Some (JObj [(js "message", JStr (js "Bad credentials"))]) |}.

(** The network fails, then the server, then the request goes
    through. *)
Definition third_time_lucky (attempt : nat) : fetched :=
  match attempt with
  | 1%nat => NetworkError (js "Failed to fetch")
  | 2%nat => Response server_error
  | _ => Response user_found
  end.

(** The server fails once, then the token is refused. *)
Definition refused_on_second (attempt : nat) : fetched :=
  match attempt with
  | 1%nat => Response server_error
  | _ => Response unauthorized
  end.

End RequestSamples.

Module NameSamples.
Import JS GitHubService.

(** Lower case for names in ASCII, where [toLowerCase] maps [A]-[Z] to
    [a]-[z] and leaves the rest. *)
#[local] Instance ascii_lower : Casing := {|
  toLowerCase s := List.map (fun c => if is_upper c then c + 32 else c) s
|}.

End NameSamples.

Module ConfigSamples.
Import JS GitHubConfigManager.

Definition repository (owner repo : string) : json :=
  JObj [(js "owner", JStr (js owner)); (js "repo", JStr (js repo));
        (js "branch", JStr (js "main")); (js "uploadPath", JStr (js "logos/"))].

(** The configuration that [loadConfiguration] builds, as far as the
    repositories go. *)
Definition loaded : config :=
  {| primary := repository "MQuan-eoh" "billboard-logos-cdn";
     fallbacks := [repository "MinhQuan7" "billboard-logos-cdn"];
     api := JObj [(js "endpoint", JStr (js "https://api.github.com"));
                  (js "version", JStr (js "v3"))];
     active := repository "MQuan-eoh" "billboard-logos-cdn" |}.

End ConfigSamples.

Module AuthSamples.
Import JS GitHubUploadService.

(** A service that was given a token and has not authenticated yet. *)
Definition fresh : session :=
  {| token := Some (JStr (js "ghp_token")); isAuthenticated := false;
     authenticatedUser := Some JNull;
     owner := Some (JStr (js "MQuan-eoh"));
     cdnEndpoint := Some (JStr (js "https://mquan-eoh.github.io/billboard-logos-cdn")) |}.

End AuthSamples.

(* ================================================================= *)
(** * Properties *)

Import JS Spec.

(** [lia] also decides goals with division and remainder by constants. *)
Ltac Zify.zify_post_hook ::= Z.to_euclidean_division_equations.

Example btoa_hello : Base64.btoa (js "hello") = Some (js "aGVsbG8=").
Proof. vm_compute. reflexivity. Qed.

Example atob_hello : Base64.atob (js "aGVs bG8=") = Some (js "hello").
Proof. vm_compute. reflexivity. Qed.

Example atob_bad_length : Base64.atob (js "undefined") = None.
Proof. vm_compute. reflexivity. Qed.

Example js_two_bytes : js "ò" = [242].
Proof. vm_compute. reflexivity. Qed.

Example js_three_bytes : js "ậ" = [7853].
Proof. vm_compute. reflexivity. Qed.

Example trim_version : trim (js "  1.2.3 ") = js "1.2.3".
Proof. vm_compute. reflexivity. Qed.

Example includes_rate_limit :
  includes (js "API rate limit exceeded") (js "rate limit") = true.
Proof. vm_compute. reflexivity. Qed.

(** ** Base64 round trip *)

Section Base64_facts.
Import Base64.

(** Lists are consumed three elements at a time. *)
Lemma list_ind3 {A} (P : list A -> Prop) :
  P [] -> (forall a, P [a]) -> (forall a b, P [a; b]) ->
  (forall a b c l, P l -> P (a :: b :: c :: l)) ->
  forall l, P l.
Proof.
  intros H0 H1 H2 H3 l.
  assert (H : P l /\ (forall a, P (a :: l)) /\ (forall a b, P (a :: b :: l))).
  { induction l as [|x l IH]; [auto|].
    destruct IH as (Ha & Hb & Hc). repeat split; auto. }
  apply H.
Qed.

Lemma char_sextet_sextet_char s :
  s < 64 -> char_sextet (sextet_char s) = Some s.
Proof.
  intros Hs. unfold sextet_char, char_sextet.
  repeat (case_match; simpl in *); f_equal; lia.
Qed.

Lemma sextet_char_plain s :
  s < 64 ->
  is_ascii_whitespace (sextet_char s) = false /\ sextet_char s <> pad_char.
Proof.
  intros Hs. unfold sextet_char, is_ascii_whitespace, pad_char.
  repeat case_match; split; lia.
Qed.

Local Ltac split_forall :=
  repeat match goal with
         | H : Forall _ (_ :: _) |- _ => inversion H; subst; clear H
         end.

Lemma sextets_lt bs :
  Forall (fun b => b < 256) bs -> Forall (fun s => s < 64) (sextets bs).
Proof.
  induction bs as [|a|a b|a b c l IH] using list_ind3; intros Hb;
    split_forall; cbn [sextets]; repeat (apply List.Forall_cons); auto; lia.
Qed.

Lemma decode_sextets_sextets bs :
  Forall (fun b => b < 256) bs -> decode_sextets (sextets bs) = bs.
Proof.
  induction bs as [|a|a b|a b c l IH] using list_ind3; intros Hb;
    split_forall; cbn [sextets decode_sextets]; [reflexivity| | |].
  - f_equal. lia.
  - f_equal; [lia|]. f_equal. lia.
  - rewrite IH by assumption.
    f_equal; [lia|]. f_equal; [lia|]. f_equal. lia.
Qed.

Lemma length_sextets bs :
  ((length (sextets bs) + pad_count (length bs)) mod 4 = 0
   /\ length (sextets bs) mod 4 <> 1)%nat.
Proof.
  induction bs as [|a|a b|a b c l IH] using list_ind3;
    [split; cbn; lia ..|].
  cbn [sextets length].
  replace (pad_count (S (S (S (length l))))) with (pad_count (length l)).
  - lia.
  - unfold pad_count.
    replace (S (S (S (length l))) mod 3)%nat with (length l mod 3)%nat by lia.
    reflexivity.
Qed.

Lemma pad_count_le n : (pad_count n <= 2)%nat.
Proof. unfold pad_count. repeat case_match; lia. Qed.

Lemma strip_padding_chars ss k :
  Forall (fun s => s < 64) ss -> (k <= 2)%nat ->
  strip_padding (List.map sextet_char ss ++ repeat pad_char k)
  = List.map sextet_char ss.
Proof.
  intros Hss Hk. induction Hss as [|s ss Hs _ IH].
  - destruct k as [|[|[|k]]]; [reflexivity ..|lia].
  - cbn [List.map app strip_padding].
    destruct (sextet_char_plain s Hs) as [_ Hne].
    apply N.eqb_neq in Hne. rewrite Hne. cbn. now rewrite IH.
Qed.

Lemma filter_whitespace_encode bs :
  Forall (fun b => b < 256) bs ->
  List.filter (fun c => negb (is_ascii_whitespace c)) (encode bs) = encode bs.
Proof.
  intros Hb. unfold encode. rewrite List.filter_app. f_equal.
  - pose proof (sextets_lt bs Hb) as Hss.
    induction Hss as [|s ss Hs _ IH]; [reflexivity|].
    cbn. destruct (sextet_char_plain s Hs) as [-> _]. cbn. now rewrite IH.
  - induction (pad_count (length bs)) as [|k IH]; [reflexivity|].
    cbn. now rewrite IH.
Qed.

Lemma all_sextets_chars ss :
  Forall (fun s => s < 64) ss -> all_sextets (List.map sextet_char ss) = Some ss.
Proof.
  induction 1 as [|s ss Hs _ IH]; [reflexivity|].
  cbn. now rewrite char_sextet_sextet_char, IH.
Qed.

(** Decoding what [btoa] produced gives the bytes back. *)
Lemma atob_encode bs :
  Forall (fun b => b < 256) bs -> atob (encode bs) = Some bs.
Proof.
  intros Hb. unfold atob. rewrite filter_whitespace_encode by assumption.
  pose proof (length_sextets bs) as [Hlen Hne].
  pose proof (sextets_lt bs Hb) as Hss.
  assert (Hl : length (encode bs)
               = (length (sextets bs) + pad_count (length bs))%nat).
  { unfold encode. now rewrite length_app, length_map, repeat_length. }
  rewrite Hl, Hlen. cbn [Nat.eqb].
  unfold encode. rewrite strip_padding_chars by auto using pad_count_le.
  rewrite length_map. apply Nat.eqb_neq in Hne. rewrite Hne.
  rewrite all_sextets_chars by assumption. cbn.
  now rewrite decode_sextets_sextets.
Qed.

End Base64_facts.

(** ** [TokenManager]: obfuscation *)

Section Obfuscation.
Import Base64 TokenManager.

Lemma lxor_byte a k : a < 256 -> k < 256 -> N.lxor a k < 256.
Proof.
  intros Ha Hk.
  destruct (N.eq_dec (N.lxor a k) 0) as [->|Hne]; [lia|].
  change 256 with (2 ^ 8). apply N.log2_lt_pow2; [lia|].
  pose proof (N.log2_lxor a k) as Hl.
  assert (Hb : forall x, x < 256 -> N.log2 x < 8).
  { intros x Hx. destruct (N.eq_dec x 0) as [->|Hx0]; [reflexivity|].
    apply N.log2_lt_pow2; [lia|exact Hx]. }
  specialize (Hb a Ha) as Ha'. specialize (Hb k Hk) as Hk'. lia.
Qed.

Lemma key_char_byte key i :
  Forall (fun c => c < 256) key ->
  match charCodeAt key i with Some k => k | None => 0 end < 256.
Proof.
  intros Hkey. unfold charCodeAt.
  destruct (nth_error key i) as [k|] eqn:E; [|lia].
  apply nth_error_In in E. rewrite List.Forall_forall in Hkey. auto.
Qed.

Lemma xor_loop_bytes key i s :
  Forall (fun c => c < 256) key -> Forall (fun c => c < 256) s ->
  Forall (fun c => c < 256) (xor_loop key i s).
Proof.
  intros Hkey Hs. revert i.
  induction Hs as [|c s Hc _ IH]; intros i; cbn [xor_loop]; constructor; auto.
  unfold fromCharCode, xor_codes.
  pose proof (lxor_byte c _ Hc (key_char_byte key (i mod length key) Hkey)).
  rewrite N.mod_small; lia.
Qed.

Lemma xor_loop_involutive key i s :
  Forall (fun c => c < 256) key -> Forall (fun c => c < 256) s ->
  xor_loop key i (xor_loop key i s) = s.
Proof.
  intros Hkey Hs. revert i.
  induction Hs as [|c s Hc _ IH]; intros i; cbn [xor_loop]; [reflexivity|].
  rewrite IH. f_equal. unfold fromCharCode, xor_codes.
  pose proof (key_char_byte key (i mod length key) Hkey) as Hk.
  set (k := match charCodeAt key (i mod length key) with
            | Some k => k | None => 0 end) in *.
  pose proof (lxor_byte c k Hc Hk).
  rewrite (N.mod_small (N.lxor c k)) by lia.
  rewrite N.lxor_assoc, N.lxor_nilpotent, N.lxor_0_r.
  apply N.mod_small. lia.
Qed.

(** The round trip for every key made of code units below 256. *)
Lemma deobfuscate_obfuscate_bytes key tok :
  Forall (fun c => c < 256) key -> Forall (fun c => c < 256) tok ->
  exists o, obfuscateToken key tok = Some o
            /\ deobfuscateToken key o = Some tok.
Proof.
  intros Hkey Htok.
  pose proof (xor_loop_bytes key 0 tok Hkey Htok) as Hx.
  exists (encode (xor_loop key 0 tok)). split.
  - unfold obfuscateToken, btoa.
    replace (forallb _ _) with true; [reflexivity|].
    symmetry. apply forallb_forall. rewrite List.Forall_forall in Hx.
    intros c Hc. specialize (Hx c Hc). lia.
  - unfold deobfuscateToken. rewrite atob_encode by assumption.
    now rewrite xor_loop_involutive.
Qed.

Lemma hex_string_bytes key :
  hex_string key -> Forall (fun c => c < 256) key.
Proof.
  unfold hex_string. apply List.Forall_impl.
  intros c Hc. unfold is_hex_digit in Hc. lia.
Qed.

(** C10.  For every machine id used as key (a string of hexadecimal
    digits) and every token whose characters all have char codes below
    256, [obfuscateToken] succeeds and [deobfuscateToken] maps its result
    back to the token. *)
Theorem deobfuscate_obfuscate key tok :
  hex_string key -> Forall (fun c => c < 256) tok ->
  exists o, obfuscateToken key tok = Some o
            /\ deobfuscateToken key o = Some tok.
Proof.
  intros Hkey Htok.
  apply deobfuscate_obfuscate_bytes; [|exact Htok].
  now apply hex_string_bytes.
Qed.

Lemma deobfuscate_obfuscate_witness :
  exists o, obfuscateToken (js "1f3a9c") (js "ghp_Secret42") = Some o
            /\ deobfuscateToken (js "1f3a9c") o = Some (js "ghp_Secret42").
Proof.
  apply deobfuscate_obfuscate;
    apply List.Forall_forall; intros c Hc; vm_compute in Hc;
    repeat (destruct Hc as [<-|Hc]; [reflexivity|]); destruct Hc.
Defined.

Example obfuscated_token :
  obfuscateToken (js "1f") (js "abc") = Some (js "UARS").
Proof. vm_compute. reflexivity. Qed.

End Obfuscation.

(** ** [TokenManager]: retrieval of the stored token *)

Section StoredToken.
Import Base64 TokenManager.
Context `{Platform}.

Lemma expired_false now v :
  expired now v = false <->
  (forall t, Date_time v = Some t -> (now <= t)%Z).
Proof.
  unfold expired. destruct (Date_time v) as [t|].
  - split; [intros Hlt t' [= <-]; lia | intros Ht; specialize (Ht t eq_refl); lia].
  - split; [intros _ t [=] | reflexivity].
Qed.

Local Ltac null_branch :=
  cbn [fst snd]; split;
  [ intros td; split;
    [ discriminate
    | intros (sd' & a' & Hs1 & Hs2 & Hs3 & Hs4 & Hs5 & Hs6 & Hs7 & _);
      simplify_eq; try congruence ]
  | split; [ intros [? [=]] | reflexivity ] ].

(** C7, amended.  [getStoredToken] returns the stored token exactly when
    a record that is not the empty string exists in [localStorage], it
    parses as JSON, its [machineId] is the id of this machine, the present
    time is not later than its [expiresAt] (an [expiresAt] that is missing
    or not a date never is), and deobfuscation gives a non-empty string;
    [localStorage] is then left as it is.  In every other case it returns
    [null], and the record is removed, except that an empty-string record
    stays in place. *)
Theorem getStoredToken_spec machineId now ls :
  (forall td, (getStoredToken machineId now ls).1 = Some td
              <-> valid_record machineId now ls td)
  /\ (is_Some (getStoredToken machineId now ls).1 ->
      (getStoredToken machineId now ls).2 = ls)
  /\ ((getStoredToken machineId now ls).1 = None ->
      (getStoredToken machineId now ls).2
      = if decide (ls !! storageKey = None \/ ls !! storageKey = Some [])
        then ls else delete storageKey ls).
Proof.
  unfold getStoredToken, valid_record, clearToken, jsstr_eqb.
  destruct (ls !! storageKey) as [sd|] eqn:Els.
  2: { rewrite decide_True by auto. null_branch. }
  case_bool_decide as Hsd.
  { subst sd. rewrite decide_True by auto. null_branch. }
  rewrite decide_False by (intros [[=]|[=]]; done).
  destruct (JSON_parse sd) as [a|] eqn:Ep; [|null_branch].
  destruct (get_member a (js "machineId")) as [[[]|]|] eqn:Em;
    try solve [null_branch].
  case_bool_decide as Hm; cbn [negb]; [subst s|null_branch].
  destruct (expired now _) eqn:Ee.
  { null_branch. pose proof (proj2 (expired_false _ _) Hs5). congruence. }
  pose proof (proj1 (expired_false _ _) Ee) as Ee'.
  destruct (deobfuscateToken machineId _) as [[|c tok]|] eqn:Ed;
    try solve [null_branch].
  cbn [fst snd]. repeat split; try done.
  - intros [= <-]. exists sd, a. cbn [token userLogin storedAt].
    repeat split; auto.
  - intros (? & ? & ? & ? & ? & ? & ? & Ht & ? & ? & ?). simplify_eq.
    destruct td. cbn in *. congruence.
Qed.

End StoredToken.

(** ** [GitHubUploadService.makeApiRequest] *)

Section MakeApiRequest.
Import GitHubUploadService.

Lemma try_block_cases attempt retries f :
  match try_block attempt retries f with
  | (TryReturn r, t) => f = Response r /\ ok r = true /\ t = []
  | (TryContinue, t) =>
      exists r, f = Response r /\ ok r = false /\ status r = 403%Z
                /\ mentions_rate_limit r = Some true
                /\ t = [Delay (5000 * Z.of_nat attempt)]
  | (TryDone, t) =>
      attempt <> retries /\ t = [Delay (2000 * Z.of_nat attempt)]
  | (TryThrow m, t) => t = []
  end.
Proof.
  unfold try_block. destruct f as [m|r]; [reflexivity|].
  destruct (ok r) eqn:Hok; [auto|].
  destruct (status r =? 401)%Z eqn:H401; [reflexivity|].
  destruct (status r =? 403)%Z eqn:H403.
  - destruct (mentions_rate_limit r) as [[]|] eqn:Hm; try reflexivity.
    exists r. repeat split; auto. lia.
  - destruct (status r =? 404)%Z; [reflexivity|].
    destruct (attempt =? retries)%nat eqn:Ha; [reflexivity|].
    split; [lia|reflexivity].
Qed.

Lemma fetch_count_cons_delay ms t :
  fetch_count (Delay ms :: t) = fetch_count t.
Proof. reflexivity. Qed.

Lemma fetch_count_cons_fetch u o t :
  fetch_count (Fetch u o :: t) = S (fetch_count t).
Proof. reflexivity. Qed.

Lemma fetch_count_app t1 t2 :
  fetch_count (t1 ++ t2) = (fetch_count t1 + fetch_count t2)%nat.
Proof. unfold fetch_count. now rewrite List.filter_app, length_app. Qed.

Local Ltac count_fetches :=
  cbn [fst snd];
  rewrite ?fetch_count_app, ?fetch_count_cons_fetch, ?fetch_count_cons_delay,
    ?fetch_count_app, ?fetch_count_cons_delay;
  change (fetch_count []) with 0%nat.

(** Every run of the loop: the number of fetches, and how it can end. *)
Lemma attempts_cases net url o retries k :
  (k <= retries)%nat ->
  (fetch_count (attempts net url o retries k).2 <= k)%nat
  /\ match (attempts net url o retries k).1 with
     | Resolved (Some r) => ok r = true
     | Rejected _ => True
     | Resolved None =>
         k = 0%nat
         \/ exists r, net retries = Response r /\ ok r = false
                      /\ status r = 403%Z
                      /\ mentions_rate_limit r = Some true
     end.
Proof.
  induction k as [|k IH]; intros Hk; [cbn; auto|].
  cbn [attempts].
  pose proof (try_block_cases (retries - k) retries (net (retries - k)%nat))
    as Htb.
  destruct (try_block _ _ _) as [e t].
  specialize (IH ltac:(lia)).
  destruct (attempts net url o retries k) as [res t'] eqn:Erec.
  cbn [fst snd] in IH. destruct IH as [IHn IHr].
  assert (Hlast : k = 0%nat -> (retries - k)%nat = retries) by lia.
  destruct e as [r| |m|].
  - destruct Htb as (_ & Hok & ->). count_fetches. split; [lia|exact Hok].
  - destruct Htb as (r & Hnet & Hok & Hst & Hm & ->).
    count_fetches. split; [lia|].
    destruct res as [[r'|]|]; auto. right.
    destruct IHr as [->|IHr]; [|exact IHr].
    exists r. rewrite <- (Hlast eq_refl) at 1. auto.
  - subst t.
    destruct ((retries - k =? retries)%nat
              || includes m (js "Authentication failed")) eqn:Hc.
    + count_fetches. split; [lia|exact I].
    + count_fetches. split; [lia|].
      destruct res as [[r'|]|]; auto. right.
      destruct IHr as [->|IHr]; [|exact IHr].
      rewrite (Hlast eq_refl), Nat.eqb_refl in Hc. discriminate.
  - destruct Htb as (Hne & ->). count_fetches. split; [lia|].
    destruct res as [[r'|]|]; auto. right.
    destruct IHr as [->|IHr]; [|exact IHr]. lia.
Qed.

(** A call issues at most [retries] fetches, three by default. *)
Lemma makeApiRequest_fetch_bound token net url options retries :
  (fetch_count (makeApiRequest token net url options retries).2
   <= default 3 retries)%nat.
Proof. unfold makeApiRequest. apply attempts_cases. lia. Qed.

(** A call resolves with an [ok] response or rejects, unless the loop
    runs out on a rate-limited last attempt (or [retries] is zero). *)
Lemma makeApiRequest_ends token net url options retries :
  match (makeApiRequest token net url options retries).1 with
  | Resolved (Some r) => ok r = true
  | Rejected _ => True
  | Resolved None =>
      default 3%nat retries = 0%nat
      \/ exists r, net (default 3%nat retries) = Response r /\ ok r = false
                   /\ status r = 403%Z /\ mentions_rate_limit r = Some true
  end.
Proof. unfold makeApiRequest. apply attempts_cases. lia. Qed.

Lemma attempts_rate_limited net url o retries k :
  (k <= retries)%nat ->
  (forall a, (1 <= a <= retries)%nat ->
             exists r, net a = Response r /\ status r = 403%Z
                       /\ mentions_rate_limit r = Some true) ->
  (attempts net url o retries k).1 = Resolved None
  /\ fetch_count (attempts net url o retries k).2 = k.
Proof.
  intros Hk Hnet. induction k as [|k IH]; [split; reflexivity|].
  cbn [attempts].
  destruct (Hnet (retries - k)%nat ltac:(lia)) as (r & -> & Hst & Hm).
  unfold try_block, ok. rewrite Hst, Hm. cbn [Z.leb Z.eqb andb].
  specialize (IH ltac:(lia)).
  destruct (attempts net url o retries k) as [res t']. cbn [fst snd] in *.
  destruct IH as [-> <-]. count_fetches. split; reflexivity.
Qed.

(** C9.  When every attempt receives a 403 response whose message
    mentions the rate limit, the last one included, the loop runs out
    and [makeApiRequest] resolves without a value (it does not reject),
    after one fetch per attempt. *)
Theorem makeApiRequest_rate_limited_undefined token net url options retries :
  (forall a, (1 <= a <= default 3 retries)%nat ->
             exists r, net a = Response r /\ status r = 403%Z
                       /\ mentions_rate_limit r = Some true) ->
  (makeApiRequest token net url options retries).1 = Resolved None
  /\ fetch_count (makeApiRequest token net url options retries).2
     = default 3%nat retries.
Proof.
  intros Hnet. unfold makeApiRequest.
  apply attempts_rate_limited; [lia|exact Hnet].
Qed.

Lemma makeApiRequest_rate_limited_undefined_witness :
  (makeApiRequest (js "ghp_token") Examples.always_rate_limited
     Examples.user_url None None).1 = Resolved None
  /\ fetch_count (makeApiRequest (js "ghp_token")
                    Examples.always_rate_limited
                    Examples.user_url None None).2 = 3%nat.
Proof.
  apply (makeApiRequest_rate_limited_undefined (js "ghp_token")
           Examples.always_rate_limited Examples.user_url None None).
  intros a _. exists Examples.rate_limited.
  repeat split; vm_compute; reflexivity.
Defined.

(** C1, at the input where the code departs from it.  All three attempts
    of a default call are answered with the rate-limit response: three
    fetches are issued, the final attempt yields no [ok] response, and
    the call resolves with [undefined] where the claim has it reject. *)
Theorem makeApiRequest_default_rate_limited :
  makeApiRequest (js "ghp_token") Examples.always_rate_limited
    Examples.user_url None None
  = (Resolved None,
     [Fetch Examples.user_url (defaultOptions (js "ghp_token") no_options);
      Delay 5000;
      Fetch Examples.user_url (defaultOptions (js "ghp_token") no_options);
      Delay 10000;
      Fetch Examples.user_url (defaultOptions (js "ghp_token") no_options);
      Delay 15000])
  /\ ok Examples.rate_limited = false.
Proof. split; vm_compute; reflexivity. Qed.

End MakeApiRequest.

(** ** [MqttBroker]: the connection status *)

Section ConnectionStatus.
Import MqttConfig MqttBroker.

Lemma safe_ret {A} (x : A) : status_safe (mret x).
Proof. intros b. split; [apply List.Forall_nil|reflexivity]. Qed.

Lemma safe_bind {A B} (m : Act A) (f : A -> Act B) :
  status_safe m -> (forall x, status_safe (f x)) -> status_safe (m ≫= f).
Proof.
  intros Hm Hf b. unfold mbind, act_bind.
  specialize (Hm b). destruct (m b) as [[x b1] t1].
  specialize (Hf x b1). destruct (f x b1) as [[y b2] t2].
  cbn [fst snd] in *. destruct Hm as [Hv1 Hs1]. destruct Hf as [Hv2 Hs2].
  split.
  - apply Forall_app. split; assumption.
  - unfold last_status in *. rewrite fold_left_app. congruence.
Qed.

Lemma safe_get : status_safe get.
Proof. intros b. split; [apply List.Forall_nil|reflexivity]. Qed.

Lemma safe_modify f :
  (forall b, connectionStatus (f b) = connectionStatus b) ->
  status_safe (modify f).
Proof. intros Hf b. split; [apply List.Forall_nil|apply Hf]. Qed.

Lemma safe_tell a :
  match a with ANotifyStatus _ => False | _ => True end ->
  status_safe (tell a).
Proof.
  intros Ha b. split.
  - apply List.Forall_cons; [|apply List.Forall_nil].
    destruct a; auto. destruct Ha.
  - destruct a; try reflexivity. destruct Ha.
Qed.

Lemma safe_updateStatus e s err :
  In s status_strings -> status_safe (updateStatus e s err).
Proof.
  intros Hs b. split; [|reflexivity].
  apply List.Forall_cons; [exact Hs|apply List.Forall_nil].
Qed.

Lemma in_status_strings s :
  (if bool_decide (In s status_strings) then True else False) ->
  In s status_strings.
Proof. case_bool_decide; [auto|intros []]. Qed.

Create HintDb status_safe_db discriminated.

Local Ltac safe :=
  repeat first
    [ solve [auto with status_safe_db nocore]
    | apply safe_ret
    | apply safe_get
    | apply safe_updateStatus; apply in_status_strings; vm_compute; exact I
    | apply safe_modify; reflexivity
    | apply safe_tell; exact I
    | apply safe_bind; [|intros ?]
    | match goal with
      | |- status_safe (match ?x with _ => _ end) => destruct x
      | |- status_safe (if ?x then _ else _) => destruct x
      end ].

Lemma safe_publishStatus e s : status_safe (publishStatus e s).
Proof. unfold publishStatus. safe. Qed.
#[local] Hint Resolve safe_publishStatus : status_safe_db.

Lemma safe_subscribeToDefaultTopics : status_safe subscribeToDefaultTopics.
Proof. unfold subscribeToDefaultTopics. safe. Qed.
#[local] Hint Resolve safe_subscribeToDefaultTopics : status_safe_db.

Lemma safe_disconnect e : status_safe (disconnect e).
Proof. unfold disconnect. safe. Qed.
#[local] Hint Resolve safe_disconnect : status_safe_db.

Lemma safe_connect e failure : status_safe (connect e failure).
Proof. unfold connect. safe. Qed.
#[local] Hint Resolve safe_connect : status_safe_db.

Lemma safe_on_connect e : status_safe (on_connect e).
Proof. unfold on_connect. safe. Qed.
#[local] Hint Resolve safe_on_connect : status_safe_db.

Lemma safe_on_reconnect e : status_safe (on_reconnect e).
Proof. unfold on_reconnect. safe. Qed.
#[local] Hint Resolve safe_on_reconnect : status_safe_db.

Lemma safe_lib_set_connected v : status_safe (lib_set_connected v).
Proof. unfold lib_set_connected. safe. Qed.
#[local] Hint Resolve safe_lib_set_connected : status_safe_db.

Lemma safe_step e o : status_safe (step e o).
Proof.
  destruct o; cbn [step];
    unfold on_disconnect, on_error, on_message, on_close; safe.
Qed.

Lemma safe_run ops : status_safe (run ops).
Proof.
  induction ops as [|[e o] ops IH]; cbn [run]; [apply safe_ret|].
  apply safe_bind; [apply safe_step|intros _; exact IH].
Qed.

Lemma last_status_valid t before :
  notifies_valid t -> In before status_strings ->
  In (last_status t before) status_strings.
Proof.
  unfold last_status. intros Ht. revert before.
  induction Ht as [|a t Ha _ IH]; intros before Hb; [exact Hb|].
  cbn [fold_left]. apply IH. destruct a; auto.
Qed.

(** C8.  [connectionStatus] starts as ["disconnected"]; every operation
    (the method calls and the handlers of the client events) leaves it
    equal to the status of its last [updateStatus] call, each of which
    is given one of the five strings; hence after any history it is one
    of the five. *)
Theorem connectionStatus_invariant :
  connectionStatus new_broker = js "disconnected"
  /\ (forall e o b,
        notifies_valid (step e o b).2
        /\ connectionStatus (step e o b).1.2
           = last_status (step e o b).2 (connectionStatus b))
  /\ (forall ops, In (connectionStatus (run ops new_broker).1.2) status_strings).
Proof.
  split; [reflexivity|]. split; [intros e o b; apply safe_step|].
  intros ops. destruct (safe_run ops new_broker) as [Hv ->].
  apply last_status_valid; [exact Hv|]. left. reflexivity.
Qed.

End ConnectionStatus.

(** ** [MqttBroker]: the reconnection delay *)

Section Backoff.
Import MqttConfig MqttBroker.

Lemma Math_pow_large n : (9 <= n)%nat -> (30 <= Math_pow (3 # 2) n)%Q.
Proof.
  induction n as [|n IH]; [lia|]. intros Hn.
  destruct (Nat.eq_dec n 8%nat) as [->|Hne].
  - vm_compute. discriminate.
  - specialize (IH ltac:(lia)). cbn [Math_pow]. lra.
Qed.

Lemma backoff_capped n : (9 <= n)%nat -> (backoff n == 30000)%Q.
Proof.
  intros Hn. unfold backoff. apply Q.min_r.
  pose proof (Math_pow_large n Hn). lra.
Qed.

Lemma backoff_grows n : (n < 9)%nat -> (backoff n < backoff (S n))%Q.
Proof.
  intros Hn.
  do 9 (destruct n as [|n]; [vm_compute; reflexivity|]). lia.
Qed.

Lemma keeps_ret {A} (x : A) : keeps_period (mret x).
Proof. intros b c' Hc. exists c'. split; [exact Hc|reflexivity]. Qed.

Lemma keeps_bind {A B} (m : Act A) (f : A -> Act B) :
  keeps_period m -> (forall x, keeps_period (f x)) -> keeps_period (m ≫= f).
Proof.
  intros Hm Hf b c' Hc. unfold mbind, act_bind in Hc.
  specialize (Hm b). destruct (m b) as [[x b1] t1].
  specialize (Hf x b1). destruct (f x b1) as [[y b2] t2].
  cbn [fst snd] in *.
  destruct (Hf c' Hc) as (c1 & Hc1 & Hp1).
  destruct (Hm c1 Hc1) as (c0 & Hc0 & Hp0).
  exists c0. split; [exact Hc0|congruence].
Qed.

Lemma keeps_get : keeps_period get.
Proof. intros b c' Hc. exists c'. split; [exact Hc|reflexivity]. Qed.

Lemma keeps_tell a : keeps_period (tell a).
Proof. intros b c' Hc. exists c'. split; [exact Hc|reflexivity]. Qed.

Lemma keeps_modify f :
  (forall b, client (f b) = client b) -> keeps_period (modify f).
Proof.
  intros Hf b c' Hc. exists c'. split; [|reflexivity].
  cbn in Hc. now rewrite Hf in Hc.
Qed.

Lemma keeps_drop_client : keeps_period (modify (set_client None)).
Proof. intros b c' Hc. discriminate Hc. Qed.

Lemma keeps_lib_set_connected v : keeps_period (lib_set_connected v).
Proof.
  intros b c' Hc. unfold lib_set_connected, mbind, act_bind, get in Hc.
  destruct (client b) as [c|] eqn:Eb; cbn in Hc.
  - injection Hc as <-. exists c. split; reflexivity.
  - congruence.
Qed.

Create HintDb keeps_period_db discriminated.
#[local] Hint Resolve keeps_ret keeps_get keeps_tell keeps_drop_client
  keeps_lib_set_connected : keeps_period_db.

Local Ltac keeps :=
  repeat first
    [ solve [auto with keeps_period_db nocore]
    | apply keeps_modify; reflexivity
    | apply keeps_bind; [|intros ?]
    | match goal with
      | |- keeps_period (match ?x with _ => _ end) => destruct x
      | |- keeps_period (if ?x then _ else _) => destruct x
      end ].

Lemma keeps_updateStatus e s err : keeps_period (updateStatus e s err).
Proof. unfold updateStatus. keeps. Qed.
#[local] Hint Resolve keeps_updateStatus : keeps_period_db.

Lemma keeps_publishStatus e s : keeps_period (publishStatus e s).
Proof. unfold publishStatus. keeps. Qed.
#[local] Hint Resolve keeps_publishStatus : keeps_period_db.

Lemma keeps_subscribeToDefaultTopics : keeps_period subscribeToDefaultTopics.
Proof. unfold subscribeToDefaultTopics. keeps. Qed.
#[local] Hint Resolve keeps_subscribeToDefaultTopics : keeps_period_db.

Lemma keeps_disconnect e : keeps_period (disconnect e).
Proof. unfold disconnect. keeps. Qed.
#[local] Hint Resolve keeps_disconnect : keeps_period_db.

(** Apart from [connect], which creates the client, no method and no
    handler changes the reconnect period of the client. *)
Lemma keeps_step e o :
  match o with CallConnect _ => False | _ => True end ->
  keeps_period (step e o).
Proof.
  destruct o; intros Ho; try destruct Ho; cbn [step];
    unfold on_connect, on_disconnect, on_reconnect, on_error, on_message,
      on_close; keeps.
Qed.

(** The claim of C2 fails: in the history [Examples.reconnect_history]
    the first [connect] asks for a reconnect period of 1000 ms and the
    second, after two reconnection attempts, for 2250 ms; the handler
    announces 1000 ms before the first attempt and 1500 ms before the
    second. *)
Lemma reconnect_delay_not_fixed :
  let t := (run Examples.reconnect_history new_broker).2 in
  Forall2 Qeq (connect_periods t) [1000; 2250]%Q
  /\ Forall2 Qeq (announced_delays t) [1000; 1500]%Q
  /\ ~ (1000 == 2250)%Q /\ ~ (1000 == 1500)%Q.
Proof.
  vm_compute. repeat split; try discriminate;
    repeat (constructor; try reflexivity).
Qed.

(** C2, amended.  The reconnect period is fixed for each client, not for
    the broker.  [connect] gives the client it creates the period
    [min(1000 * 1.5^a, 30000)], [a] being [reconnectAttempts] at the time
    of the call, and nothing changes the period of that client afterwards;
    the ["reconnect"] handler announces the same expression of the number
    of attempts made before.  The value is 1000 ms when no attempt is
    pending, grows with each attempt below the cap and is 30000 ms from
    nine attempts on. *)
Theorem reconnect_delay_backoff :
  (forall e b,
      connect_periods (connect e None b).2
      = [Qmin (1000 * Math_pow (3 # 2) (reconnectAttempts b)) 30000]%Q
      /\ option_map client_reconnectPeriod (client (connect e None b).1.2)
         = Some (Qmin (1000 * Math_pow (3 # 2) (reconnectAttempts b)) 30000)%Q)
  /\ (forall e o, match o with CallConnect _ => False | _ => True end ->
                  keeps_period (step e o))
  /\ (forall e b,
        announced_delays (on_reconnect e b).2
        = [Qmin (1000 * Math_pow (3 # 2) (reconnectAttempts b)) 30000]%Q)
  /\ (backoff 0 == 1000)%Q
  /\ (forall n, (n < 9)%nat -> (backoff n < backoff (S n))%Q)
  /\ (forall n, (9 <= n)%nat -> (backoff n == 30000)%Q).
Proof.
  split; [intros e b; split; reflexivity|].
  split; [exact keeps_step|]. split.
  - intros e [c conn st n mx rec].
    change (Qmin (1000 * Math_pow (3 # 2) n) 30000) with (backoff n).
    unfold on_reconnect, disconnect, publishStatus, updateStatus, mbind,
      act_bind, get, modify, tell.
    cbn -[backoff js Nat.leb]. rewrite Nat.sub_0_r.
    destruct (mx <=? S n)%nat; [destruct c, conn|]; reflexivity.
  - split; [reflexivity|]. split; [apply backoff_grows|apply backoff_capped].
Qed.

End Backoff.

(** ** Topics of commands and subscriptions *)

Section Topics.
Import MqttConfig MqttBroker.

Example subscriptions_on_connect :
  let r := run [(Examples.mqtt_env, CallConnect None);
                (Examples.mqtt_env, EvConnect true)] new_broker in
  connectionStatus r.1.2 = js "connected"
  /\ omap (fun a => match a with ASubscribe t _ => Some t | _ => None end) r.2
     = [js "its/billboard/update/status"; js "its/billboard/reset/status";
        js "its/billboard/status";
        js "its/billboard/update/status"; js "its/billboard/reset/status";
        js "its/billboard/status"].
Proof. vm_compute. split; reflexivity. Qed.

(** C6.  [DeviceControlService.triggerUpdate] and [triggerReset] publish
    nothing but their command message ([force_update], [reset_app]), on
    the topic ["its/billboard/commands"], and they publish it whenever
    they get past their checks; [subscribeToDefaultTopics] subscribes to
    the three status topics, in this order, and to nothing else (to
    nothing at all while the client is not connected). *)
Theorem fixed_topics :
  (forall e mqtt ack version s,
      let t := (DeviceControlService.triggerUpdate e mqtt ack version s).2 in
      let m := DeviceControlService.update_message e version in
      lookup_member m (js "action") = Some (JStr (js "force_update"))
      /\ t = match mqtt with
             | Some b =>
                 if may_publish b
                    && negb (DeviceControlService.updateInProgress s)
                 then [APublish (js "its/billboard/commands") m 1]
                 else []
             | None => []
             end)
  /\ (forall e mqtt ack reason s,
        let t := (DeviceControlService.triggerReset e mqtt ack reason s).2 in
        let m := DeviceControlService.reset_message e
                   (default (JStr (js "manual")) reason) in
        lookup_member m (js "action") = Some (JStr (js "reset_app"))
        /\ t = match mqtt with
               | Some b =>
                   if may_publish b
                   then [APublish (js "its/billboard/commands") m 1]
                   else []
               | None => []
               end)
  /\ (forall b,
        (subscribeToDefaultTopics b).2
        = match client b with
          | Some c =>
              if client_connected c
              then [ASubscribe (js "its/billboard/update/status") 1;
                    ASubscribe (js "its/billboard/reset/status") 1;
                    ASubscribe (js "its/billboard/status") 1]
              else []
          | None => []
          end).
Proof.
  split; [|split].
  - intros e mqtt ack version s. cbn zeta. split; [reflexivity|].
    unfold DeviceControlService.triggerUpdate, may_publish.
    destruct mqtt as [b|]; [|reflexivity].
    destruct (connected b); [|reflexivity]. cbn [negb andb].
    destruct (DeviceControlService.updateInProgress s);
      [now rewrite andb_false_r|].
    rewrite andb_true_r.
    unfold DeviceControlService.mqtt_publish, publish, mbind, act_bind,
      get, tell, mret, act_ret.
    destruct (client b) as [c|]; [|reflexivity].
    destruct ack; reflexivity.
  - intros e mqtt ack reason s. cbn zeta. split; [reflexivity|].
    unfold DeviceControlService.triggerReset, may_publish.
    destruct mqtt as [b|]; [|reflexivity].
    destruct (connected b); [|reflexivity]. cbn [negb andb].
    unfold DeviceControlService.mqtt_publish, publish, mbind, act_bind,
      get, tell, mret, act_ret.
    destruct (client b) as [c|]; [|reflexivity].
    destruct reason, ack; reflexivity.
  - intros b. unfold subscribeToDefaultTopics, mbind, act_bind, get.
    destruct (client b) as [c|]; [|reflexivity].
    destruct (client_connected c); reflexivity.
Qed.

End Topics.

(** ** [TokenManager.getStoredToken]: where the claim fails *)

Section StoredTokenExamples.
Import TokenManager.
Existing Instance Examples.sample_platform.

(** The claim of C7 fails in both directions.
    - A record that is the empty string is left in [localStorage]
      although [null] is returned.
    - A record without [expiresAt] yields its token, and so does a record
      whose [expiresAt] is the present millisecond: in neither is
      [expiresAt] in the future. *)
Lemma getStoredToken_counterexample :
  getStoredToken (js "1f") 5000 {[ storageKey := [] ]}
  = (None, {[ storageKey := [] ]})
  /\ (getStoredToken (js "1f") 5000 {[ storageKey := Examples.record_text ]}).1
     = Some {| token := js "abc"; userLogin := None; storedAt := None |}
  /\ lookup_member Examples.record (js "expiresAt") = None
  /\ (getStoredToken (js "1f") 1000
        {[ storageKey := Examples.dated_record_text ]}).1
     = Some {| token := js "abc"; userLogin := None; storedAt := None |}
  /\ Date_time (lookup_member Examples.dated_record (js "expiresAt"))
     = Some 1000%Z.
Proof. repeat split; vm_compute; reflexivity. Qed.

End StoredTokenExamples.

(** ** [UpdateService.triggerUpdate] while an update is in progress *)

Section TriggerUpdate.
Import UpdateService.

Lemma trim_nil_of_nil : trim [] = [].
Proof. reflexivity. Qed.

Lemma trim_start_nil s :
  trim_start s = [] <-> Forall (fun c => is_trim_space c = true) s.
Proof.
  induction s as [|c r IH]; cbn [trim_start].
  - split; [intros _; apply List.Forall_nil|reflexivity].
  - destruct (is_trim_space c) eqn:Hc.
    + rewrite IH. split.
      * intros Hr. now apply List.Forall_cons.
      * intros Hs. now inversion Hs.
    + split; [discriminate|]. intros Hs. inversion Hs. congruence.
Qed.

(** [trim] leaves nothing exactly of the strings of white space. *)
Lemma trim_nil s : trim s = [] <-> Forall (fun c => is_trim_space c = true) s.
Proof.
  unfold trim. split.
  - intros Ht. apply (f_equal (@rev N)) in Ht.
    rewrite rev_involutive in Ht. cbn [rev] in Ht.
    apply trim_start_nil in Ht.
    apply trim_start_nil.
    destruct (trim_start s) as [|c r] eqn:Es; [reflexivity|exfalso].
    assert (is_trim_space c = false) as Hc.
    { destruct s as [|d s']; [discriminate|]. revert Es.
      induction (d :: s') as [|x l IHl]; cbn [trim_start]; [discriminate|].
      destruct (is_trim_space x) eqn:Hx; [exact IHl|]. now intros [= <- _]. }
    assert (is_trim_space c = true) as Hc'.
    { apply (proj1 (List.Forall_forall _ _) Ht). apply in_rev.
      rewrite rev_involutive. now left. }
    congruence.
  - intros Hs. apply trim_start_nil in Hs. now rewrite Hs.
Qed.

(** The versions that [triggerUpdate] refuses as invalid are the falsy
    values and the strings of white space. *)
Lemma invalid_version_fails version :
  invalid_version version = Some true <-> falsy version \/ blank version.
Proof.
  unfold invalid_version, falsy, blank.
  destruct version as [[|b|q|v|items|props]|]; cbn [truthy negb].
  - split; [auto|reflexivity].
  - destruct b; cbn [negb].
    + split; [discriminate|]. intros [H|[s [[=] _]]].
      destruct H as [[=]|[[=]|[[=]|[(q & [=] & _)|[=]]]]].
    + split; [auto|reflexivity].
  - destruct (Qeq_bool q 0) eqn:Hq; cbn [negb].
    + split; [|reflexivity]. intros _. left. do 3 right. left.
      exists q. split; [reflexivity|]. now apply Qeq_bool_iff.
    + split; [discriminate|]. intros [H|[s [[=] _]]].
      destruct H as [[=]|[[=]|[[=]|[(q' & [= <-] & Hq')|[=]]]]].
      apply Qeq_bool_iff in Hq'. congruence.
  - unfold jsstr_eqb. case_bool_decide as Hv; cbn [negb].
    + subst v. split; [|reflexivity]. intros _. left. do 4 right. reflexivity.
    + case_bool_decide as Ht.
      * split; [|reflexivity]. intros _. right. exists v.
        split; [reflexivity|]. now apply trim_nil.
      * split; [discriminate|]. intros [H|(s & [= <-] & Hs)].
        -- destruct H as [[=]|[[=]|[[=]|[(q & [=] & _)|[= ->]]]]]. congruence.
        -- apply trim_nil in Hs. congruence.
  - split; [discriminate|]. intros [H|[s [[=] _]]].
    destruct H as [[=]|[[=]|[[=]|[(q & [=] & _)|[=]]]]].
  - split; [discriminate|]. intros [H|[s [[=] _]]].
    destruct H as [[=]|[[=]|[[=]|[(q & [=] & _)|[=]]]]].
  - split; [auto|reflexivity].
Qed.

(** The claim of C4 fails for a blank version: the version is checked
    first, and the event carries the code [INVALID_VERSION]. *)
Lemma triggerUpdate_blank_version_in_progress :
  triggerUpdate Examples.online (Some (JStr (js "  "))) Examples.updating
  = (Resolved false, Examples.updating,
     [EmitError (js "Vui lòng nhập phiên bản muốn cập nhật")
        (js "INVALID_VERSION")])
  /\ updateInProgress Examples.updating = true.
Proof. split; vm_compute; reflexivity. Qed.

(** C4, amended.  While an update is in progress, [triggerUpdate] with a
    version string that has a character other than white space returns
    [false] after emitting an error event with code
    [UPDATE_IN_PROGRESS]; with a version that fails the validation
    (falsy or blank) the event has the code [INVALID_VERSION] instead;
    in every case the state of the service is left as it was. *)
Theorem triggerUpdate_in_progress w s :
  updateInProgress s = true ->
  (forall v, trim v <> [] ->
     triggerUpdate w (Some (JStr v)) s
     = (Resolved false, s,
        [EmitError (js "Đang cập nhật, vui lòng chờ...")
           (js "UPDATE_IN_PROGRESS")]))
  /\ (forall version, falsy version \/ blank version ->
        triggerUpdate w version s
        = (Resolved false, s,
           [EmitError (js "Vui lòng nhập phiên bản muốn cập nhật")
              (js "INVALID_VERSION")]))
  /\ (forall version, (triggerUpdate w version s).1.2 = s).
Proof.
  intros Hs. repeat split.
  - intros v Hv. unfold triggerUpdate, invalid_version, truthy, jsstr_eqb.
    rewrite (bool_decide_eq_false_2 (v = [])) by (intros ->; auto).
    rewrite (bool_decide_eq_false_2 (trim v = [])) by assumption.
    cbn [negb]. now rewrite Hs.
  - intros version Hv. unfold triggerUpdate.
    now rewrite (proj2 (invalid_version_fails version) Hv).
  - intros version. unfold triggerUpdate.
    destruct (invalid_version version) as [[]|]; try reflexivity.
    now rewrite Hs.
Qed.

Lemma triggerUpdate_in_progress_witness :
  (forall v, trim v <> [] ->
     triggerUpdate Examples.online (Some (JStr v)) Examples.updating
     = (Resolved false, Examples.updating,
        [EmitError (js "Đang cập nhật, vui lòng chờ...")
           (js "UPDATE_IN_PROGRESS")]))
  /\ (forall version, falsy version \/ blank version ->
        triggerUpdate Examples.online version Examples.updating
        = (Resolved false, Examples.updating,
           [EmitError (js "Vui lòng nhập phiên bản muốn cập nhật")
              (js "INVALID_VERSION")]))
  /\ (forall version,
        (triggerUpdate Examples.online version Examples.updating).1.2
        = Examples.updating).
Proof.
  apply (triggerUpdate_in_progress Examples.online Examples.updating).
  reflexivity.
Defined.

End TriggerUpdate.

(** ** [GitHubService.getCurrentManifest] *)

Section CurrentManifest.
Import GitHubService.

Lemma lookup_set_prop_eq k v p : lookup_prop k (set_prop k v p) = Some v.
Proof.
  induction p as [|[k' v'] p IH]; cbn [set_prop lookup_prop]; unfold jsstr_eqb.
  - now rewrite bool_decide_eq_true_2.
  - case_bool_decide as Hk; cbn [lookup_prop]; unfold jsstr_eqb.
    + now rewrite bool_decide_eq_true_2.
    + now rewrite bool_decide_eq_false_2.
Qed.

Lemma lookup_set_prop_ne k k' v p :
  k <> k' -> lookup_prop k (set_prop k' v p) = lookup_prop k p.
Proof.
  intros Hne.
  induction p as [|[k2 v2] p IH]; cbn [set_prop lookup_prop]; unfold jsstr_eqb.
  - now rewrite bool_decide_eq_false_2.
  - destruct (bool_decide (k' = k2)) eqn:Hk; cbn [lookup_prop];
      unfold jsstr_eqb.
    + apply bool_decide_eq_true in Hk. subst k2.
      now rewrite !bool_decide_eq_false_2.
    + destruct (bool_decide (k = k2)); [reflexivity|exact IH].
Qed.

Lemma lookup_fill_in_eq k v p :
  lookup_prop k (fill_in k v p)
  = if truthy (lookup_prop k p) then lookup_prop k p else Some v.
Proof.
  unfold fill_in. destruct (truthy (lookup_prop k p)); cbn [negb];
    [reflexivity|apply lookup_set_prop_eq].
Qed.

Lemma lookup_fill_in_ne k k' v p :
  k <> k' -> lookup_prop k (fill_in k' v p) = lookup_prop k p.
Proof.
  intros Hne. unfold fill_in. destruct (negb _); [|reflexivity].
  now apply lookup_set_prop_ne.
Qed.

Local Ltac other_key :=
  let H := fresh in intros H; vm_compute in H; discriminate H.

(** What [validateAndFixManifest] returns for [settings]: the stored
    value when it is truthy, the default otherwise. *)
Lemma validateAndFixManifest_settings c manifest :
  lookup_member (validateAndFixManifest c manifest) (js "settings")
  = if truthy (lookup_prop (js "settings") (spread manifest))
    then lookup_prop (js "settings") (spread manifest)
    else Some default_settings.
Proof.
  unfold validateAndFixManifest, lookup_member, get_member.
  rewrite lookup_fill_in_ne by other_key. rewrite lookup_fill_in_eq.
  assert (Hs : forall p,
    lookup_prop (js "settings")
      (if negb (truthy (lookup_prop (js "logos") p))
          || negb (isArray (lookup_prop (js "logos") p))
       then set_prop (js "logos") (JArr []) p else p)
    = lookup_prop (js "settings") p).
  { intros p. destruct (_ || _); [|reflexivity].
    apply lookup_set_prop_ne. other_key. }
  rewrite Hs. now rewrite !lookup_fill_in_ne by other_key.
Qed.

(** And for [logos]: the stored array, an empty one otherwise. *)
Lemma validateAndFixManifest_logos c manifest :
  lookup_member (validateAndFixManifest c manifest) (js "logos")
  = if isArray (lookup_prop (js "logos") (spread manifest))
    then lookup_prop (js "logos") (spread manifest)
    else Some (JArr []).
Proof.
  unfold validateAndFixManifest, lookup_member, get_member.
  rewrite !(lookup_fill_in_ne (js "logos")) by other_key.
  set (p := fill_in (js "lastUpdated") _ _).
  assert (Hp : lookup_prop (js "logos") p
               = lookup_prop (js "logos") (spread manifest)).
  { unfold p. now rewrite !lookup_fill_in_ne by other_key. }
  rewrite <- Hp.
  destruct (lookup_prop (js "logos") p) as [[]|] eqn:E;
    cbn [truthy isArray negb orb]; rewrite ?orb_true_r;
    rewrite ?lookup_set_prop_eq, ?E; reflexivity.
Qed.

Lemma truthy_default_settings : truthy (Some default_settings) = true.
Proof. reflexivity. Qed.

Section WithPlatform.
Context `{Platform}.

(** C5, amended.  Every manifest returned by [getCurrentManifest] has
    a [logos] field that is an array and a truthy [settings] field.
    It is the default manifest ([logos = []], the default settings)
    when there is no file or when decoding or parsing fails, and the
    stored document after [validateAndFixManifest] otherwise, which
    keeps a stored [logos] array and a stored truthy [settings]
    value, of whatever type, and fills in [[]] and the default
    settings for the rest. *)
Theorem getCurrentManifest_shape c fileInfo :
  let m := getCurrentManifest c fileInfo in
  isArray (lookup_member m (js "logos")) = true
  /\ truthy (lookup_member m (js "settings")) = true
  /\ (m = createDefaultManifest c
      \/ exists content manifest,
           truthy (Some fileInfo) = true
           /\ Base64.atob (to_string (lookup_member fileInfo (js "content")))
              = Some content
           /\ JSON_parse content = Some manifest
           /\ m = validateAndFixManifest c manifest)
  /\ lookup_member (createDefaultManifest c) (js "logos") = Some (JArr [])
  /\ lookup_member (createDefaultManifest c) (js "settings")
     = Some (JObj [(js "logoMode", JStr (js "loop"));
                   (js "logoLoopDuration", JNum 30%Q);
                   (js "schedules", JArr [])])
  /\ (forall manifest,
        lookup_member (validateAndFixManifest c manifest) (js "logos")
        = if isArray (lookup_prop (js "logos") (spread manifest))
          then lookup_prop (js "logos") (spread manifest)
          else Some (JArr []))
  /\ (forall manifest,
        lookup_member (validateAndFixManifest c manifest) (js "settings")
        = if truthy (lookup_prop (js "settings") (spread manifest))
          then lookup_prop (js "settings") (spread manifest)
          else Some (JObj [(js "logoMode", JStr (js "loop"));
                           (js "logoLoopDuration", JNum 30%Q);
                           (js "schedules", JArr [])])).
Proof.
  cbn zeta.
  assert (Hv : forall manifest,
    isArray (lookup_member (validateAndFixManifest c manifest) (js "logos"))
    = true
    /\ truthy (lookup_member (validateAndFixManifest c manifest)
                 (js "settings")) = true).
  { intros manifest.
    rewrite validateAndFixManifest_logos, validateAndFixManifest_settings.
    split.
    - destruct (isArray (lookup_prop _ _)) eqn:E; [exact E|reflexivity].
    - destruct (truthy (lookup_prop _ _)) eqn:E; [exact E|reflexivity]. }
  assert (Hd : isArray (lookup_member (createDefaultManifest c) (js "logos"))
               = true
               /\ truthy (lookup_member (createDefaultManifest c)
                            (js "settings")) = true)
    by (split; reflexivity).
  repeat split;
    try solve [reflexivity
              | apply validateAndFixManifest_logos
              | apply validateAndFixManifest_settings];
    unfold getCurrentManifest;
    destruct (truthy (Some fileInfo)); try apply Hd; auto;
    destruct (Base64.atob _) as [content|]; try apply Hd; auto;
    destruct (JSON_parse content) as [manifest|] eqn:Ep;
    try apply Hd; try apply Hv; auto.
  right. exists content, manifest. auto.
Qed.

(** [getCurrentManifest] resolves with an object. *)
Lemma getCurrentManifest_object c fileInfo :
  exists props, getCurrentManifest c fileInfo = JObj props.
Proof.
  unfold getCurrentManifest, validateAndFixManifest, createDefaultManifest.
  destruct (truthy (Some fileInfo)); [|eauto].
  destruct (Base64.atob _) as [content|]; [|eauto].
  destruct (JSON_parse content); eauto.
Qed.

End WithPlatform.

(** The claim of C5 fails for a stored document whose [settings] is a
    string: [validateAndFixManifest] keeps it, and the manifest returned
    has a [settings] field that is not an object. *)
Lemma getCurrentManifest_settings_kept :
  lookup_member
    (@getCurrentManifest Examples.sample_platform Examples.mid_november
       Examples.manifest_file) (js "settings")
  = Some (JStr (js "loop"))
  /\ isObject (Some (JStr (js "loop"))) = false.
Proof. split; vm_compute; reflexivity. Qed.

End CurrentManifest.

(** ** [GitHubService.addLogoToManifest] *)

Section AddLogo.
Import GitHubService Laws.

Section WithEngine.
Context `{Engine}.

Lemma strict_equal_sym a b : strict_equal a b = strict_equal b a.
Proof.
  destruct a as [[| x | x | s | |]|], b as [[| y | y | t | |]|];
    cbn [strict_equal]; try reflexivity.
  - now destruct x, y.
  - destruct (Qeq_bool x y) eqn:E, (Qeq_bool y x) eqn:E'; try reflexivity.
    + apply Qeq_bool_iff in E. symmetry in E. apply Qeq_bool_iff in E.
      congruence.
    + apply Qeq_bool_iff in E'. symmetry in E'. apply Qeq_bool_iff in E'.
      congruence.
  - unfold jsstr_eqb. repeat case_bool_decide; congruence.
Qed.

Lemma same_id_sym x y : same_id x y = same_id y x.
Proof. apply strict_equal_sym. Qed.

Lemma insert_sorted_perm x l : Permutation (insert_sorted x l) (x :: l).
Proof.
  induction l as [|y l IH]; cbn [insert_sorted]; [reflexivity|].
  destruct (by_priority x y); try reflexivity.
  rewrite IH. apply perm_swap.
Qed.

Lemma insertion_perm l : Permutation (foldr insert_sorted [] l) l.
Proof.
  induction l as [|x l IH]; [reflexivity|].
  cbn [foldr]. rewrite insert_sorted_perm. now constructor.
Qed.

(** Sorting rearranges the entries and nothing else. *)
Lemma sort_perm l sorted : sort l = Some sorted -> Permutation sorted l.
Proof.
  unfold sort. destruct l as [|x [|y r]]; try (intros [= <-]; reflexivity).
  destruct (existsb is_null _); [discriminate|].
  destruct (forallb numeric _); intros [= <-];
    [apply (insertion_perm (x :: y :: r))|apply sort_order_perm].
Qed.

Lemma sort_returns l :
  (length l <= 1)%nat \/ existsb is_null l = false -> is_Some (sort l).
Proof.
  unfold sort. destruct l as [|x [|y r]]; try (intros _; eauto; fail).
  intros [Hl| ->]; [cbn in Hl; lia|].
  destruct (forallb numeric _); eauto.
Qed.

Lemma other_id_spec lm x :
  other_id lm x
  = if is_null x || is_null lm then None else Some (negb (same_id x lm)).
Proof. destruct x, lm; reflexivity. Qed.

Lemma Array_filter_inv lm l kept :
  Array_filter (other_id lm) l = Some kept ->
  kept = List.filter (fun x => negb (same_id x lm)) l
  /\ (l = [] \/ existsb is_null (lm :: l) = false).
Proof.
  revert kept. induction l as [|x r IH]; intros kept.
  - intros [= <-]. split; [reflexivity|now left].
  - cbn [Array_filter List.filter]. rewrite other_id_spec.
    destruct (is_null x) eqn:Hx; [discriminate|].
    destruct (is_null lm) eqn:Hlm; [discriminate|]. cbn [orb].
    destruct (Array_filter (other_id lm) r) as [kept'|]; [|discriminate].
    destruct (IH kept' eq_refl) as [-> Hr]. intros [= <-].
    split; [reflexivity|right]. cbn [existsb]. rewrite Hlm, Hx. cbn [orb].
    destruct Hr as [->|Hr]; [reflexivity|].
    cbn [existsb] in Hr. now rewrite Hlm in Hr.
Qed.

Lemma Array_filter_returns lm l :
  l = [] \/ existsb is_null (lm :: l) = false ->
  is_Some (Array_filter (other_id lm) l).
Proof.
  intros [->|Hn]; [cbn; eauto|].
  cbn [existsb] in Hn. apply orb_false_iff in Hn as [Hlm Hl].
  induction l as [|x r IH]; [cbn; eauto|].
  cbn [existsb] in Hl. apply orb_false_iff in Hl as [Hx Hr].
  cbn [Array_filter]. rewrite other_id_spec, Hx, Hlm. cbn [orb].
  destruct (IH Hr) as [kept ->]. eauto.
Qed.

Lemma forallb_perm {A} (p : A -> bool) l l' :
  Permutation l l' -> forallb p l = forallb p l'.
Proof.
  induction 1; cbn [forallb]; try congruence.
  - now rewrite !andb_assoc, (andb_comm (p y)).
Qed.

Lemma distinct_ids_perm l l' :
  Permutation l l' -> distinct_ids l = distinct_ids l'.
Proof.
  induction 1; cbn [distinct_ids forallb].
  - reflexivity.
  - now rewrite IHPermutation, (forallb_perm _ l l').
  - rewrite (same_id_sym y x).
    destruct (same_id x y); cbn [negb andb]; [reflexivity|].
    now rewrite !andb_assoc, (andb_comm (forallb _ l)).
  - congruence.
Qed.

Lemma distinct_ids_filter p l :
  distinct_ids l = true -> distinct_ids (List.filter p l) = true.
Proof.
  induction l as [|x r IH]; [reflexivity|]. cbn [distinct_ids List.filter].
  intros [Hx Hr]%andb_true_iff. destruct (p x); [|now apply IH].
  cbn [distinct_ids]. rewrite (IH Hr), andb_true_r.
  apply forallb_forall. intros y [Hy _]%filter_In.
  exact (proj1 (forallb_forall _ _) Hx y Hy).
Qed.

Lemma distinct_ids_snoc l x :
  distinct_ids l = true ->
  forallb (fun y => negb (same_id y x)) l = true ->
  distinct_ids (l ++ [x]) = true.
Proof.
  induction l as [|y r IH]; [reflexivity|]. cbn [distinct_ids forallb app].
  intros [Hy Hr]%andb_true_iff [Hyx Hrx]%andb_true_iff.
  rewrite (IH Hr Hrx), andb_true_r, forallb_app. cbn [forallb].
  now rewrite Hy, Hyx.
Qed.

(** The value returned: the entries with another [id] and the new logo,
    rearranged by [sort], under [logos]. *)
Lemma addLogoToManifest_inv c manifest lm m' :
  addLogoToManifest c manifest lm = Some m' ->
  exists kept sorted,
    Array_filter (other_id lm) (entries manifest) = Some kept
    /\ sort (kept ++ [lm]) = Some sorted
    /\ lookup_member m' (js "logos") = Some (JArr sorted).
Proof.
  unfold addLogoToManifest, entries.
  rewrite lookup_fill_in_eq.
  set (p := fill_in (js "logos") (JArr []) (spread manifest)).
  assert (forall l,
    match Array_filter (other_id lm) l with
    | Some kept =>
        match sort (kept ++ [lm]) with
        | Some sorted =>
            let updatedManifest := set_prop (js "logos") (JArr sorted) p in
            let updatedManifest :=
              set_prop (js "version") (fresh_version c) updatedManifest in
            let updatedManifest :=
              set_prop (js "lastUpdated") (JStr (iso c)) updatedManifest in
            let updatedManifest :=
              fill_in (js "metadata") (JObj default_metadata)
                updatedManifest in
            match assign_member (lookup_prop (js "metadata") updatedManifest)
                    (js "lastModifiedBy") (JStr (js "Admin Web Interface"))
            with
            | Some (Some metadata) =>
                Some (JObj (set_prop (js "metadata") metadata
                              updatedManifest))
            | _ => None
            end
        | None => None
        end
    | None => None
    end = Some m' ->
    exists kept sorted,
      Array_filter (other_id lm) l = Some kept
      /\ sort (kept ++ [lm]) = Some sorted
      /\ lookup_member m' (js "logos") = Some (JArr sorted)) as Hrest.
  { intros l. destruct (Array_filter _ l) as [kept|]; [|discriminate].
    destruct (sort _) as [sorted|] eqn:Hs; [|discriminate]. cbn zeta.
    destruct (assign_member _ _ _) as [[md|]|]; try discriminate.
    intros [= <-]. exists kept, sorted.
    split; [reflexivity|]. split; [exact Hs|].
    unfold lookup_member, get_member.
    rewrite lookup_set_prop_ne, lookup_fill_in_ne, !lookup_set_prop_ne
      by (vm_compute; discriminate).
    apply lookup_set_prop_eq. }
  destruct (lookup_prop (js "logos") (spread manifest)) as [[|b|q|s|l|o]|];
    cbn [truthy]; try discriminate; try apply Hrest.
  - destruct b; [discriminate|apply Hrest].
  - destruct (Qeq_bool q 0); cbn [negb]; [apply Hrest|discriminate].
  - destruct (jsstr_eqb s []); cbn [negb]; [apply Hrest|discriminate].
Qed.

(** The entries after one [addLogoToManifest]: the new logo and the
    former entries with another [id], with distinct [id]s again. *)
Lemma add_logo_members c manifest lm m' :
  distinct_ids (entries manifest) = true ->
  addLogoToManifest c manifest lm = Some m' ->
  exists l', lookup_member m' (js "logos") = Some (JArr l')
             /\ distinct_ids l' = true
             /\ (length l' <= S (length (entries manifest)))%nat
             /\ (forall x, In x l' <->
                   x = lm \/ (In x (entries manifest) /\ same_id x lm = false)).
Proof.
  intros Hd Hm.
  destruct (addLogoToManifest_inv c manifest lm m' Hm)
    as (kept & sorted & Hk & Hs & Hl).
  apply Array_filter_inv in Hk as [-> _]. apply sort_perm in Hs.
  exists sorted. split; [exact Hl|]. split; [|split].
  - rewrite (distinct_ids_perm _ _ Hs). apply distinct_ids_snoc.
    + now apply distinct_ids_filter.
    + apply forallb_forall. now intros y [_ Hy]%filter_In.
  - rewrite (Permutation_length Hs), length_app. cbn [length].
    pose proof (List.filter_length_le (fun x => negb (same_id x lm))
                  (entries manifest)). lia.
  - intros x.
    assert (In x sorted <-> In x (List.filter (fun x => negb (same_id x lm))
                                    (entries manifest) ++ [lm])) as ->.
    { split; apply Permutation_in; [exact Hs|exact (Permutation_sym Hs)]. }
    rewrite in_app_iff, filter_In, negb_true_iff. cbn [In].
    intuition congruence.
Qed.

Lemma addLogoToManifest_returns c manifest lm :
  is_Some (addLogoToManifest c manifest lm) <-> well_formed manifest lm = true.
Proof.
  unfold addLogoToManifest, well_formed. cbn zeta.
  rewrite lookup_fill_in_eq.
  set (p := fill_in (js "logos") (JArr []) (spread manifest)).
  set (M := lookup_prop (js "metadata") (spread manifest)).
  assert (forall sorted,
    lookup_prop (js "metadata")
      (fill_in (js "metadata") (JObj default_metadata)
         (set_prop (js "lastUpdated") (JStr (iso c))
            (set_prop (js "version") (fresh_version c)
               (set_prop (js "logos") (JArr sorted) p))))
    = if truthy M then M else Some (JObj default_metadata)) as HM.
  { intros sorted. rewrite lookup_fill_in_eq.
    rewrite !lookup_set_prop_ne by (vm_compute; discriminate).
    unfold p. rewrite lookup_fill_in_ne by (vm_compute; discriminate).
    reflexivity. }
  assert (forall l,
    is_Some
      match Array_filter (other_id lm) l with
      | Some kept =>
          match sort (kept ++ [lm]) with
          | Some sorted =>
              match assign_member
                      (lookup_prop (js "metadata")
                         (fill_in (js "metadata") (JObj default_metadata)
                            (set_prop (js "lastUpdated") (JStr (iso c))
                               (set_prop (js "version") (fresh_version c)
                                  (set_prop (js "logos") (JArr sorted) p)))))
                      (js "lastModifiedBy") (JStr (js "Admin Web Interface"))
              with
              | Some (Some metadata) =>
                  Some (JObj (set_prop (js "metadata") metadata
                     (fill_in (js "metadata") (JObj default_metadata)
                        (set_prop (js "lastUpdated") (JStr (iso c))
                           (set_prop (js "version") (fresh_version c)
                              (set_prop (js "logos") (JArr sorted) p))))))
              | _ => None
              end
          | None => None
          end
      | None => None
      end
    <-> (l = [] \/ existsb is_null (lm :: l) = false)
        /\ negb (truthy M) || isObject M = true) as Hrest.
  { intros l. split.
    - destruct (Array_filter _ l) as [kept|] eqn:Hk; [|intros [? [=]]].
      destruct (sort _) as [sorted|]; [|intros [? [=]]].
      rewrite HM. intros Hsome. split; [exact (proj2 (Array_filter_inv _ _ _ Hk))|].
      destruct M as [[|b|q|s|a|o]|]; cbn [truthy negb orb isObject] in *;
        try reflexivity.
      + destruct b; [|reflexivity]. now destruct Hsome as [? [=]].
      + destruct (Qeq_bool q 0); [reflexivity|]. now destruct Hsome as [? [=]].
      + destruct (jsstr_eqb s []); [reflexivity|].
        now destruct Hsome as [? [=]].
    - intros [Hl HMok].
      destruct (Array_filter_returns lm l Hl) as [kept Hk]. rewrite Hk.
      destruct (sort_returns (kept ++ [lm])) as [sorted ->].
      { apply Array_filter_inv in Hk as [-> _].
        destruct Hl as [->|Hn]; [left; cbn; lia|right].
        cbn [existsb] in Hn. apply orb_false_iff in Hn as [Hlm Hn].
        rewrite existsb_app. cbn [existsb]. rewrite Hlm, !orb_false_r.
        apply not_true_is_false. intros (x & Hx & Hnull)%existsb_exists.
        apply filter_In in Hx as [Hx _].
        assert (existsb is_null l = true) as Ht
          by (apply existsb_exists; eauto).
        congruence. }
      rewrite HM.
      destruct M as [[|b|q|s|a|o]|]; cbn [truthy negb orb isObject] in *;
        cbn [assign_member]; eauto; try discriminate.
      + destruct b; [discriminate|cbn; eauto].
      + destruct (Qeq_bool q 0); [cbn; eauto|discriminate].
      + destruct (jsstr_eqb s []); [cbn; eauto|discriminate]. }
  rewrite andb_true_iff.
  destruct (lookup_prop (js "logos") (spread manifest)) as [[|b|q|s|l|o]|];
    cbn [truthy negb].
  - rewrite (Hrest []). intuition.
  - destruct b; cbn [negb].
    + split; [intros [? [=]]|intros [[=] _]].
    + rewrite (Hrest []). intuition.
  - destruct (Qeq_bool q 0); cbn [negb].
    + rewrite (Hrest []). intuition.
    + split; [intros [? [=]]|intros [[=] _]].
  - destruct (jsstr_eqb s []); cbn [negb].
    + rewrite (Hrest []). intuition.
    + split; [intros [? [=]]|intros [[=] _]].
  - rewrite (Hrest l). destruct l as [|x r]; [intuition|].
    rewrite negb_true_iff. intuition discriminate.
  - split; [intros [? [=]]|intros [[=] _]].
  - rewrite (Hrest []). intuition.
Qed.

(** C3, amended.  [addLogoToManifest] returns exactly on the documents
    that are well formed: [logos] is falsy or an array, with no [null]
    among its entries and the new logo unless the array is empty, and
    [metadata] is falsy or an object; on the others it throws a
    [TypeError].  When the document is well formed and the [id]s of its
    entries are pairwise distinct under [===], the [logos] of the
    manifest returned are the new logo and the former entries with
    another [id], with pairwise distinct [id]s again: an entry with the
    [id] of the new logo is removed before the new logo is appended. *)
Theorem addLogoToManifest_unique_ids c manifest lm :
  (is_Some (addLogoToManifest c manifest lm)
   <-> well_formed manifest lm = true)
  /\ (well_formed manifest lm = true ->
      distinct_ids (entries manifest) = true ->
      exists m' l',
        addLogoToManifest c manifest lm = Some m'
        /\ lookup_member m' (js "logos") = Some (JArr l')
        /\ In lm l'
        /\ distinct_ids l' = true
        /\ (forall x, In x l' <->
              x = lm
              \/ (In x (entries manifest) /\ same_id x lm = false))).
Proof.
  split; [apply addLogoToManifest_returns|]. intros Hwf Hd.
  destruct (proj2 (addLogoToManifest_returns c manifest lm) Hwf) as [m' Hm'].
  destruct (add_logo_members c manifest lm m' Hd Hm')
    as (l' & Hl' & Hd' & _ & Hin).
  exists m', l'. repeat split; try assumption; try apply Hin.
  now left.
Qed.

End WithEngine.

Lemma addLogoToManifest_unique_ids_witness :
  exists m' l',
    @addLogoToManifest Examples.as_given Examples.mid_november
      (JObj Examples.two_logos) Examples.acme_new = Some m'
    /\ lookup_member m' (js "logos") = Some (JArr l')
    /\ In Examples.acme_new l'
    /\ distinct_ids l' = true
    /\ (forall x, In x l' <->
          x = Examples.acme_new
          \/ (In x (entries (JObj Examples.two_logos))
              /\ same_id x Examples.acme_new = false)).
Proof.
  apply (proj2 (@addLogoToManifest_unique_ids Examples.as_given
                  Examples.mid_november (JObj Examples.two_logos)
                  Examples.acme_new)); vm_compute; reflexivity.
Defined.

(** The claim of C3 fails for a stored document whose [metadata] is a
    string.  [validateAndFixManifest] keeps the string, the entries of
    the manifest (there is none) have distinct [id]s, and
    [addLogoToManifest] throws at the assignment to
    [metadata.lastModifiedBy]. *)
Lemma addLogoToManifest_throws :
  lookup_member
    (validateAndFixManifest Examples.mid_november Examples.labelled)
    (js "metadata") = Some (JStr (js "v1"))
  /\ distinct_ids
       (entries (validateAndFixManifest Examples.mid_november
                   Examples.labelled)) = true
  /\ @addLogoToManifest Examples.as_given Examples.mid_november
       (validateAndFixManifest Examples.mid_november Examples.labelled)
       Examples.acme = None.
Proof. repeat split; vm_compute; reflexivity. Qed.

Example addLogoToManifest_replaces :
  (m ← @addLogoToManifest Examples.as_given Examples.mid_november
         (JObj Examples.two_logos) Examples.acme_new;
   lookup_member m (js "logos"))
  = Some (JArr [Examples.globex; Examples.acme_new]).
Proof. vm_compute. reflexivity. Qed.

End AddLogo.

(* ================================================================= *)
(** * Further properties *)

(** Closed [Forall] goals over a string literal, one code unit at a time. *)
Ltac each_unit :=
  let c := fresh "c" in
  let Hc := fresh "Hc" in
  apply List.Forall_forall; intros c Hc; vm_compute in Hc;
  repeat (destruct Hc as [<-|Hc]; [reflexivity|]); destruct Hc.

(** ** [TokenManager]: storing and reading back *)

Section TokenStore.
Import Base64 TokenManager.

(** X1.  A token that [storeToken] stored is read back by
    [getStoredToken] on the same machine up to thirty days later, with the
    login and the date of storage, when the token is not empty; the empty
    token is stored as well, but read back as [null].  This holds when
    [localStorage.setItem] takes the item and the platform reads back what
    it wrote: [JSON.parse] inverts [JSON.stringify] on the record, whose
    text is not empty, and the expiry date parses to its own time. *)
Theorem storeToken_getStoredToken `{Platform} `{Printer}
    machineId now later tok userLogin ls :
  hex_string machineId ->
  Forall (fun c => c < 256) tok ->
  (forall stored,
      obfuscateToken machineId tok = Some stored ->
      let r := auth_record machineId now stored (default JNull userLogin) in
      JSON_stringify r <> [] /\ JSON_parse (JSON_stringify r) = Some r) ->
  Date_time (Some (JStr (Date_toISOString (now + thirty_days))))
  = Some (now + thirty_days)%Z ->
  (later <= now + thirty_days)%Z ->
  (storeToken machineId now tok userLogin true ls).1 = true
  /\ (getStoredToken machineId later
        (storeToken machineId now tok userLogin true ls).2).1
     = if bool_decide (tok = []) then None
       else Some {| token := tok;
                    userLogin := Some (default JNull userLogin);
                    storedAt := Some (JStr (Date_toISOString now)) |}.
Proof.
  intros Hkey Htok Hjson Hdate Hlater.
  destruct (deobfuscate_obfuscate_bytes machineId tok) as (o & Ho & Hd);
    [now apply hex_string_bytes|exact Htok|].
  unfold storeToken, setItem. rewrite Ho. cbn [fst snd].
  split; [reflexivity|].
  destruct (Hjson o Ho) as [Hs Hp].
  unfold getStoredToken. rewrite lookup_insert_eq.
  unfold jsstr_eqb at 1. rewrite bool_decide_eq_false_2 by exact Hs.
  rewrite Hp. unfold auth_record at 1.
  replace (get_member _ (js "machineId")) with (Some (Some (JStr machineId)))
    by (unfold auth_record; vm_compute; reflexivity).
  unfold jsstr_eqb at 1. rewrite bool_decide_eq_true_2 by reflexivity.
  cbn [negb].
  replace (lookup_member _ (js "expiresAt"))
    with (Some (JStr (Date_toISOString (now + thirty_days))))
    by (unfold auth_record; vm_compute; reflexivity).
  unfold expired. rewrite Hdate.
  replace (_ <? later)%Z with false by lia.
  replace (lookup_member _ (js "token")) with (Some (JStr o))
    by (unfold auth_record; vm_compute; reflexivity).
  cbn [to_string]. rewrite Hd.
  destruct tok as [|c tok]; [reflexivity|].
  rewrite bool_decide_eq_false_2 by discriminate. cbn [fst]. f_equal.
Qed.

Lemma storeToken_getStoredToken_witness :
  (@storeToken Samples.printer (js "1f") Samples.stored_at (js "abc")
     (Some (JStr (js "octocat"))) true ∅).1 = true
  /\ (@getStoredToken Samples.reader (js "1f") (Samples.stored_at + 86400000)
        (@storeToken Samples.printer (js "1f") Samples.stored_at (js "abc")
           (Some (JStr (js "octocat"))) true ∅).2).1
     = Some {| token := js "abc";
               userLogin := Some (JStr (js "octocat"));
               storedAt := Some (JStr (js "2023-11-14T22:13:20.000Z")) |}.
Proof.
  apply (@storeToken_getStoredToken Samples.reader Samples.printer
           (js "1f") Samples.stored_at (Samples.stored_at + 86400000)
           (js "abc") (Some (JStr (js "octocat"))) ∅).
  - each_unit.
  - each_unit.
  - intros stored Hs. vm_compute in Hs. injection Hs as <-.
    split; [discriminate|vm_compute; reflexivity].
  - vm_compute. reflexivity.
  - vm_compute. discriminate.
Defined.

Lemma getStoredToken_null_storage `{Platform} machineId now ls :
  (getStoredToken machineId now ls).1 = None ->
  (getStoredToken machineId now ls).2 !! storageKey = None
  \/ (getStoredToken machineId now ls).2 !! storageKey = Some [].
Proof.
  unfold getStoredToken, clearToken, jsstr_eqb.
  destruct (ls !! storageKey) as [sd|] eqn:Els; [|auto].
  case_bool_decide as Hsd; [subst sd; auto|].
  repeat (match goal with
          | |- context [match ?x with _ => _ end] => destruct x
          end; cbn [fst snd negb]);
    try discriminate; intros _; left; apply lookup_delete_eq.
Qed.

(** X2.  A null answer of [getStoredToken] is final: on the storage it
    leaves behind, every later call, at whatever time and for whatever
    machine id, answers null again and changes nothing, [hasValidToken]
    is false and [getTokenInfo] is null. *)
Theorem getStoredToken_null_final `{Platform} machineId now ls machineId' later :
  (getStoredToken machineId now ls).1 = None ->
  let ls' := (getStoredToken machineId now ls).2 in
  getStoredToken machineId' later ls' = (None, ls')
  /\ hasValidToken machineId' later ls' = (false, ls')
  /\ getTokenInfo machineId' later ls' = None.
Proof.
  intros Hnull ls'.
  pose proof (getStoredToken_null_storage _ _ _ Hnull) as Hk.
  fold ls' in Hk. clearbody ls'.
  assert (getStoredToken machineId' later ls' = (None, ls')
          /\ getTokenInfo machineId' later ls' = None) as [Hg Hi].
  { unfold getStoredToken, getTokenInfo.
    destruct (ls' !! storageKey) as [sd|]; [|done].
    destruct Hk as [[=]|[= ->]]. done. }
  split; [exact Hg|]. split; [|exact Hi].
  unfold hasValidToken. now rewrite Hg.
Qed.

Lemma getStoredToken_null_final_witness :
  @getStoredToken Samples.reader (js "2e") (Samples.stored_at + 1)
    (@getStoredToken Samples.reader (js "2e") Samples.stored_at
       {[ storageKey := Samples.print_flat Samples.octocat_record ]}).2
  = (None, ∅).
Proof.
  pose proof (@getStoredToken_null_final Samples.reader (js "2e")
                Samples.stored_at
                {[ storageKey := Samples.print_flat Samples.octocat_record ]}
                (js "2e") (Samples.stored_at + 1)) as Hfinal.
  assert ((@getStoredToken Samples.reader (js "2e") Samples.stored_at
             {[ storageKey := Samples.print_flat Samples.octocat_record ]})
          = (None, ∅)) as Hfirst.
  { unfold getStoredToken. rewrite lookup_singleton_eq.
    replace (jsstr_eqb (Samples.print_flat Samples.octocat_record) [])
      with false by (vm_compute; reflexivity).
    replace (@JSON_parse Samples.reader
               (Samples.print_flat Samples.octocat_record))
      with (Some Samples.octocat_record) by (vm_compute; reflexivity).
    replace (get_member Samples.octocat_record (js "machineId"))
      with (Some (Some (JStr (js "1f")))) by (vm_compute; reflexivity).
    replace (jsstr_eqb (js "1f") (js "2e")) with false
      by (vm_compute; reflexivity).
    cbn [negb]. unfold clearToken. now rewrite delete_singleton_eq. }
  rewrite Hfirst in Hfinal. cbn [fst snd] in Hfinal.
  exact (proj1 (Hfinal eq_refl)).
Defined.

(** X3.  [getTokenInfo] agrees with [getStoredToken]: whenever
    [getStoredToken] returns a token, [getTokenInfo] reports, for the
    same storage and time, a record with [hasToken], not expired, for
    this machine, with the same [userLogin] and [storedAt], and
    [hasValidToken] is true; none of the three changes the storage. *)
Theorem getTokenInfo_of_stored_token `{Platform} machineId now ls td :
  (getStoredToken machineId now ls).1 = Some td ->
  (exists expiresAt,
      getTokenInfo machineId now ls
      = Some {| hasToken := true;
                info_userLogin := userLogin td;
                info_storedAt := storedAt td;
                info_expiresAt := expiresAt;
                isExpired := false;
                isForThisMachine := true |})
  /\ hasValidToken machineId now ls = (true, ls)
  /\ (getStoredToken machineId now ls).2 = ls.
Proof.
  unfold hasValidToken, getStoredToken, getTokenInfo, clearToken.
  destruct (ls !! storageKey) as [sd|]; [|discriminate].
  destruct (jsstr_eqb sd []); [discriminate|].
  destruct (JSON_parse sd) as [a|]; [|discriminate].
  unfold lookup_member.
  destruct a; try discriminate. cbn [get_member].
  destruct (lookup_prop (js "machineId") props) as [[]|]; try discriminate.
  destruct (jsstr_eqb s machineId); cbn [negb]; [|discriminate].
  destruct (expired now _); [discriminate|].
  destruct (deobfuscateToken _ _) as [[|c tok]|]; try discriminate.
  cbn [fst snd]. intros [= <-]. cbn [userLogin storedAt].
  split; [eexists; reflexivity|]. split; reflexivity.
Qed.

Lemma getTokenInfo_of_stored_token_witness :
  @hasValidToken Samples.reader (js "1f") Samples.stored_at
    {[ storageKey := Samples.print_flat Samples.octocat_record ]}
  = (true, {[ storageKey := Samples.print_flat Samples.octocat_record ]}).
Proof.
  refine (proj1 (proj2 (@getTokenInfo_of_stored_token Samples.reader
            (js "1f") Samples.stored_at
            {[ storageKey := Samples.print_flat Samples.octocat_record ]}
            {| token := js "abc";
               userLogin := Some (JStr (js "octocat"));
               storedAt := Some (JStr (js "2023-11-14T22:13:20.000Z")) |}
            _))).
  unfold getStoredToken. rewrite lookup_singleton_eq.
  vm_compute. reflexivity.
Defined.

Lemma xor_loop_latin1 key i s :
  Forall (fun c => c < 256) key -> Forall (fun c => c < 65536) s ->
  forallb (fun c => c <=? 255) (xor_loop key i s)
  = forallb (fun c => c <=? 255) s.
Proof.
  intros Hkey Hs. revert i.
  induction Hs as [|c r Hc Hr IH]; intros i; [reflexivity|].
  cbn [xor_loop forallb]. rewrite IH. f_equal.
  assert (exists k, xor_codes c (charCodeAt key (i mod length key)%nat)
                    = N.lxor c k /\ k < 256) as (k & -> & Hk).
  { unfold xor_codes, charCodeAt.
    destruct (nth_error key _) as [k|] eqn:En.
    - exists k. split; [reflexivity|].
      apply nth_error_In in En.
      exact (proj1 (List.Forall_forall _ _) Hkey _ En).
    - exists 0. split; [reflexivity|lia]. }
  unfold fromCharCode.
  assert (N.lxor c k / 256 = c / 256) as Hhigh.
  { change 256 with (2 ^ 8). rewrite <- !N.shiftr_div_pow2, N.shiftr_lxor.
    rewrite (N.shiftr_div_pow2 k). change (2 ^ 8) with 256.
    rewrite (N.div_small k) by lia. apply N.lxor_0_r. }
  assert (N.lxor c k < 65536) as Hlow.
  { assert (c / 256 < 256) by lia. lia. }
  rewrite N.mod_small by lia.
  apply eq_true_iff_eq. rewrite !N.leb_le. lia.
Qed.

(** X4.  [storeToken] fails exactly when the token has a character
    outside Latin-1 or the storage refuses the item: with a machine id of
    hexadecimal digits it returns false when, and only when, some code
    unit of the token is above 255 ([btoa] throws) or
    [localStorage.setItem] throws, and then [localStorage] is as it was;
    otherwise it returns true and the storage has a record under the
    storage key. *)
Theorem storeToken_fails_iff `{Printer} machineId now tok userLogin accepted
    ls :
  hex_string machineId -> Forall (fun c => c < 65536) tok ->
  ((storeToken machineId now tok userLogin accepted ls).1 = false
   <-> Exists (fun c => 255 < c) tok \/ accepted = false)
  /\ ((storeToken machineId now tok userLogin accepted ls).1 = false ->
      (storeToken machineId now tok userLogin accepted ls).2 = ls)
  /\ ((storeToken machineId now tok userLogin accepted ls).1 = true ->
      is_Some ((storeToken machineId now tok userLogin accepted ls).2
                 !! storageKey)).
Proof.
  intros Hkey Htok. unfold storeToken, setItem, obfuscateToken, btoa.
  rewrite (xor_loop_latin1 _ _ _ (hex_string_bytes _ Hkey) Htok).
  destruct (forallb _ tok) eqn:Hall; cbn [fst snd].
  - destruct accepted; cbn [fst snd].
    + repeat split; try discriminate.
      * intros [Hex|[=]]. apply List.Exists_exists in Hex as (c & Hin & Hc).
        pose proof (proj1 (forallb_forall _ _) Hall c Hin) as Hle.
        cbn beta in Hle. lia.
      * intros _. rewrite lookup_insert_eq. eauto.
    + repeat split; try discriminate. auto.
  - repeat split; try discriminate.
    intros _. left. clear -Hall. induction tok as [|c r IH]; [discriminate|].
    cbn [forallb] in Hall. destruct (N.leb_spec c 255).
    + apply List.Exists_cons_tl, IH, Hall.
    + now apply List.Exists_cons_hd.
Qed.

Lemma storeToken_fails_iff_witness :
  @storeToken Samples.printer (js "1f") Samples.stored_at [104; 8364]
    None true ∅ = (false, ∅).
Proof.
  pose proof (@storeToken_fails_iff Samples.printer (js "1f")
                Samples.stored_at [104; 8364] None true ∅) as Hspec.
  destruct Hspec as (Hiff & Hkeep & _); [each_unit|each_unit|].
  assert (Exists (fun c => 255 < c) [104; 8364]) as Hex.
  { apply List.Exists_cons_tl, List.Exists_cons_hd. reflexivity. }
  apply (fun H => proj2 Hiff (or_introl H)) in Hex.
  destruct (@storeToken Samples.printer (js "1f") Samples.stored_at
              [104; 8364] None true ∅) as [b ls'] eqn:E.
  cbn [fst snd] in *. subst b. f_equal. exact (Hkeep eq_refl).
Defined.

End TokenStore.

(** ** [MqttBroker]: histories of calls and events *)

Section BrokerHistories.
Import MqttConfig MqttBroker Laws.

(** Comparisons of two status literals. *)
Local Ltac literals :=
  repeat match goal with
         | |- context [jsstr_eqb (js ?a) (js ?b)] =>
             let v := eval vm_compute in (jsstr_eqb (js a) (js b)) in
             change (jsstr_eqb (js a) (js b)) with v
         end.

(** A method of the broker on a given state. *)
Local Ltac run_method :=
  unfold step, connect, disconnect, on_connect, on_disconnect, on_reconnect,
    on_error, on_message, on_close, lib_set_connected, publishStatus,
    subscribeToDefaultTopics, updateStatus, mbind, act_bind, get, modify,
    tell, mret, act_ret.

Lemma run_app ops1 ops2 b :
  run (ops1 ++ ops2) b
  = let '(_, b1, t1) := run ops1 b in
    let '(x, b2, t2) := run ops2 b1 in (x, b2, t1 ++ t2).
Proof.
  revert b. induction ops1 as [|[e o] ops1 IH]; intros b.
  - cbn [app run]. unfold mret, act_ret.
    destruct (run ops2 b) as [[x b2] t2]. reflexivity.
  - cbn [app run]. unfold mbind, act_bind.
    destruct (step e o b) as [[u b0] t0]. rewrite IH.
    destruct (run ops1 b0) as [[u1 b1] t1].
    destruct (run ops2 b1) as [[x b2] t2].
    now rewrite app_assoc.
Qed.

Lemma run_cons e o ops b :
  run ((e, o) :: ops) b
  = let '(_, b1, t1) := step e o b in
    let '(x, b2, t2) := run ops b1 in (x, b2, t1 ++ t2).
Proof. reflexivity. Qed.

Lemma coherent_step e o b :
  coherent b = true ->
  coherent (step e o b).1.2 = true
  /\ forallb coherent_notice (step e o b).2 = true.
Proof.
  destruct b as [[[[] p]|] [] st ra mx []];
    destruct o as [[msg|]| | | | | | | | |];
    unfold coherent, agrees;
    cbn [connectionStatus connected reconnectAttempts isReconnecting];
    intros Hb; do 3 run_method;
    cbn -[js jsstr_eqb Nat.leb backoff];
    repeat match goal with
           | |- context [match ?x with _ => _ end] =>
               first [is_var x; destruct x
                     | lazymatch x with (_ <=? _)%nat => destruct x end];
               cbn -[js jsstr_eqb Nat.leb backoff]
           end;
    unfold coherent_notice, agrees;
    cbn -[js jsstr_eqb Nat.leb backoff]; literals;
    try (split; reflexivity); try (split; [exact Hb|reflexivity]).
Qed.

(** X5.  After any history of calls and client events on a new broker,
    [connected] agrees with [connectionStatus]: the status ["connected"]
    goes with [connected = true], [reconnectAttempts = 0] and
    [isReconnecting = false], the status ["disconnected"] with
    [connected = false]; and every status callback was told a status and
    a [connected] flag that agree in the same way. *)
Theorem status_agrees_with_connected ops :
  coherent (run ops new_broker).1.2 = true
  /\ forallb coherent_notice (run ops new_broker).2 = true.
Proof.
  assert (forall b, coherent b = true ->
            coherent (run ops b).1.2 = true
            /\ forallb coherent_notice (run ops b).2 = true) as Hrun.
  { induction ops as [|[e o] ops IH]; intros b Hb; [split; [exact Hb|reflexivity]|].
    rewrite run_cons.
    destruct (coherent_step e o b Hb) as [H1 H2].
    destruct (step e o b) as [[u b1] t1]. cbn [fst snd] in *.
    destruct (IH b1 H1) as [H3 H4].
    destruct (run ops b1) as [[x b2] t2]. cbn [fst snd] in *.
    split; [exact H3|]. rewrite forallb_app, H2, H4. reflexivity. }
  apply Hrun. vm_compute. reflexivity.
Qed.

Lemma quiet_step e o b :
  client b = None -> creates_client o = false ->
  client (step e o b).1.2 = None /\ quiet (step e o b).2 = true.
Proof.
  destruct b as [[c|] [] st ra mx []];
    destruct o as [[msg|]| | | | | | | | |];
    cbn [client creates_client]; intros Hc Ho; try discriminate;
    do 3 run_method; cbn -[js Nat.leb backoff];
    repeat match goal with
           | |- context [match ?x with _ => _ end] =>
               first [is_var x; destruct x
                     | lazymatch x with (_ <=? _)%nat => destruct x end];
               cbn -[js Nat.leb backoff]
           end;
    split; reflexivity.
Qed.

(** X6.  Without a client nothing reaches the MQTT library: from a
    broker whose [client] is [null], any history without a successful
    [connect()] leaves [client] at [null] and neither connects, publishes,
    subscribes nor ends a client, whatever stale events of an earlier
    client arrive. *)
Theorem no_client_no_traffic ops b :
  client b = None ->
  forallb (fun eo => negb (creates_client eo.2)) ops = true ->
  client (run ops b).1.2 = None /\ quiet (run ops b).2 = true.
Proof.
  revert b. induction ops as [|[e o] ops IH]; intros b Hb Hops;
    [split; [exact Hb|reflexivity]|].
  cbn [forallb snd] in Hops. apply andb_true_iff in Hops as [Ho Hops].
  apply negb_true_iff in Ho.
  rewrite run_cons. destruct (quiet_step e o b Hb Ho) as [H1 H2].
  destruct (step e o b) as [[u b1] t1]. cbn [fst snd] in *.
  destruct (IH b1 H1 Hops) as [H3 H4].
  destruct (run ops b1) as [[x b2] t2]. cbn [fst snd] in *.
  split; [exact H3|]. unfold quiet in *. rewrite forallb_app, H2, H4.
  reflexivity.
Qed.

Lemma no_client_no_traffic_witness :
  quiet (run [(Examples.mqtt_env, CallDisconnect);
              (Examples.mqtt_env, EvConnect false);
              (Examples.mqtt_env, CallPublishStatus (js "online"));
              (Examples.mqtt_env, EvReconnect)]
           (run [(Examples.mqtt_env, CallConnect None);
                 (Examples.mqtt_env, EvConnect true);
                 (Examples.mqtt_env, CallDisconnect)] new_broker).1.2).2
  = true.
Proof.
  apply no_client_no_traffic; vm_compute; reflexivity.
Defined.

Lemma reconnects_below_max es b :
  (reconnectAttempts b + length es < maxReconnectAttempts b)%nat ->
  let r := run (reconnects es) b in
  client r.1.2 = client b
  /\ connected r.1.2 = connected b
  /\ maxReconnectAttempts r.1.2 = maxReconnectAttempts b
  /\ reconnectAttempts r.1.2 = (reconnectAttempts b + length es)%nat
  /\ quiet r.2 = true
  /\ (es <> [] -> connectionStatus r.1.2 = js "reconnecting").
Proof.
  revert b. induction es as [|e es IH]; intros b Hlt.
  - cbn. repeat split; try lia. congruence.
  - cbn [reconnects List.map length] in *. fold (reconnects es).
    cbn zeta. rewrite run_cons.
    assert (step e EvReconnect b
            = (tt,
               set_connectionStatus (js "reconnecting")
                 (set_isReconnecting true
                    (set_reconnectAttempts (S (reconnectAttempts b)) b)),
               [ALogReconnect (S (reconnectAttempts b))
                  (maxReconnectAttempts b)
                  (backoff (S (reconnectAttempts b) - 1));
                ANotifyStatus
                  {| sd_status := js "reconnecting";
                     sd_connected := connected b;
                     sd_reconnectAttempts := S (reconnectAttempts b);
                     sd_error := None;
                     sd_timestamp := now e |}])) as ->.
    { do 3 run_method. cbn -[js Nat.leb backoff Nat.sub].
      destruct (Nat.leb_spec (maxReconnectAttempts b)
                  (S (reconnectAttempts b))); [lia|reflexivity]. }
    set (b1 := set_connectionStatus _ _).
    specialize (IH b1). cbn zeta in IH.
    destruct IH as (H1 & H2 & H3 & H4 & H5 & H6); [cbn; lia|].
    assert (es = [] -> (run (reconnects es) b1).1.2 = b1) as Hnil
      by (intros ->; reflexivity).
    destruct (run (reconnects es) b1) as [[x b2] t2]. cbn [fst snd] in *.
    repeat split; try assumption.
    + rewrite H4. cbn. lia.
    + intros _. destruct es as [|e' es]; [|apply H6; discriminate].
      now rewrite Hnil.
Qed.

(** X7.  The ["reconnect"] handler gives up at [maxReconnectAttempts]:
    consecutive ["reconnect"] events leave the client in place and send
    nothing as long as the count stays below the maximum; the event that
    reaches the maximum publishes the offline notice (when connected),
    ends the client, drops it and leaves the status ["error"] with
    [connected = false]. *)
Theorem reconnects_give_up es e b c :
  client b = Some c ->
  (reconnectAttempts b + S (length es))%nat = maxReconnectAttempts b ->
  let before := run (reconnects es) b in
  let after := run (reconnects (es ++ [e])) b in
  (client before.1.2 = Some c /\ quiet before.2 = true)
  /\ client after.1.2 = None
  /\ connected after.1.2 = false
  /\ connectionStatus after.1.2 = js "error"
  /\ reconnectAttempts after.1.2 = maxReconnectAttempts b
  /\ List.filter network after.2
     = (if connected b
        then [APublish MQTT_TOPICS.status (status_message e (js "offline")) 1]
        else []) ++ [AEnd].
Proof.
  intros Hc Hmax before after.
  destruct (reconnects_below_max es b ltac:(lia))
    as (H1 & H2 & H3 & H4 & H5 & _). fold before in H1, H2, H3, H4, H5.
  split; [split; [congruence|exact H5]|].
  subst after. unfold reconnects. rewrite List.map_app. fold (reconnects es).
  rewrite run_app. fold before.
  destruct before as [[u b1] t1]. cbn [fst snd] in *.
  cbn [List.map run]. unfold mbind at 1, act_bind at 1.
  unfold mret, act_ret.
  assert (List.filter network t1 = []) as Hq.
  { clear -H5. induction t1 as [|a t IH]; [reflexivity|].
    cbn [quiet forallb] in H5. apply andb_true_iff in H5 as [Ha Ht].
    cbn [List.filter]. apply negb_true_iff in Ha. rewrite Ha. now apply IH. }
  destruct b1 as [c1 conn1 st1 ra1 mx1 rec1]. cbn in H1, H2, H3, H4.
  subst c1 conn1 mx1 ra1. rewrite Hc.
  do 3 run_method. cbn -[js Nat.leb backoff Nat.sub].
  destruct (Nat.leb_spec (maxReconnectAttempts b)
              (S (reconnectAttempts b + length es))); [|lia].
  destruct (connected b); cbn -[js backoff Nat.sub];
    rewrite List.filter_app, Hq; repeat split; try reflexivity; lia.
Qed.

Lemma reconnects_give_up_witness :
  client (run ((Examples.mqtt_env, CallConnect None)
               :: reconnects (repeat Examples.mqtt_env 10)) new_broker).1.2
  = None.
Proof.
  pose proof (reconnects_give_up (repeat Examples.mqtt_env 9)
                Examples.mqtt_env
                (run [(Examples.mqtt_env, CallConnect None)] new_broker).1.2
                {| client_connected := false;
                   client_reconnectPeriod := backoff 0 |}
                eq_refl eq_refl) as Hgive.
  cbn zeta in Hgive. destruct Hgive as (_ & Hnone & _).
  rewrite run_cons.
  change (repeat Examples.mqtt_env 10)
    with (repeat Examples.mqtt_env 9 ++ [Examples.mqtt_env]).
  destruct (step Examples.mqtt_env (CallConnect None) new_broker)
    as [[u b1] t1] eqn:E.
  assert ((run [(Examples.mqtt_env, CallConnect None)] new_broker).1.2 = b1)
    as Hb1.
  { rewrite run_cons, E. reflexivity. }
  rewrite Hb1 in Hnone.
  destruct (run (reconnects (repeat Examples.mqtt_env 9 ++ [Examples.mqtt_env])) b1)
    as [[x b2] t2]. exact Hnone.
Defined.

(** X8.  [disconnect()] ends the client once: afterwards the broker has
    no client, so that a second [disconnect()] does nothing at all; with
    a client the only traffic is the offline notice, published before the
    client is ended and only when connected, and the broker is left
    ["disconnected"] with [connected = false]; without a client nothing
    is sent. *)
Theorem disconnect_once e e' b :
  let r := disconnect e b in
  client r.1.2 = None
  /\ disconnect e' r.1.2 = (tt, r.1.2, [])
  /\ List.filter network r.2
     = match client b with
       | Some _ =>
           (if connected b
            then [APublish MQTT_TOPICS.status
                    (status_message e (js "offline")) 1]
            else []) ++ [AEnd]
       | None => []
       end
  /\ (is_Some (client b) ->
      connected r.1.2 = false /\ connectionStatus r.1.2 = js "disconnected").
Proof.
  destruct b as [[c|] [] st ra mx rec]; do 3 run_method;
    cbn -[js]; (split; [reflexivity|]); (split; [reflexivity|]);
    (split; [reflexivity|]);
    first [intros _; split; reflexivity | intros [? [=]]].
Qed.

End BrokerHistories.

(** ** [DeviceControlService]: one update at a time *)

Section DeviceUpdates.
Import MqttConfig DeviceControlService Laws.





End DeviceUpdates.

(** ** [UpdateService]: the life of an update *)

Section UpdateLife.
Import Numbers UpdateService Laws.
Context `{Platform} `{Numbers}.

Lemma apply_calls_app cs1 cs2 s :
  apply_calls (cs1 ++ cs2) s
  = let '(s1, t1) := apply_calls cs1 s in
    let '(s2, t2) := apply_calls cs2 s1 in (s2, t1 ++ t2).
Proof.
  revert s. induction cs1 as [|c cs1 IH]; intros s.
  - cbn [app apply_calls]. now destruct (apply_calls cs2 s).
  - cbn [app apply_calls]. destruct (apply_call c s) as [s0 t0].
    rewrite IH. destruct (apply_calls cs1 s0) as [s1 t1].
    destruct (apply_calls cs2 s1) as [s2 t2]. now rewrite app_assoc.
Qed.

Lemma count_app f t1 t2 : count f (t1 ++ t2) = (count f t1 + count f t2)%nat.
Proof. unfold count. now rewrite List.filter_app, length_app. Qed.

Lemma forallb_map_sent (f : notice -> bool) t :
  (forall e, f (Sent e) = true) -> forallb f (List.map Sent t) = true.
Proof.
  intros Hf. induction t as [|e t IH]; [reflexivity|].
  cbn [List.map forallb]. now rewrite Hf, IH.
Qed.

Lemma count_sent_success t : count is_success (List.map Sent t) = 0%nat.
Proof. induction t as [|e t IH]; [reflexivity|exact IH]. Qed.

(** What one call keeps: a started update stays well started, a
    ["success"] names a checked version, and completions stay covered by
    published commands. *)
Lemma life_step c s :
  well_started s = true ->
  well_started (apply_call c s).1 = true
  /\ forallb success_named (apply_call c s).2 = true
  /\ (count is_success (apply_call c s).2
       + (if updateInProgress (apply_call c s).1 then 1 else 0)
      <= count is_command (apply_call c s).2
         + (if updateInProgress s then 1 else 0))%nat.
Proof.
  intros Hs. destruct c as [w version|st|now st|]; cbn [apply_call].
  - pose proof (forallb_map_sent success_named
                  (triggerUpdate w version s).2 (fun _ => eq_refl)) as Hn.
    pose proof (count_sent_success (triggerUpdate w version s).2) as Hz.
    assert (well_started (triggerUpdate w version s).1.2 = true
            /\ ((if updateInProgress (triggerUpdate w version s).1.2
                 then 1 else 0)
                <= count is_command
                     (List.map Sent (triggerUpdate w version s).2)
                   + (if updateInProgress s then 1 else 0))%nat) as [Hw Hc].
    { unfold triggerUpdate, trigger_failed.
      destruct (invalid_version version) as [[]|] eqn:Hv;
        try (cbn; split; [exact Hs|lia]).
      destruct (updateInProgress s) eqn:Hp;
        [cbn; rewrite Hp; split; [exact Hs|lia]|].
      destruct (MqttClient w) as [[]|]; [destruct (publish_failure w)| |];
        cbn [fst snd]; unfold well_started, valid_version;
        cbn -[js]; rewrite ?Hv; split; try reflexivity; lia. }
    destruct (triggerUpdate w version s) as [[o s'] tr].
    cbn [fst snd] in *. rewrite Hz. repeat split; try assumption.
  - unfold handleUpdateStatus.
    destruct (updateInProgress s) eqn:Hp; cbn [negb];
      [|cbn; rewrite Hp; repeat split; [exact Hs|lia]].
    destruct (get_member st (js "status")) as [[[]|]|];
      try (cbn; rewrite Hp; repeat split; [exact Hs|lia]).
    repeat (destruct (jsstr_eqb _ _);
            [cbn -[js]; rewrite ?Hp; repeat split; solve [exact Hs|lia]|]).
    cbn; rewrite Hp; repeat split; [exact Hs|lia].
  - unfold handleResetStatus.
    destruct (updateInProgress s) eqn:Hp; cbn [negb];
      [|cbn; rewrite Hp; repeat split; [exact Hs|lia]].
    destruct (get_member st (js "status")) as [[[]|]|];
      try (cbn; rewrite Hp; repeat split; [exact Hs|lia]).
    destruct (jsstr_eqb _ _);
      [|cbn; rewrite Hp; repeat split; [exact Hs|lia]].
    unfold well_started in Hs. rewrite Hp in Hs.
    apply andb_true_iff in Hs as [Hv _].
    cbn -[js]. rewrite Hv. repeat split. lia.
  - cbn. repeat split. destruct (updateInProgress s); lia.
Qed.

Lemma life_calls cs s :
  well_started s = true ->
  well_started (apply_calls cs s).1 = true
  /\ forallb success_named (apply_calls cs s).2 = true
  /\ (count is_success (apply_calls cs s).2
       + (if updateInProgress (apply_calls cs s).1 then 1 else 0)
      <= count is_command (apply_calls cs s).2
         + (if updateInProgress s then 1 else 0))%nat.
Proof.
  revert s. induction cs as [|c cs IH]; intros s Hs.
  - cbn. repeat split; [exact Hs|lia].
  - cbn [apply_calls]. destruct (life_step c s Hs) as (H1 & H2 & H3).
    destruct (apply_call c s) as [s1 t1]. cbn [fst snd] in *.
    destruct (IH s1 H1) as (H4 & H5 & H6).
    destruct (apply_calls cs s1) as [s2 t2]. cbn [fst snd] in *.
    rewrite forallb_app, !count_app, H2, H5. repeat split; [exact H4|lia].
Qed.

(** X11.  After any history of calls and device messages on a new
    service, an update in progress has a version that passed the check
    of [triggerUpdate] (a string with a character other than white
    space) and a start time; hence every ["success"] event emitted names
    such a version. *)
Theorem update_in_progress_well_started cs :
  well_started (apply_calls cs new_service).1 = true
  /\ forallb success_named (apply_calls cs new_service).2 = true.
Proof.
  destruct (life_calls cs new_service eq_refl) as (H1 & H2 & _). now split.
Qed.

(** X12.  The service never reports more completed updates than it
    published commands: in every history on a new service the number of
    ["success"] events, plus one when an update is in progress at the
    end, is at most the number of [force_update] commands published. *)
Theorem successes_covered_by_commands cs :
  (count is_success (apply_calls cs new_service).2
   + (if updateInProgress (apply_calls cs new_service).1 then 1 else 0)
   <= count is_command (apply_calls cs new_service).2)%nat.
Proof.
  destruct (life_calls cs new_service eq_refl) as (_ & _ & H3).
  cbn [updateInProgress new_service] in H3. lia.
Qed.


End UpdateLife.

Section UpdateLifeExamples.
Import Numbers UpdateService Laws.


End UpdateLifeExamples.

(** ** [makeApiRequest]: the attempt that decides *)

Section DecisiveAttempt.
Import GitHubUploadService Laws.

Lemma waited_app t1 t2 : waited (t1 ++ t2) = (waited t1 + waited t2)%Z.
Proof.
  induction t1 as [|[u o|ms] t1 IH]; cbn [app waited fold_right] in *;
    [reflexivity|exact IH|].
  fold (waited (t1 ++ t2)). fold (waited t1). lia.
Qed.

Lemma delay_count_app t1 t2 :
  delay_count (t1 ++ t2) = (delay_count t1 + delay_count t2)%nat.
Proof. unfold delay_count. now rewrite List.filter_app, length_app. Qed.

(** One attempt that is retried: a fetch, one delay, and the rest of the
    loop. *)
Lemma attempts_retried net url o retries k :
  (retries - k <> retries)%nat ->
  retried (net (retries - k)%nat) = true ->
  exists ms,
    (0 <= ms <= 5000 * Z.of_nat (retries - k))%Z
    /\ attempts net url o retries (S k)
       = ((attempts net url o retries k).1,
          Fetch url o :: Delay ms :: (attempts net url o retries k).2).
Proof.
  intros Hlast Hr. cbn [attempts].
  apply Nat.eqb_neq in Hlast.
  destruct (attempts net url o retries k) as [res t'].
  unfold try_block. destruct (net (retries - k)%nat) as [m|r]; cbn [retried] in Hr.
  - apply negb_true_iff in Hr. rewrite Hlast, Hr. cbn [orb].
    eexists. split; [|reflexivity]. lia.
  - apply andb_true_iff in Hr as [Hok H401].
    apply negb_true_iff in Hok, H401. rewrite Hok, H401.
    destruct (status r =? 403)%Z.
    { destruct (mentions_rate_limit r) as [[]|].
      - eexists. split; [|reflexivity]. lia.
      - rewrite Hlast.
        replace (includes _ (js "Authentication failed")) with false
          by (vm_compute; reflexivity).
        eexists. split; [|reflexivity]. lia.
      - rewrite Hlast.
        replace (includes _ (js "Authentication failed")) with false
          by (vm_compute; reflexivity).
        eexists. split; [|reflexivity]. lia. }
    destruct (status r =? 404)%Z.
    { rewrite Hlast.
      replace (includes _ (js "Authentication failed")) with false
        by (vm_compute; reflexivity).
      eexists. split; [|reflexivity]. lia. }
    rewrite Hlast. eexists. split; [|reflexivity]. lia.
Qed.

(** The attempts before the deciding one: [n] retried attempts with
    [S k] more to go. *)
Lemma attempts_skip net url o retries n k :
  (n + S k <= retries)%nat ->
  (forall i, (retries - (n + k) <= i < retries - k)%nat ->
             retried (net i) = true) ->
  exists pre,
    attempts net url o retries (n + S k)
    = ((attempts net url o retries (S k)).1,
       pre ++ (attempts net url o retries (S k)).2)
    /\ fetch_count pre = n /\ delay_count pre = n.
Proof.
  induction n as [|n IH]; intros Hle Hnet.
  - exists []. split; [|split; reflexivity].
    cbn [Nat.add app]. now destruct (attempts net url o retries (S k)).
  - destruct IH as (pre & Heq & Hf & Hd); [lia|intros i Hi; apply Hnet; lia|].
    destruct (attempts_retried net url o retries (n + S k))
      as (ms & _ & Hstep); [lia|apply Hnet; lia|].
    change (S n + S k)%nat with (S (n + S k)). rewrite Hstep, Heq.
    exists (Fetch url o :: Delay ms :: pre). cbn [fst snd].
    split; [reflexivity|]. split.
    + rewrite fetch_count_cons_fetch, fetch_count_cons_delay. now rewrite Hf.
    + unfold delay_count in *. cbn [List.filter length]. now rewrite Hd.
Qed.

(** X14.  The first [ok] response wins: when attempt [a], within the
    retries, is answered by an [ok] response and every attempt before
    it by an answer that is retried, [makeApiRequest] resolves with that
    response after exactly [a] fetches and [a - 1] delays. *)
Theorem makeApiRequest_first_success token net url options retries a r :
  (1 <= a <= default 3 retries)%nat ->
  (forall i, (1 <= i < a)%nat -> retried (net i) = true) ->
  net a = Response r -> ok r = true ->
  let res := makeApiRequest token net url options retries in
  res.1 = Resolved (Some r)
  /\ fetch_count res.2 = a
  /\ delay_count res.2 = (a - 1)%nat.
Proof.
  intros Ha Hnet Hr Hok. unfold makeApiRequest.
  set (n := default 3%nat retries) in *.
  set (o := defaultOptions token (default no_options options)).
  destruct (attempts_skip net url o n (a - 1) (n - a)) as (pre & Heq & Hf & Hd);
    [lia|intros i Hi; apply Hnet; lia|].
  replace (a - 1 + S (n - a))%nat with n in Heq by lia.
  cbn zeta. rewrite Heq. cbn [attempts].
  replace (n - (n - a))%nat with a by lia.
  unfold try_block. rewrite Hr, Hok. cbn [fst snd].
  split; [reflexivity|].
  rewrite fetch_count_app, delay_count_app, Hf, Hd. cbn. lia.
Qed.

Lemma makeApiRequest_first_success_witness :
  (makeApiRequest (js "ghp_token") RequestSamples.third_time_lucky
     Examples.user_url None None).1
  = Resolved (Some RequestSamples.user_found).
Proof.
  apply (makeApiRequest_first_success (js "ghp_token")
           RequestSamples.third_time_lucky Examples.user_url None None 3
           RequestSamples.user_found).
  - cbn. lia.
  - intros [|[|[|i]]] Hi; try lia; vm_compute; reflexivity.
  - reflexivity.
  - reflexivity.
Defined.

(** X15.  A 401 answer stops the retries: when attempt [a] is answered
    by a response with status 401 and every attempt before it by an
    answer that is retried, [makeApiRequest] rejects with
    ["Authentication failed - Invalid token"] after exactly [a] fetches,
    without waiting after the last one. *)
Theorem makeApiRequest_unauthorized_stops token net url options retries a r :
  (1 <= a <= default 3 retries)%nat ->
  (forall i, (1 <= i < a)%nat -> retried (net i) = true) ->
  net a = Response r -> status r = 401%Z ->
  let res := makeApiRequest token net url options retries in
  res.1 = Rejected (js "Authentication failed - Invalid token")
  /\ fetch_count res.2 = a
  /\ delay_count res.2 = (a - 1)%nat
  /\ last res.2
     = Some (Fetch url (defaultOptions token (default no_options options))).
Proof.
  intros Ha Hnet Hr Hst. unfold makeApiRequest.
  set (n := default 3%nat retries) in *.
  set (o := defaultOptions token (default no_options options)).
  destruct (attempts_skip net url o n (a - 1) (n - a)) as (pre & Heq & Hf & Hd);
    [lia|intros i Hi; apply Hnet; lia|].
  replace (a - 1 + S (n - a))%nat with n in Heq by lia.
  cbn zeta. rewrite Heq. cbn [attempts].
  replace (n - (n - a))%nat with a by lia.
  unfold try_block, ok. rewrite Hr, Hst.
  change ((200 <=? 401)%Z && (401 <=? 299)%Z) with false.
  change (401 =? 401)%Z with true. cbn iota.
  replace (includes (js "Authentication failed - Invalid token")
             (js "Authentication failed")) with true
    by (vm_compute; reflexivity).
  rewrite orb_true_r. cbn [fst snd].
  split; [reflexivity|].
  rewrite fetch_count_app, delay_count_app, Hf, Hd, last_snoc.
  cbn. repeat split; lia.
Qed.

Lemma makeApiRequest_unauthorized_stops_witness :
  (makeApiRequest (js "ghp_token") RequestSamples.refused_on_second
     Examples.user_url None None).1
  = Rejected (js "Authentication failed - Invalid token")
  /\ fetch_count (makeApiRequest (js "ghp_token")
                    RequestSamples.refused_on_second
                    Examples.user_url None None).2 = 2%nat.
Proof.
  destruct (makeApiRequest_unauthorized_stops (js "ghp_token")
              RequestSamples.refused_on_second Examples.user_url None None 2
              RequestSamples.unauthorized) as (H1 & H2 & _).
  - cbn. lia.
  - intros [|[|i]] Hi; try lia; vm_compute; reflexivity.
  - reflexivity.
  - reflexivity.
  - split; assumption.
Defined.

Lemma try_block_waited attempt retries f :
  (0 <= waited (try_block attempt retries f).2 <= 5000 * Z.of_nat attempt)%Z
  /\ match (try_block attempt retries f).1 with
     | TryThrow _ => (try_block attempt retries f).2 = []
     | _ => True
     end.
Proof.
  pose proof (try_block_cases attempt retries f) as Htb.
  destruct (try_block attempt retries f) as [[r| |m|] t]; cbn [fst snd].
  - destruct Htb as (_ & _ & ->). cbn. lia.
  - destruct Htb as (r & _ & _ & _ & _ & ->). cbn. lia.
  - subst t. cbn. split; [lia|reflexivity].
  - destruct Htb as (_ & ->). cbn. lia.
Qed.

Lemma attempts_waited net url o retries k :
  (k <= retries)%nat ->
  (0 <= 2 * waited (attempts net url o retries k).2
   <= 5000 * Z.of_nat k * (2 * Z.of_nat retries - Z.of_nat k + 1))%Z.
Proof.
  induction k as [|k IH]; intros Hk; [cbn; lia|].
  specialize (IH ltac:(lia)). cbn [attempts].
  pose proof (try_block_waited (retries - k) retries (net (retries - k)%nat))
    as [Hw Ht].
  destruct (try_block _ _ _) as [e t]. cbn [fst snd] in *.
  destruct (attempts net url o retries k) as [res t']. cbn [snd] in IH.
  assert (forall x, waited (Fetch url o :: x) = waited x) as Hfetch
    by reflexivity.
  assert (forall ms x, waited (Delay ms :: x) = (ms + waited x)%Z) as Hdelay
    by reflexivity.
  destruct e as [r| |m|]; cbn [snd].
  - rewrite (Hfetch t). nia.
  - cbn [app]. rewrite (Hfetch (t ++ t')), waited_app. nia.
  - subst t. destruct (_ || _); cbn [snd app].
    + rewrite (Hfetch []). cbn. nia.
    + rewrite (Hfetch (Delay (2000 * Z.of_nat (retries - k)) :: t')),
        (Hdelay (2000 * Z.of_nat (retries - k))%Z t'). nia.
  - cbn [app]. rewrite (Hfetch (t ++ t')), waited_app. nia.
Qed.

(** X16.  The time [makeApiRequest] spends waiting is bounded by the
    rate-limit delays of all attempts, [5000 * (1 + ... + retries)]
    milliseconds: at most thirty seconds for the default three
    retries. *)
Theorem makeApiRequest_waiting_bound token net url options retries :
  let n := Z.of_nat (default 3%nat retries) in
  (0 <= 2 * waited (makeApiRequest token net url options retries).2
   <= 5000 * n * (n + 1))%Z
  /\ (retries = None ->
      (waited (makeApiRequest token net url options retries).2 <= 30000)%Z).
Proof.
  cbn zeta. unfold makeApiRequest.
  pose proof (attempts_waited net url
                (defaultOptions token (default no_options options))
                (default 3%nat retries) (default 3%nat retries)
                (Nat.le_refl _)) as Hw.
  split; [nia|]. intros ->. cbn [default] in *. lia.
Qed.

End DecisiveAttempt.

(** ** Names and ids of logo files *)

Section LogoNames.
Import GitHubService Laws.
Context `{Casing}.

Lemma dash_unless_allowed x : forallb allowed (dash_unless lower_alnum x) = true.
Proof.
  induction x as [|c x IH]; [reflexivity|].
  cbn [dash_unless List.map forallb]. fold (dash_unless lower_alnum x).
  rewrite IH, andb_true_r. unfold allowed.
  destruct (lower_alnum c) eqn:Hc; [now rewrite Hc|reflexivity].
Qed.

Lemma squeeze_start s : starts_with_dash (squeeze s) = starts_with_dash s.
Proof.
  induction s as [|c r IH]; [reflexivity|]. cbn [squeeze].
  destruct (c =? dash) eqn:Hc; cbn [andb]; [|reflexivity].
  destruct (starts_with_dash r) eqn:Hd; [|reflexivity].
  rewrite IH. cbn [starts_with_dash]. now rewrite Hc.
Qed.

Lemma squeeze_allowed (P : N -> bool) s :
  forallb P s = true -> forallb P (squeeze s) = true.
Proof.
  induction s as [|c r IH]; [reflexivity|]. cbn [forallb squeeze].
  intros [Hc Hr]%andb_true_iff. destruct (_ && _); [auto|].
  cbn [forallb]. now rewrite Hc, IH.
Qed.

Lemma no_double_dash_cons c s :
  no_double_dash (c :: s)
  = negb ((c =? dash) && starts_with_dash s) && no_double_dash s.
Proof. reflexivity. Qed.

Lemma squeeze_no_double_dash s : no_double_dash (squeeze s) = true.
Proof.
  induction s as [|c r IH]; [reflexivity|]. cbn [squeeze].
  destruct ((c =? dash) && starts_with_dash r) eqn:Hd; [exact IH|].
  rewrite no_double_dash_cons, squeeze_start, Hd, IH. reflexivity.
Qed.

Lemma drop_trailing_dash_cons c d r :
  drop_trailing_dash (c :: d :: r) = c :: drop_trailing_dash (d :: r).
Proof. reflexivity. Qed.

Lemma drop_trailing_dash_allowed (P : N -> bool) s :
  forallb P s = true -> forallb P (drop_trailing_dash s) = true.
Proof.
  induction s as [|c s IH]; [reflexivity|]. destruct s as [|d r].
  - cbn. destruct (c =? dash); [reflexivity|]. cbn. auto.
  - intros [Hc Hr]%andb_true_iff. rewrite drop_trailing_dash_cons.
    cbn [forallb]. now rewrite Hc, IH.
Qed.

Lemma drop_trailing_dash_start s :
  no_double_dash s = true -> starts_with_dash s = false ->
  starts_with_dash (drop_trailing_dash s) = false.
Proof.
  destruct s as [|c [|d r]]; [reflexivity| |].
  - cbn. intros _ Hc. now rewrite Hc.
  - intros _ Hc. exact Hc.
Qed.

Lemma drop_trailing_dash_no_double s :
  no_double_dash s = true -> no_double_dash (drop_trailing_dash s) = true.
Proof.
  induction s as [|c s IH]; [reflexivity|]. destruct s as [|d r].
  - intros _. cbn [drop_trailing_dash].
    destruct (c =? dash) eqn:Hc; [reflexivity|].
    now rewrite no_double_dash_cons, Hc.
  - rewrite drop_trailing_dash_cons, !no_double_dash_cons.
    intros [Hcd Hr]%andb_true_iff. rewrite (IH Hr), andb_true_r.
    destruct (c =? dash) eqn:Hc; [|reflexivity]. cbn [andb] in *.
    apply negb_true_iff in Hcd. apply negb_true_iff.
    now apply drop_trailing_dash_start.
Qed.

Lemma drop_trailing_dash_end s :
  no_double_dash s = true ->
  (List.last (drop_trailing_dash s) 0 =? dash) = false.
Proof.
  induction s as [|c s IH]; [reflexivity|]. destruct s as [|d r].
  - intros _. cbn [drop_trailing_dash].
    destruct (c =? dash) eqn:Hc; [reflexivity|exact Hc].
  - rewrite no_double_dash_cons. intros [Hcd Hr]%andb_true_iff.
    rewrite drop_trailing_dash_cons. specialize (IH Hr).
    destruct (drop_trailing_dash (d :: r)) as [|x y] eqn:E; [|exact IH].
    cbn [List.last].
    destruct r as [|e r']; [|discriminate E].
    cbn in E. destruct (d =? dash) eqn:Hd; [|discriminate].
    cbn [starts_with_dash] in Hcd. rewrite Hd, andb_true_r in Hcd.
    now apply negb_true_iff in Hcd.
Qed.

Lemma trim_dashes_slug s :
  forallb allowed s = true -> no_double_dash s = true ->
  slug (trim_dashes s) = true.
Proof.
  intros Ha Hn. unfold slug, trim_dashes.
  assert (forallb allowed (drop_leading_dash s) = true
          /\ no_double_dash (drop_leading_dash s) = true
          /\ starts_with_dash (drop_leading_dash s) = false)
    as (Ha' & Hn' & Hs').
  { destruct s as [|c r]; [repeat split|]. cbn [drop_leading_dash].
    rewrite no_double_dash_cons in Hn. cbn [forallb] in Ha.
    apply andb_true_iff in Ha as [Hc Hr], Hn as [Hcd Hnr].
    destruct (c =? dash) eqn:Hd.
    - cbn [andb] in Hcd. apply negb_true_iff in Hcd. auto.
    - repeat split.
      + cbn [forallb]. now rewrite Hc, Hr.
      + rewrite no_double_dash_cons, Hd, Hnr. reflexivity.
      + exact Hd. }
  rewrite (drop_trailing_dash_allowed _ _ Ha'),
    (drop_trailing_dash_no_double _ Hn'), (drop_trailing_dash_end _ Hn').
  now rewrite (drop_trailing_dash_start _ Hn' Hs').
Qed.

(** X17.  [generateLogoId] returns a slug, whatever the file name and
    whatever [toLowerCase] does: lower-case ASCII letters, digits and
    dashes only, no two dashes in a row, no dash at the start or at the
    end (the id may be empty). *)
Theorem generateLogoId_slug filename : slug (generateLogoId filename) = true.
Proof.
  unfold generateLogoId. apply trim_dashes_slug.
  - apply squeeze_allowed, dash_unless_allowed.
  - apply squeeze_no_double_dash.
Qed.

Lemma generateLogoId_slug_parts filename :
  let i := generateLogoId filename in
  forallb allowed i = true /\ no_double_dash i = true
  /\ starts_with_dash i = false /\ (List.last i 0 =? dash) = false.
Proof.
  cbn zeta.
  assert (slug (generateLogoId filename) = true) as Hs.
  { unfold generateLogoId. apply trim_dashes_slug.
    - apply squeeze_allowed, dash_unless_allowed.
    - apply squeeze_no_double_dash. }
  unfold slug in Hs.
  apply andb_true_iff in Hs as [Hs He]. apply andb_true_iff in Hs as [Hs Hd].
  apply andb_true_iff in Hs as [Ha Hn].
  apply negb_true_iff in He, Hd. auto.
Qed.

Lemma allowed_not_dot c : allowed c = true -> (c =? dot) = false.
Proof. unfold allowed, lower_alnum, is_lower, is_digit, dash, dot. lia. Qed.

Lemma strip_extension_slug s :
  forallb allowed s = true -> strip_extension s = s.
Proof.
  induction s as [|c r IH]; [reflexivity|]. cbn [forallb strip_extension].
  intros [Hc Hr]%andb_true_iff. rewrite (allowed_not_dot c Hc).
  cbn [andb]. now rewrite IH.
Qed.

Lemma dash_unless_slug s :
  forallb allowed s = true -> dash_unless lower_alnum s = s.
Proof.
  induction s as [|c r IH]; [reflexivity|]. cbn [forallb dash_unless List.map].
  intros [Hc Hr]%andb_true_iff. fold (dash_unless lower_alnum r).
  rewrite (IH Hr). f_equal. unfold allowed in Hc.
  destruct (lower_alnum c); [reflexivity|]. cbn [orb] in Hc.
  symmetry. now apply N.eqb_eq.
Qed.

Lemma squeeze_slug s : no_double_dash s = true -> squeeze s = s.
Proof.
  induction s as [|c r IH]; [reflexivity|].
  rewrite no_double_dash_cons. intros [Hcd Hr]%andb_true_iff.
  cbn [squeeze]. apply negb_true_iff in Hcd. now rewrite Hcd, IH.
Qed.

Lemma drop_trailing_dash_slug s :
  (List.last s 0 =? dash) = false -> drop_trailing_dash s = s.
Proof.
  induction s as [|c s IH]; [reflexivity|]. destruct s as [|d r].
  - cbn. now intros ->.
  - intros Hl. rewrite drop_trailing_dash_cons. f_equal. apply IH. exact Hl.
Qed.

(** X18.  [generateLogoId] is idempotent: the id of an id is the id
    itself, given that lower-casing leaves the id as it is (as it does
    for a string of [a]-[z], digits and dashes). *)
Theorem generateLogoId_idempotent filename :
  toLowerCase (generateLogoId filename) = generateLogoId filename ->
  generateLogoId (generateLogoId filename) = generateLogoId filename.
Proof.
  intros Hlow. pose proof (generateLogoId_slug_parts filename) as Hs.
  set (i := generateLogoId filename) in *.
  destruct Hs as (Ha & Hn & Hs & He).
  unfold generateLogoId at 1. rewrite Hlow.
  rewrite (strip_extension_slug _ Ha), (dash_unless_slug _ Ha),
    (squeeze_slug _ Hn).
  unfold trim_dashes.
  assert (drop_leading_dash i = i) as ->.
  { destruct i as [|c r]; [reflexivity|]. cbn in Hs |- *. now rewrite Hs. }
  now apply drop_trailing_dash_slug.
Qed.

Lemma split_not_nil sep s : split sep s <> [].
Proof.
  destruct s as [|c r]; cbn [split]; [discriminate|].
  destruct (c =? sep); [discriminate|]. now destruct (split sep r).
Qed.

Lemma pop_cons x parts : parts <> [] -> pop (x :: parts) = pop parts.
Proof. destruct parts; [congruence|reflexivity]. Qed.

Lemma split_no_dot s : has_dot s = false -> split dot s = [s].
Proof.
  induction s as [|c r IH]; [reflexivity|]. cbn [has_dot existsb split].
  intros [Hc Hr]%orb_false_iff. rewrite Hc. fold (has_dot r) in Hr.
  now rewrite (IH Hr).
Qed.

(** The last piece of a split has no separator in it. *)
Lemma pop_split_no_dot s : has_dot (pop (split dot s)) = false.
Proof.
  induction s as [|c r IH]; [reflexivity|]. cbn [split].
  destruct (c =? dot) eqn:Hc.
  - rewrite pop_cons by apply split_not_nil. exact IH.
  - pose proof (split_not_nil dot r) as Hne.
    destruct (split dot r) as [|h [|h' t]]; [congruence| |exact IH].
    unfold pop in *. cbn [List.last has_dot existsb] in *.
    now rewrite Hc, IH.
Qed.

Lemma split_two a e : exists h h' t, split dot (a ++ dot :: e) = h :: h' :: t.
Proof.
  induction a as [|c a IH]; cbn [app split].
  - change (dot =? dot) with true. cbn iota.
    pose proof (split_not_nil dot e). destruct (split dot e); [congruence|eauto].
  - destruct IH as (h & h' & t & ->). destruct (c =? dot); eauto.
Qed.

(** The last piece of [a + "." + e] is the last piece of [e]. *)
Lemma pop_split_app a e :
  pop (split dot (a ++ dot :: e)) = pop (split dot e).
Proof.
  induction a as [|c a IH]; cbn [app split].
  - change (dot =? dot) with true. cbn iota.
    apply pop_cons, split_not_nil.
  - destruct (split_two a e) as (h & h' & t & Hs). rewrite Hs in *.
    destruct (c =? dot); exact IH.
Qed.

Lemma strip_extension_no_dot s : has_dot s = false -> strip_extension s = s.
Proof.
  induction s as [|c r IH]; [reflexivity|]. cbn [has_dot existsb strip_extension].
  intros [Hc Hr]%orb_false_iff. rewrite Hc. cbn [andb]. now rewrite IH.
Qed.

(** X19.  [generateUniqueFilename] keeps the extension: the text after
    the last dot of the generated name is the text after the last dot of
    the original name.  For a name without a dot that text is the whole
    name, which then follows the time stamp as the extension. *)
Theorem generateUniqueFilename_extension c originalName :
  pop (split dot (generateUniqueFilename c originalName))
  = pop (split dot originalName)
  /\ (has_dot originalName = false ->
      generateUniqueFilename c originalName
      = toLowerCase (dash_unless alnum originalName) ++ js "-"
          ++ number_text (now c) ++ js "." ++ originalName).
Proof.
  unfold generateUniqueFilename. split.
  - change (js ".") with [dot]. rewrite !app_assoc.
    rewrite <- (app_assoc _ [dot]). cbn [app].
    rewrite pop_split_app.
    now rewrite (split_no_dot _ (pop_split_no_dot originalName)).
  - intros Hd. now rewrite (split_no_dot _ Hd), (strip_extension_no_dot _ Hd).
Qed.

End LogoNames.

Section LogoNameExamples.
Import GitHubService Laws.

Lemma generateLogoId_idempotent_witness :
  @generateLogoId NameSamples.ascii_lower
    (@generateLogoId NameSamples.ascii_lower (js "Acme Logo (2).PNG"))
  = @generateLogoId NameSamples.ascii_lower (js "Acme Logo (2).PNG").
Proof.
  apply (@generateLogoId_idempotent NameSamples.ascii_lower).
  vm_compute. reflexivity.
Defined.

Example generateLogoId_acme :
  @generateLogoId NameSamples.ascii_lower (js "Acme Logo (2).PNG")
  = js "acme-logo-2".
Proof. vm_compute. reflexivity. Qed.

End LogoNameExamples.

(** ** The logos of a manifest *)

Section ManifestLogos.
Import GitHubService Laws.

Section WithEngine.
Context `{Engine}.

Lemma not_after_trans x y z :
  numeric x = true -> numeric y = true -> numeric z = true ->
  not_after x y = true -> not_after y z = true -> not_after x z = true.
Proof.
  unfold numeric, not_after, by_priority.
  destruct (priority x) as [p|], (priority y) as [q|], (priority z) as [r|];
    try discriminate. intros _ _ _.
  destruct (Qcompare_spec p q), (Qcompare_spec q r), (Qcompare_spec p r);
    try discriminate; try reflexivity; intros _ _; exfalso; lra.
Qed.

Lemma not_after_total x y :
  numeric x = true -> numeric y = true ->
  by_priority x y = Gt -> not_after y x = true.
Proof.
  unfold numeric, not_after, by_priority.
  destruct (priority x) as [p|], (priority y) as [q|]; try discriminate.
  intros _ _. destruct (Qcompare_spec p q), (Qcompare_spec q p);
    try discriminate; try reflexivity; intros _; exfalso; lra.
Qed.

Lemma insert_sorted_ascending x l :
  numeric x = true -> forallb numeric l = true -> ascending l = true ->
  ascending (insert_sorted x l) = true.
Proof.
  intros Hx. induction l as [|y r IH]; [reflexivity|].
  cbn [forallb ascending insert_sorted].
  intros [Hy Hr]%andb_true_iff [Hyr Har]%andb_true_iff.
  destruct (by_priority x y) eqn:Hc.
  - cbn [ascending forallb]. rewrite Hyr, Har, !andb_true_r.
    assert (not_after x y = true) as Hxy by (unfold not_after; now rewrite Hc).
    rewrite Hxy. cbn [andb]. apply forallb_forall. intros z Hz.
    apply (not_after_trans x y z); auto.
    + exact (proj1 (forallb_forall _ _) Hr z Hz).
    + exact (proj1 (forallb_forall _ _) Hyr z Hz).
  - cbn [ascending forallb]. rewrite Hyr, Har, !andb_true_r.
    assert (not_after x y = true) as Hxy by (unfold not_after; now rewrite Hc).
    rewrite Hxy. cbn [andb]. apply forallb_forall. intros z Hz.
    apply (not_after_trans x y z); auto.
    + exact (proj1 (forallb_forall _ _) Hr z Hz).
    + exact (proj1 (forallb_forall _ _) Hyr z Hz).
  - cbn [ascending]. rewrite (IH Hr Har), andb_true_r.
    apply forallb_forall. intros z Hz.
    apply (Permutation_in _ (insert_sorted_perm x r)) in Hz as [<-|Hz].
    + now apply not_after_total.
    + exact (proj1 (forallb_forall _ _) Hyr z Hz).
Qed.

Lemma insertion_ascending l :
  forallb numeric l = true -> ascending (foldr insert_sorted [] l) = true.
Proof.
  induction l as [|x l IH]; [reflexivity|]. cbn [forallb].
  intros [Hx Hl]%andb_true_iff. cbn [foldr].
  apply insert_sorted_ascending; [exact Hx| |now apply IH].
  apply forallb_forall. intros z Hz.
  apply (Permutation_in _ (insertion_perm l)) in Hz.
  exact (proj1 (forallb_forall _ _) Hl z Hz).
Qed.

Lemma sort_ascending l sorted :
  forallb numeric l = true -> sort l = Some sorted ->
  ascending sorted = true.
Proof.
  intros Hn. unfold sort.
  destruct l as [|x [|y r]]; try (intros [= <-]; reflexivity).
  destruct (existsb is_null _); [discriminate|]. rewrite Hn.
  intros [= <-]. now apply (insertion_ascending (x :: y :: r)).
Qed.

(** X20.  When the priorities of the entries of the manifest and of the
    new logo are numbers, [addLogoToManifest] returns on every document
    that is well formed, and whenever it returns the logos of the
    manifest returned are in ascending order of priority, whatever the
    order before. *)
Theorem addLogoToManifest_ascending c manifest lm :
  forallb numeric (entries manifest) = true -> numeric lm = true ->
  (well_formed manifest lm = true ->
   is_Some (addLogoToManifest c manifest lm))
  /\ (forall m', addLogoToManifest c manifest lm = Some m' ->
       exists l', lookup_member m' (js "logos") = Some (JArr l')
                  /\ ascending l' = true).
Proof.
  intros Hl Hlm. split; [apply addLogoToManifest_returns|]. intros m' Hm.
  destruct (addLogoToManifest_inv c manifest lm m' Hm)
    as (kept & sorted & Hk & Hs & Hlogos).
  exists sorted. split; [exact Hlogos|].
  apply (sort_ascending (kept ++ [lm])); [|exact Hs].
  apply Array_filter_inv in Hk as [-> _].
  rewrite forallb_app. cbn [forallb]. rewrite Hlm, !andb_true_r.
  apply forallb_forall. intros z [Hz _]%filter_In.
  exact (proj1 (forallb_forall _ _) Hl z Hz).
Qed.





End WithEngine.

Lemma batch_loop_spec files : forall i total rs es,
  let r := batch_loop i total files rs es in
  r.1.1 = rs ++ succeeded files
  /\ r.1.2 = es ++ failures files
  /\ length r.2 = length files.
Proof.
  induction files as [|[name o] rest IH]; intros i total rs es; cbn zeta.
  - cbn. now rewrite !app_nil_r.
  - cbn [batch_loop].
    destruct o as [l|msg].
    + specialize (IH (S i) total (rs ++ [l]) es). cbn zeta in IH.
      destruct (batch_loop (S i) total rest (rs ++ [l]) es) as [[rs' es'] ps].
      cbn [fst snd] in *. destruct IH as (-> & -> & Hps).
      unfold succeeded, failures. cbn [omap fst snd length].
      rewrite <- app_assoc, Hps. repeat split.
    + specialize (IH (S i) total rs (es ++ [{| file := name; error := msg |}])).
      cbn zeta in IH.
      destruct (batch_loop (S i) total rest rs _) as [[rs' es'] ps].
      cbn [fst snd] in *. destruct IH as (-> & -> & Hps).
      unfold succeeded, failures. cbn [omap fst snd length].
      rewrite <- app_assoc, Hps. repeat split.
Qed.

Lemma succeeded_failures_length files :
  (length (succeeded files) + length (failures files))%nat = length files.
Proof.
  induction files as [|[name [l|msg]] rest IH]; [reflexivity| |];
    unfold succeeded, failures in *; simpl; rewrite ?Nat.add_succ_r;
    f_equal; exact IH.
Qed.


(** X21.  [uploadLogoBatch] sorts the files into [results] and [errors]
    and loses none: [results] holds the metadata of the uploads that
    succeeded and [errors] the name and message of those that failed,
    both in the order of the files, so that their lengths add up to the
    number of files; a progress callback is called once per file and
    once at the end. *)
Theorem uploadLogoBatch_partition files onProgress :
  let r := uploadLogoBatch files onProgress in
  r.1.1 = succeeded files
  /\ r.1.2 = failures files
  /\ (length r.1.1 + length r.1.2)%nat = length files
  /\ length r.2 = if onProgress then S (length files) else 0%nat.
Proof.
  cbn zeta. unfold uploadLogoBatch.
  pose proof (batch_loop_spec files 0 (length files) [] []) as Hspec.
  cbn zeta in Hspec.
  destruct (batch_loop 0 (length files) files [] []) as [[rs es] ps].
  cbn [fst snd app] in *. destruct Hspec as (-> & -> & Hps).
  repeat split; [apply succeeded_failures_length|].
  destruct onProgress; [|reflexivity]. rewrite length_app, Hps. cbn. lia.
Qed.



Lemma addLogoToManifest_ascending_witness :
  exists m' l',
    @addLogoToManifest Examples.as_given Examples.mid_november
      (JObj Examples.two_logos) Examples.acme_new = Some m'
    /\ lookup_member m' (js "logos") = Some (JArr l')
    /\ ascending l' = true.
Proof.
  destruct (@addLogoToManifest_ascending Examples.as_given
              Examples.mid_november (JObj Examples.two_logos)
              Examples.acme_new eq_refl eq_refl) as [Hret Hasc].
  destruct (Hret eq_refl) as [m' Hm'].
  destruct (Hasc m' Hm') as (l' & Hl' & Ha).
  exists m', l'. repeat split; assumption.
Defined.

Lemma fill_in_truthy k v p :
  truthy (lookup_prop k p) = true -> fill_in k v p = p.
Proof. unfold fill_in. now intros ->. Qed.

(** X23.  [validateAndFixManifest] is idempotent: a manifest that went
    through it passes it again unchanged, at whatever time, because
    every field it looks at has been made truthy ([toISOString] gives a
    text that is not empty) and [logos] an array. *)
Theorem validateAndFixManifest_idempotent c c' manifest :
  iso c <> [] ->
  validateAndFixManifest c' (validateAndFixManifest c manifest)
  = validateAndFixManifest c manifest.
Proof.
  intros Hiso. unfold validateAndFixManifest at 1. cbn [spread].
  unfold validateAndFixManifest.
  set (p1 := fill_in (js "version") (fresh_version c) (spread manifest)).
  set (p2 := fill_in (js "lastUpdated") (JStr (iso c)) p1).
  set (p3 := if negb (truthy (lookup_prop (js "logos") p2))
                || negb (isArray (lookup_prop (js "logos") p2))
             then set_prop (js "logos") (JArr []) p2 else p2).
  set (p4 := fill_in (js "settings") default_settings p3).
  set (p5 := fill_in (js "metadata") (JObj default_metadata) p4).
  assert (forall k, k <> js "logos" -> lookup_prop k p3 = lookup_prop k p2)
    as H3.
  { intros k Hk. unfold p3. destruct (_ || _); [|reflexivity].
    now apply lookup_set_prop_ne. }
  assert (truthy (lookup_prop (js "version") p5) = true) as Hv.
  { unfold p5, p4. rewrite !lookup_fill_in_ne, H3 by (vm_compute; discriminate).
    unfold p2. rewrite lookup_fill_in_ne by (vm_compute; discriminate).
    unfold p1. rewrite lookup_fill_in_eq.
    destruct (truthy (lookup_prop (js "version") (spread manifest))) eqn:E;
      [exact E|reflexivity]. }
  assert (truthy (lookup_prop (js "lastUpdated") p5) = true) as Hu.
  { unfold p5, p4. rewrite !lookup_fill_in_ne, H3 by (vm_compute; discriminate).
    unfold p2. rewrite lookup_fill_in_eq.
    destruct (truthy (lookup_prop (js "lastUpdated") p1)) eqn:E; [exact E|].
    cbn [truthy]. unfold jsstr_eqb. now rewrite bool_decide_eq_false_2. }
  assert (truthy (lookup_prop (js "logos") p5) = true
          /\ isArray (lookup_prop (js "logos") p5) = true) as [Hl Ha].
  { unfold p5, p4. rewrite !lookup_fill_in_ne by (vm_compute; discriminate).
    unfold p3.
    destruct (lookup_prop (js "logos") p2) as [[]|] eqn:E;
      cbn [truthy isArray negb orb]; rewrite ?orb_true_r;
      rewrite ?lookup_set_prop_eq, ?E; split; reflexivity. }
  assert (truthy (lookup_prop (js "settings") p5) = true) as Hs.
  { unfold p5. rewrite lookup_fill_in_ne by (vm_compute; discriminate).
    unfold p4. rewrite lookup_fill_in_eq.
    destruct (truthy (lookup_prop (js "settings") p3)) eqn:E;
      [exact E|reflexivity]. }
  assert (truthy (lookup_prop (js "metadata") p5) = true) as Hm.
  { unfold p5. rewrite lookup_fill_in_eq.
    destruct (truthy (lookup_prop (js "metadata") p4)) eqn:E;
      [exact E|reflexivity]. }
  rewrite (fill_in_truthy _ _ _ Hv), (fill_in_truthy _ _ _ Hu), Hl, Ha.
  cbn [negb orb].
  now rewrite (fill_in_truthy _ _ _ Hs), (fill_in_truthy _ _ _ Hm).
Qed.

Lemma validateAndFixManifest_idempotent_witness :
  validateAndFixManifest Examples.mid_november
    (validateAndFixManifest Examples.mid_november Examples.manifest_document)
  = validateAndFixManifest Examples.mid_november Examples.manifest_document.
Proof.
  apply validateAndFixManifest_idempotent. vm_compute. discriminate.
Defined.

End ManifestLogos.

(** ** [GitHubConfigManager]: the active repository *)

Section ActiveRepository.
Import GitHubConfigManager Laws.

Lemma truthy_member_object r k :
  truthy (lookup_member r k) = true -> exists props, r = JObj props.
Proof. destruct r; try discriminate. eauto. Qed.

(** What [validateConfiguration] checks of the primary repository. *)
Lemma validated_primary c :
  validateConfiguration c = Resolved tt -> usable (primary c) = true.
Proof.
  unfold validateConfiguration, required, usable. cbn [first_missing].
  repeat match goal with
         | |- context [if truthy ?v then _ else _] =>
             destruct (truthy v); [|discriminate]
         end.
  reflexivity.
Qed.

Lemma truthy_or_else v fallback :
  truthy (Some fallback) = true -> truthy (Some (or_else v fallback)) = true.
Proof.
  intros Hf. unfold or_else. destruct v as [j|]; [|exact Hf].
  destruct (truthy (Some j)) eqn:E; [exact E|exact Hf].
Qed.

Lemma lookup_field_eq k v rest :
  truthy v = true -> lookup_prop k (field k v ++ rest) = v.
Proof.
  destruct v as [j|]; [|discriminate]. intros _. cbn [field app lookup_prop].
  unfold jsstr_eqb. now rewrite bool_decide_eq_true_2.
Qed.

Lemma lookup_field_ne k k' v rest :
  k <> k' -> lookup_prop k (field k' v ++ rest) = lookup_prop k rest.
Proof.
  intros Hne. destruct v as [j|]; [|reflexivity]. cbn [field app lookup_prop].
  unfold jsstr_eqb. now rewrite bool_decide_eq_false_2.
Qed.

(** The repository that a successful [switchRepository] makes active. *)
Lemma switchRepository_cases r c :
  match (switchRepository r c).1 with
  | Resolved true =>
      primary (switchRepository r c).2 = primary c
      /\ fallbacks (switchRepository r c).2 = fallbacks c
      /\ api (switchRepository r c).2 = api c
      /\ usable (active (switchRepository r c).2) = true
      /\ lookup_member (active (switchRepository r c).2) (js "owner")
         = lookup_member r (js "owner")
      /\ lookup_member (active (switchRepository r c).2) (js "repo")
         = lookup_member r (js "repo")
      /\ lookup_member (active (switchRepository r c).2) (js "branch")
         = Some (or_else (lookup_member r (js "branch")) (JStr (js "main")))
      /\ lookup_member (active (switchRepository r c).2) (js "uploadPath")
         = Some (or_else (lookup_member r (js "uploadPath"))
                   (JStr (js "logos/")))
  | _ => (switchRepository r c).2 = c
  end.
Proof.
  unfold switchRepository, lookup_member.
  destruct (get_member r (js "owner")) as [o|] eqn:Ho; [|reflexivity].
  assert (get_member r (js "repo")
          = Some (lookup_member r (js "repo"))) as Hr.
  { unfold lookup_member. destruct r; try reflexivity. discriminate. }
  unfold lookup_member in Hr.
  destruct (truthy o) eqn:To; [|reflexivity].
  destruct (truthy (match get_member r (js "repo") with
                    | Some r0 => r0 | None => None end)) eqn:Tr;
    [|reflexivity].
  cbn [negb orb fst snd primary fallbacks api active set_active get_member].
  set (b := or_else _ (JStr (js "main"))).
  set (u := or_else _ (JStr (js "logos/"))).
  assert (truthy (Some b) = true) as Tb by now apply truthy_or_else.
  assert (truthy (Some u) = true) as Tu by now apply truthy_or_else.
  unfold usable, lookup_member. cbn [get_member].
  rewrite (lookup_field_eq (js "owner") o) by exact To.
  rewrite (lookup_field_ne (js "repo") (js "owner")) by (vm_compute; discriminate).
  rewrite (lookup_field_eq (js "repo")) by exact Tr.
  rewrite !(lookup_field_ne (js "branch")) by (vm_compute; discriminate).
  rewrite !(lookup_field_ne (js "uploadPath")) by (vm_compute; discriminate).
  replace (lookup_prop (js "branch")
             [(js "branch", b); (js "uploadPath", u)]) with (Some b)
    by (cbn [lookup_prop]; unfold jsstr_eqb;
        now rewrite bool_decide_eq_true_2).
  replace (lookup_prop (js "uploadPath")
             [(js "branch", b); (js "uploadPath", u)]) with (Some u).
  2: { cbn [lookup_prop]. unfold jsstr_eqb.
       rewrite bool_decide_eq_false_2 by (vm_compute; discriminate).
       now rewrite bool_decide_eq_true_2. }
  rewrite To, Tr, Tb, Tu. repeat split; reflexivity.
Qed.

Lemma apply_call_cases k c :
  usable (primary c) = true ->
  primary (apply_call k c).2 = primary c
  /\ fallbacks (apply_call k c).2 = fallbacks c
  /\ api (apply_call k c).2 = api c
  /\ (usable (active c) = true -> usable (active (apply_call k c).2) = true)
  /\ (switched (apply_call k c).1 = false -> (apply_call k c).2 = c).
Proof.
  intros Hp.
  assert (forall r,
    primary (switchRepository r c).2 = primary c
    /\ fallbacks (switchRepository r c).2 = fallbacks c
    /\ api (switchRepository r c).2 = api c
    /\ (usable (active c) = true ->
        usable (active (switchRepository r c).2) = true)
    /\ (switched (switchRepository r c).1 = false ->
        (switchRepository r c).2 = c)) as Hswitch.
  { intros r. pose proof (switchRepository_cases r c) as Hc.
    destruct (switchRepository r c) as [[[]|msg] c']; cbn [fst snd] in *;
      try (subst c'; repeat split; auto).
    destruct Hc as (-> & -> & -> & Hu & _). repeat split; auto. discriminate. }
  destruct k as [r|i|u|]; cbn [apply_call].
  - apply Hswitch.
  - unfold switchToFallback.
    destruct (nth_error (fallbacks c) i) as [f|]; [|repeat split; auto].
    destruct (truthy (Some f)); [apply Hswitch|repeat split; auto].
  - unfold switchToUserRepository.
    destruct (negb (truthy u)); [repeat split; auto|].
    destruct (get_member (primary c) (js "repo"));
      [apply Hswitch|repeat split; auto].
  - unfold resetToPrimary. cbn [fst snd primary fallbacks api active set_active].
    repeat split; try discriminate. intros _.
    destruct (truthy_member_object (primary c) (js "owner")) as [props Hprops].
    { unfold usable in Hp. now destruct (truthy (lookup_member _ (js "owner"))). }
    rewrite Hprops in *. exact Hp.
Qed.

(** X24.  Once [validateConfiguration] has passed, the active repository
    stays usable: after any sequence of [switchRepository],
    [switchToFallback], [switchToUserRepository] and [resetToPrimary],
    [active] has a truthy [owner], [repo], [branch] and [uploadPath],
    and [primary], [fallbacks] and [api] are as they were; a call that
    throws or returns [false] changes nothing. *)
Theorem active_repository_usable ks c :
  validateConfiguration c = Resolved tt -> usable (active c) = true ->
  let c' := apply_calls ks c in
  usable (active c') = true
  /\ primary c' = primary c /\ fallbacks c' = fallbacks c /\ api c' = api c
  /\ (forall k, switched (apply_call k c').1 = false ->
                (apply_call k c').2 = c').
Proof.
  intros Hv Ha. apply validated_primary in Hv. cbn zeta.
  assert (usable (active (apply_calls ks c)) = true
          /\ primary (apply_calls ks c) = primary c
          /\ fallbacks (apply_calls ks c) = fallbacks c
          /\ api (apply_calls ks c) = api c) as (H1 & H2 & H3 & H4).
  { revert c Hv Ha. induction ks as [|k ks IH]; intros c Hv Ha;
      [repeat split; assumption|].
    unfold apply_calls in *. cbn [fold_left].
    destruct (apply_call_cases k c Hv) as (Kp & Kf & Ka & Ku & _).
    destruct (IH (apply_call k c).2) as (I1 & I2 & I3 & I4);
      [now rewrite Kp|auto|].
    repeat split; congruence. }
  repeat split; try assumption.
  intros k. apply apply_call_cases. now rewrite H2.
Qed.

Lemma active_repository_usable_witness :
  usable (active (apply_calls
                    [SwitchToFallback 0;
                     SwitchRepository (JObj [(js "owner", JStr (js "x"))]);
                     SwitchToUserRepository (Some (JStr (js "octocat")));
                     SwitchToFallback 3]
                    ConfigSamples.loaded)) = true.
Proof.
  apply (active_repository_usable
           [SwitchToFallback 0;
            SwitchRepository (JObj [(js "owner", JStr (js "x"))]);
            SwitchToUserRepository (Some (JStr (js "octocat")));
            SwitchToFallback 3]
           ConfigSamples.loaded); vm_compute; reflexivity.
Defined.

(** X25.  With a validated configuration, [switchToUserRepository]
    succeeds for every truthy login and makes active the user's
    repository with the [repo], [branch] and [uploadPath] of the primary
    one, the defaults of [switchRepository] never coming into play;
    [resetToPrimary] then makes every property of the active repository
    that of the primary one again. *)
Theorem switchToUserRepository_keeps_repo login c :
  validateConfiguration c = Resolved tt -> truthy (Some login) = true ->
  let r := switchToUserRepository (Some login) c in
  r.1 = Resolved true
  /\ lookup_member (active r.2) (js "owner") = Some login
  /\ lookup_member (active r.2) (js "repo")
     = lookup_member (primary c) (js "repo")
  /\ lookup_member (active r.2) (js "branch")
     = lookup_member (primary c) (js "branch")
  /\ lookup_member (active r.2) (js "uploadPath")
     = lookup_member (primary c) (js "uploadPath")
  /\ (forall k, lookup_member (active (resetToPrimary r.2).2) k
                = lookup_member (primary c) k).
Proof.
  intros Hv Hl. apply validated_primary in Hv.
  destruct (truthy_member_object (primary c) (js "owner")) as [props Hprops].
  { unfold usable in Hv. now destruct (truthy (lookup_member _ (js "owner"))). }
  unfold usable in Hv. rewrite Hprops in Hv.
  unfold lookup_member in Hv. cbn [get_member] in Hv.
  apply andb_true_iff in Hv as [Hv Tu]. apply andb_true_iff in Hv as [Hv Tb].
  apply andb_true_iff in Hv as [_ Tr].
  cbn zeta. unfold switchToUserRepository. rewrite Hl. cbn [negb].
  rewrite Hprops. unfold lookup_member at 1 2. cbn [get_member].
  set (repoConfig := JObj _).
  assert (lookup_member repoConfig (js "owner") = Some login) as Lo.
  { unfold repoConfig, lookup_member. cbn [get_member].
    now rewrite lookup_field_eq. }
  assert (lookup_member repoConfig (js "repo")
          = lookup_prop (js "repo") props) as Lr.
  { unfold repoConfig, lookup_member. cbn [get_member].
    rewrite lookup_field_ne by (vm_compute; discriminate).
    now rewrite lookup_field_eq. }
  assert (lookup_member repoConfig (js "branch")
          = lookup_prop (js "branch") props) as Lb.
  { unfold repoConfig, lookup_member. cbn [get_member].
    rewrite !lookup_field_ne by (vm_compute; discriminate).
    now rewrite lookup_field_eq. }
  assert (lookup_member repoConfig (js "uploadPath")
          = lookup_prop (js "uploadPath") props) as Lu.
  { unfold repoConfig, lookup_member. cbn [get_member].
    rewrite !lookup_field_ne by (vm_compute; discriminate).
    rewrite <- (app_nil_r (field _ _)). now rewrite lookup_field_eq. }
  pose proof (switchRepository_cases repoConfig c) as Hc.
  assert ((switchRepository repoConfig c).1 = Resolved true) as Hres.
  { unfold switchRepository. fold (lookup_member repoConfig (js "repo")).
    assert (get_member repoConfig (js "owner") = Some (Some login)) as ->.
    { unfold lookup_member in Lo. unfold repoConfig in *. cbn [get_member] in *.
      now rewrite Lo. }
    now rewrite Lr, Hl, Tr. }
  rewrite Hres in Hc. destruct Hc as (Hp & _ & _ & _ & Ho & Hr & Hb & Hu).
  split; [exact Hres|]. rewrite Ho, Hr, Hb, Hu, Lo, Lr, Lb, Lu.
  unfold lookup_member. cbn [get_member].
  repeat split.
  - unfold or_else. destruct (lookup_prop (js "branch") props); [|discriminate].
    now rewrite Tb.
  - unfold or_else. destruct (lookup_prop (js "uploadPath") props);
      [|discriminate]. now rewrite Tu.
  - intros k. cbn [resetToPrimary snd active set_active]. rewrite Hp, Hprops.
    reflexivity.
Qed.

Lemma switchToUserRepository_keeps_repo_witness :
  (switchToUserRepository (Some (JStr (js "octocat"))) ConfigSamples.loaded).1
  = Resolved true.
Proof.
  apply (switchToUserRepository_keeps_repo (JStr (js "octocat"))
           ConfigSamples.loaded); vm_compute; reflexivity.
Defined.

End ActiveRepository.

(** ** [GitHubUploadService]: authentication *)

Section Authentication.
Import GitHubUploadService.
Context `{Platform}.

Lemma set_owner_back v s : set_owner (owner s) (set_owner v s) = s.
Proof. now destruct s. Qed.

(** X26.  [handleRepositoryFallback] either switches to the repository
    of the authenticated user or changes nothing: it never returns
    [false]; when it throws, the session is as before, the owner tried
    in between being restored; when it returns [true], the login differs
    from the former owner and is the new owner, and [cdnEndpoint] is
    moved to the user's pages only when the repository was reachable,
    not when it had to be created. *)
Theorem handleRepositoryFallback_restores repo user_access create s :
  let r := handleRepositoryFallback repo user_access create s in
  r.1 <> Resolved false
  /\ (forall m, r.1 = Rejected m -> r.2 = s)
  /\ (r.1 = Resolved true ->
      differs (login s) (owner s) = true
      /\ owner r.2 = login s
      /\ token r.2 = token s
      /\ authenticatedUser r.2 = authenticatedUser s
      /\ cdnEndpoint r.2
         = if success (testRepositoryAccess user_access)
           then Some (JStr (js "https://" ++ to_string (login s)
                            ++ js ".github.io/" ++ repo))
           else cdnEndpoint s).
Proof.
  cbn zeta. unfold handleRepositoryFallback.
  destruct (truthy (authenticatedUser s) && differs (login s) (owner s))
    eqn:Hguard.
  2: { cbn [fst snd]. repeat split; discriminate. }
  apply andb_true_iff in Hguard as [_ Hd].
  destruct (success (testRepositoryAccess user_access)).
  { cbn [fst snd]. repeat split; try discriminate; auto. }
  destruct (_ && createRepository create); cbn [fst snd].
  - repeat split; try discriminate; auto.
  - repeat split; try discriminate. intros _ _. apply set_owner_back.
Qed.

Lemma handleRepositoryFallback_cases repo user_access create s :
  let r := handleRepositoryFallback repo user_access create s in
  r.1 <> Resolved false
  /\ (forall m, r.1 = Rejected m -> r.2 = s)
  /\ (r.1 = Resolved true ->
      differs (login s) (owner s) = true
      /\ owner r.2 = login s
      /\ token r.2 = token s
      /\ authenticatedUser r.2 = authenticatedUser s
      /\ isAuthenticated r.2 = isAuthenticated s).
Proof.
  cbn zeta. unfold handleRepositoryFallback.
  destruct (truthy (authenticatedUser s) && differs (login s) (owner s))
    eqn:Hguard.
  2: { cbn [fst snd]. repeat split; discriminate. }
  apply andb_true_iff in Hguard as [_ Hd].
  destruct (success (testRepositoryAccess user_access)).
  { cbn [fst snd]. repeat split; try discriminate; auto. }
  destruct (_ && createRepository create); cbn [fst snd].
  - repeat split; try discriminate; auto.
  - repeat split; try discriminate. intros _ _. apply set_owner_back.
Qed.

Lemma testAuthentication_cases endpoint repo net access user_access create s :
  let r := testAuthentication endpoint repo net access user_access create s in
  token r.2 = token s /\ isAuthenticated r.2 = isAuthenticated s
  /\ (r.1 = true ->
      exists response userData,
        (makeApiRequest (to_string (token s)) net (endpoint ++ js "/user")
           None None).1 = Resolved (Some response)
        /\ ok response = true
        /\ json_body response = Some userData
        /\ authenticatedUser r.2 = Some userData
        /\ (success (testRepositoryAccess access) = true /\ owner r.2 = owner s
            \/ success (testRepositoryAccess access) = false
               /\ owner r.2 = lookup_member userData (js "login")
               /\ differs (lookup_member userData (js "login")) (owner s)
                  = true))
  /\ (r.1 = false -> owner r.2 = owner s /\ cdnEndpoint r.2 = cdnEndpoint s).
Proof.
  cbn zeta. unfold testAuthentication.
  destruct (negb (truthy (token s))); [repeat split; discriminate|].
  destruct (makeApiRequest _ _ _ _ _).1 as [[response|]|msg];
    try (repeat split; discriminate).
  destruct (ok response) eqn:Hok; [|repeat split; discriminate].
  destruct (json_body response) as [userData|] eqn:Hbody;
    [|repeat split; discriminate].
  destruct (get_member userData (js "login")) as [l|] eqn:Hl;
    [|repeat split; discriminate].
  destruct (success (testRepositoryAccess access)) eqn:Hacc.
  { cbn [fst snd]. repeat split; try discriminate.
    intros _. exists response, userData. repeat split; auto. }
  set (s1 := set_authenticatedUser (Some userData) s).
  pose proof (handleRepositoryFallback_cases repo user_access create s1) as Hf.
  cbn zeta in Hf.
  destruct (handleRepositoryFallback repo user_access create s1)
    as [[[]|m] s2]; cbn [fst snd] in *.
  - destruct Hf as (_ & _ & Hf).
    destruct (Hf eq_refl) as (Hd & Ho & Ht & Hu & Hi).
    assert (login s1 = lookup_member userData (js "login")) as Hlogin
      by reflexivity.
    split; [exact Ht|]. split; [exact Hi|]. split; [|discriminate].
    intros _. exists response, userData.
    split; [reflexivity|]. split; [exact Hok|]. split; [exact Hbody|].
    split; [exact Hu|]. right. rewrite <- Hlogin.
    split; [reflexivity|]. split; [exact Ho|exact Hd].
  - now destruct Hf as (Hf & _).
  - destruct Hf as (_ & Hf & _). rewrite (Hf m eq_refl).
    repeat split; discriminate.
Qed.

(** X27.  [testAuthentication] answers with a boolean and never throws.
    It answers [true] only when [makeApiRequest] brought an [ok]
    response with a body, which is then the authenticated user, and
    either the repository is reachable as configured or the owner has
    become the login of the user; when it answers [false], the owner
    and the CDN endpoint are those from before.  The token and
    [isAuthenticated] are never touched. *)
Theorem testAuthentication_outcome endpoint repo net access user_access
    create s :
  let r := testAuthentication endpoint repo net access user_access create s in
  token r.2 = token s /\ isAuthenticated r.2 = isAuthenticated s
  /\ (r.1 = true ->
      exists response userData,
        (makeApiRequest (to_string (token s)) net (endpoint ++ js "/user")
           None None).1 = Resolved (Some response)
        /\ ok response = true
        /\ json_body response = Some userData
        /\ authenticatedUser r.2 = Some userData
        /\ (success (testRepositoryAccess access) = true /\ owner r.2 = owner s
            \/ success (testRepositoryAccess access) = false
               /\ owner r.2 = lookup_member userData (js "login")
               /\ differs (lookup_member userData (js "login")) (owner s)
                  = true))
  /\ (r.1 = false -> owner r.2 = owner s /\ cdnEndpoint r.2 = cdnEndpoint s).
Proof. apply testAuthentication_cases. Qed.

(** X28.  A rate limit on every attempt is a failed authentication, not
    an error: when each of the three attempts of [makeApiRequest] is
    answered by a rate-limited 403, so that it resolves without a
    response, [testAuthentication] answers [false] and leaves the
    session as it was. *)
Theorem testAuthentication_rate_limited endpoint repo net access user_access
    create s :
  (forall a, (1 <= a <= 3)%nat ->
             exists r, net a = Response r /\ status r = 403%Z
                       /\ mentions_rate_limit r = Some true) ->
  testAuthentication endpoint repo net access user_access create s
  = (false, s).
Proof.
  intros Hnet. unfold testAuthentication.
  destruct (negb (truthy (token s))); [reflexivity|].
  unfold makeApiRequest. cbn [default].
  destruct (attempts_rate_limited net (endpoint ++ js "/user")
              (defaultOptions (to_string (token s)) no_options) 3 3
              (Nat.le_refl 3) Hnet) as [-> _].
  reflexivity.
Qed.

(** X29.  [initialize] stores the token it is given and never clears
    [isAuthenticated]: afterwards the flag holds when it held before or
    when the authentication succeeded, so that a failed [initialize]
    leaves an earlier [true] in place beside the new token; a failed
    [initialize] also leaves the owner and the CDN endpoint as they
    were. *)
Theorem initialize_flag endpoint repo new_token net access user_access
    create s :
  let r := initialize endpoint repo new_token net access user_access create s in
  token r.2 = new_token
  /\ isAuthenticated r.2 = isAuthenticated s || r.1
  /\ (r.1 = false -> owner r.2 = owner s /\ cdnEndpoint r.2 = cdnEndpoint s).
Proof.
  cbn zeta. unfold initialize.
  set (s0 := {| token := new_token |}).
  pose proof (testAuthentication_cases endpoint repo net access user_access
                create s0) as Hc. cbn zeta in Hc.
  destruct (testAuthentication endpoint repo net access user_access create s0)
    as [[] s1]; cbn [fst snd] in *; destruct Hc as (Ht & Hi & _ & Hf).
  - cbn [token isAuthenticated]. rewrite Ht, orb_true_r.
    split; [reflexivity|]. split; [reflexivity|discriminate].
  - rewrite Ht, Hi, orb_false_r.
    split; [reflexivity|]. split; [reflexivity|]. intros _. now apply Hf.
Qed.

End Authentication.

Section AuthenticationExamples.
Import GitHubUploadService.

Lemma testAuthentication_rate_limited_witness :
  @testAuthentication Examples.sample_platform
    (js "https://api.github.com") (js "billboard-logos-cdn")
    Examples.always_rate_limited
    (Response Examples.rate_limited) (Response Examples.rate_limited)
    (Response Examples.rate_limited) AuthSamples.fresh
  = (false, AuthSamples.fresh).
Proof.
  apply (@testAuthentication_rate_limited Examples.sample_platform).
  intros a _. exists Examples.rate_limited.
  repeat split; vm_compute; reflexivity.
Defined.

End AuthenticationExamples.

(** ** [makeApiRequest]: running out of attempts *)

Section Exhaustion.
Import GitHubUploadService Laws.

(** X30.  When no attempt succeeds, [makeApiRequest] rejects after the
    last one: if every attempt is answered by an answer that is retried
    and the last answer is not a rate-limited 403, the call rejects
    after exactly [retries] fetches and [retries - 1] delays, without
    waiting after the last fetch. *)
Theorem makeApiRequest_exhausted token net url options retries :
  (1 <= default 3 retries)%nat ->
  (forall i, (1 <= i <= default 3 retries)%nat -> retried (net i) = true) ->
  (forall r, net (default 3%nat retries) = Response r ->
             status r = 403%Z -> mentions_rate_limit r <> Some true) ->
  let res := makeApiRequest token net url options retries in
  (exists m, res.1 = Rejected m)
  /\ fetch_count res.2 = default 3%nat retries
  /\ delay_count res.2 = (default 3 retries - 1)%nat
  /\ last res.2
     = Some (Fetch url (defaultOptions token (default no_options options))).
Proof.
  intros Hn Hnet Hlast. unfold makeApiRequest.
  set (n := default 3%nat retries) in *.
  set (o := defaultOptions token (default no_options options)).
  destruct (attempts_skip net url o n (n - 1) 0) as (pre & Heq & Hf & Hd);
    [lia|intros i Hi; apply Hnet; lia|].
  replace (n - 1 + 1)%nat with n in Heq by lia.
  cbn zeta. rewrite Heq. cbn [attempts].
  replace (n - 0)%nat with n by lia.
  assert (exists m, try_block n n (net n) = (TryThrow m, [])) as [m Htb].
  { specialize (Hnet n ltac:(lia)). unfold try_block.
    destruct (net n) as [m|r] eqn:Hr; [eauto|].
    cbn [retried] in Hnet. apply andb_true_iff in Hnet as [Hok H401].
    apply negb_true_iff in Hok, H401. rewrite Hok, H401.
    destruct (status r =? 403)%Z eqn:H403.
    - specialize (Hlast r eq_refl ltac:(lia)).
      destruct (mentions_rate_limit r) as [[]|]; [congruence|eauto|eauto].
    - destruct (status r =? 404)%Z; [eauto|].
      rewrite Nat.eqb_refl. eauto. }
  rewrite Htb, Nat.eqb_refl. cbn [orb fst snd].
  split; [eauto|].
  rewrite fetch_count_app, delay_count_app, Hf, Hd, last_snoc.
  cbn. repeat split; lia.
Qed.

Lemma makeApiRequest_exhausted_witness :
  exists m,
    (makeApiRequest (js "ghp_token")
       (fun _ => Response RequestSamples.server_error)
       Examples.user_url None None).1 = Rejected m.
Proof.
  apply (makeApiRequest_exhausted (js "ghp_token")
           (fun _ => Response RequestSamples.server_error)
           Examples.user_url None None).
  - cbn. lia.
  - intros i _. reflexivity.
  - intros r [= <-] Hst. vm_compute in Hst. discriminate Hst.
Defined.

End Exhaustion.
